(** * atlassian-toolkit: request executor, upload resolver, idempotent
    creators and tree provisioners.

    A shallow embedding of [lib/config.mjs], [lib/atlassian-client.mjs],
    [lib/jira.mjs] and [lib/confluence.mjs].  Asynchronous code runs on one
    logical thread, so a promise chain is a computation in a state and
    exception monad over a [World]: the remote backend, the file system,
    the process environment, the module variable [_config] and the trace of
    observable events (network calls, timers, console lines, reads). *)

From Stdlib Require Import ZArith String Ascii List Lia.
From stdpp Require Import base tactics option list strings gmap pretty.

Set Default Proof Using "Type".
Set Warnings "-register-all".

(** ** JavaScript values and the string primitives the sources use *)

Module Js.

(** A JS number as far as the sources compute with one: an integer, or
    [None] for NaN. *)
Definition JsNum := option Z.

(** Values as they come out of [JSON.parse] or are built as payloads.
    Object fields keep insertion order.  [JNum] holds the numbers that are
    integers (identifiers, counts, status codes, version numbers); a
    fraction has no value here. *)
Inductive JsValue : Type :=
| JUndefined
| JNull
| JBool (b : bool)
| JNum (n : Z)
| JStr (s : string)
| JArr (xs : list JsValue)
| JObj (fields : list (string * JsValue)).

(** [ToBoolean]. *)
Definition truthy (v : JsValue) : bool :=
  match v with
  | JUndefined | JNull => false
  | JBool b => b
  | JNum n => negb (n =? 0)%Z
  | JStr s => negb (String.eqb s "")
  | JArr _ | JObj _ => true
  end.

(** [a || b] on values. *)
Definition or_else (a b : JsValue) : JsValue := if truthy a then a else b.

(** [s || d] on a possibly missing string: the empty string is falsy. *)
Definition str_or (s : option string) (d : string) : string :=
  match s with
  | Some x => if String.eqb x "" then d else x
  | None => d
  end.

Fixpoint assoc {V} (k : string) (kvs : list (string * V)) : option V :=
  match kvs with
  | [] => None
  | (k', v) :: rest => if String.eqb k k' then Some v else assoc k rest
  end.

(** [obj[k] = v]: overwrite in place, or append a new property. *)
Fixpoint assign {V} (k : string) (v : V) (kvs : list (string * V))
  : list (string * V) :=
  match kvs with
  | [] => [(k, v)]
  | (k', v') :: rest =>
      if String.eqb k k' then (k, v) :: rest else (k', v') :: assign k v rest
  end.

(** [{...base, ...extra}]. *)
Definition spread {V} (base extra : list (string * V)) : list (string * V) :=
  fold_left (fun acc kv => assign (fst kv) (snd kv) acc) extra base.

(** Property read [v.k].  [None] is the TypeError thrown on [null] and
    [undefined]; any other non-object has no own data property of the
    names the sources read. *)
Definition prop (v : JsValue) (k : string) : option JsValue :=
  match v with
  | JUndefined | JNull => None
  | JObj fields => Some (default JUndefined (assoc k fields))
  | _ => Some JUndefined
  end.

Definition num_to_string (n : JsNum) : string :=
  match n with
  | Some z => pretty z
  | None => "NaN"
  end.

(** [String(v)], as a template literal applies it. *)
Fixpoint to_string (v : JsValue) : string :=
  match v with
  | JUndefined => "undefined"
  | JNull => "null"
  | JBool true => "true"
  | JBool false => "false"
  | JNum n => pretty n
  | JStr s => s
  | JArr xs =>
      String.concat ","
        (map (fun x => match x with
                       | JUndefined | JNull => ""
                       | _ => to_string x
                       end) xs)
  | JObj _ => "[object Object]"
  end.

(** *** Strings *)

(** [s.includes(sub)]. *)
Fixpoint includes (sub s : string) : bool :=
  String.prefix sub s ||
  match s with
  | EmptyString => false
  | String _ rest => includes sub rest
  end.

(** *** White space

    A string holds the UTF-8 bytes of a text.  [trim] and [parseInt] strip
    the code points of WhiteSpace and LineTerminator, which are one to three
    bytes long. *)

Definition utf8 (bytes : list N) : string :=
  string_of_list_ascii (map ascii_of_N bytes).

(** U+0009 to U+000D, U+0020, U+00A0, U+1680, U+2000 to U+200A, U+2028,
    U+2029, U+202F, U+205F, U+3000 and U+FEFF. *)
Definition white_space : list string :=
  Eval cbv in
  map utf8
    [[9]; [10]; [11]; [12]; [13]; [32]; [194; 160]; [225; 154; 128];
     [226; 128; 128]; [226; 128; 129]; [226; 128; 130]; [226; 128; 131];
     [226; 128; 132]; [226; 128; 133]; [226; 128; 134]; [226; 128; 135];
     [226; 128; 136]; [226; 128; 137]; [226; 128; 138]; [226; 128; 168];
     [226; 128; 169]; [226; 128; 175]; [226; 129; 159]; [227; 128; 128];
     [239; 187; 191]]%N.

(** What is left of [s] after the prefix [p]. *)
Fixpoint strip_prefix (p s : string) : option string :=
  match p with
  | EmptyString => Some s
  | String a p' =>
      match s with
      | String b s' => if Ascii.eqb a b then strip_prefix p' s' else None
      | EmptyString => None
      end
  end.

(** The first of [pats] that [s] starts with, and what follows it. *)
Fixpoint leading_of (pats : list string) (s : string) : option (string * string) :=
  match pats with
  | [] => None
  | p :: more =>
      match strip_prefix p s with
      | Some r => Some (p, r)
      | None => leading_of more s
      end
  end.

(** A string cut into pieces: each white-space character is one piece, any
    other byte is a piece of its own. *)
Fixpoint pieces_go (fuel : nat) (s : string) : list string :=
  match fuel, s with
  | S n, String c rest =>
      match leading_of white_space s with
      | Some (p, r) => p :: pieces_go n r
      | None => String c "" :: pieces_go n rest
      end
  | _, _ => []
  end.

Definition pieces (s : string) : list string := pieces_go (String.length s) s.

Definition is_blank (piece : string) : bool := bool_decide (piece ∈ white_space).

Fixpoint drop_while {A} (f : A -> bool) (l : list A) : list A :=
  match l with
  | x :: rest => if f x then drop_while f rest else l
  | [] => []
  end.

(** [s.trimStart()]. *)
Definition drop_space (s : string) : string :=
  String.concat "" (drop_while is_blank (pieces s)).

(** [s.trim()]. *)
Definition trim (s : string) : string :=
  String.concat ""
    (reverse (drop_while is_blank (reverse (drop_while is_blank (pieces s))))).

(** [s.split('\n')]. *)
Fixpoint split_lines_go (cur : string) (s : string) : list string :=
  match s with
  | EmptyString => [String.rev cur]
  | String c rest =>
      if Ascii.eqb c "010"%char
      then String.rev cur :: split_lines_go "" rest
      else split_lines_go (String c cur) rest
  end.
Definition split_lines (s : string) : list string := split_lines_go "" s.

(** [s.indexOf(c)] for a one-character needle; [None] is [-1]. *)
Fixpoint index_of (c : ascii) (s : string) : option nat :=
  match s with
  | EmptyString => None
  | String c' rest =>
      if Ascii.eqb c c' then Some 0%nat else S <$> index_of c rest
  end.

Fixpoint take_str (n : nat) (s : string) : string :=
  match n, s with
  | S n', String c rest => String c (take_str n' rest)
  | _, _ => EmptyString
  end.

Fixpoint drop_str (n : nat) (s : string) : string :=
  match n, s with
  | S n', String _ rest => drop_str n' rest
  | _, _ => s
  end.

(** *** Code units

    [length] and [substring] count UTF-16 code units: a character of up to
    three bytes is one unit, a character of four bytes is two. *)

(** The bytes and the UTF-16 code units of the character that starts with
    the byte [c]: four bytes encode a pair of surrogates. *)
Definition width (c : ascii) : nat * nat :=
  let n := N_of_ascii c in
  if (n <? 192)%N then (1, 1)%nat
  else if (n <? 224)%N then (2, 1)%nat
  else if (n <? 240)%N then (3, 1)%nat
  else (4, 2)%nat.

Definition byte_at (i : nat) (s : string) : N :=
  match String.get i s with
  | Some c => N_of_ascii c
  | None => 0%N
  end.

(** The first half of the pair of surrogates that the four bytes at the
    start of [s] encode, as the three bytes of a lone surrogate. *)
Definition high_surrogate (s : string) : string :=
  let cp :=
    N.lor (N.shiftl (N.land (byte_at 0 s) 7) 18)
      (N.lor (N.shiftl (N.land (byte_at 1 s) 63) 12)
         (N.lor (N.shiftl (N.land (byte_at 2 s) 63) 6)
            (N.land (byte_at 3 s) 63))) in
  let hs := (55296 + N.shiftr (cp - 65536) 10)%N in
  utf8 [237%N; N.lor 128 (N.land (N.shiftr hs 6) 63); N.lor 128 (N.land hs 63)].

Fixpoint take_units_go (fuel n : nat) (s : string) : string :=
  match fuel, n, s with
  | S f, S _, String c _ =>
      let '(len, units) := width c in
      if (units <=? n)%nat
      then take_str len s +:+ take_units_go f (n - units) (drop_str len s)
      else high_surrogate s
  | _, _, _ => ""
  end.

(** [s.substring(0, n)]. *)
Definition take_units (n : nat) (s : string) : string :=
  take_units_go (String.length s) n s.

Fixpoint units_go (fuel : nat) (s : string) : nat :=
  match fuel, s with
  | S f, String c _ =>
      let '(len, units) := width c in (units + units_go f (drop_str len s))%nat
  | _, _ => 0%nat
  end.

(** [s.length]. *)
Definition units (s : string) : nat := units_go (String.length s) s.

(** *** [parseInt(s, 10)] *)

Definition digit (c : ascii) : option Z := Z.of_nat <$> Ascii.is_nat c.

Fixpoint digits_go (acc : option Z) (s : string) : option Z :=
  match s with
  | EmptyString => acc
  | String c rest =>
      match digit c with
      | Some d => digits_go (Some (10 * default 0%Z acc + d)%Z) rest
      | None => acc
      end
  end.

(** Leading blanks are skipped, one sign is accepted, the longest run of
    decimal digits is read; no digit at all gives NaN. *)
Definition parseInt (s : string) : JsNum :=
  match drop_space s with
  | String "-" rest => Z.opp <$> digits_go None rest
  | String "+" rest => digits_go None rest
  | t => digits_go None t
  end.

Definition mul (a : JsNum) (b : Z) : JsNum := (fun x => (x * b)%Z) <$> a.

(** *** [Buffer.from(s).toString('base64')] *)

Definition b64_alphabet : string :=
  "ABCDEFGHIJKLMNOPQRSTUVWXYZabcdefghijklmnopqrstuvwxyz0123456789+/".

Definition b64_char (n : N) : ascii :=
  default "="%char (String.get (N.to_nat n) b64_alphabet).

Fixpoint b64_go (bytes : list N) : string :=
  match bytes with
  | [] => ""
  | [a] =>
      String (b64_char (N.shiftr a 2))
        (String (b64_char (N.shiftl (N.land a 3) 4)) "==")
  | [a; b] =>
      String (b64_char (N.shiftr a 2))
        (String (b64_char (N.lor (N.shiftl (N.land a 3) 4) (N.shiftr b 4)))
           (String (b64_char (N.shiftl (N.land b 15) 2)) "="))
  | a :: b :: c :: rest =>
      String (b64_char (N.shiftr a 2))
        (String (b64_char (N.lor (N.shiftl (N.land a 3) 4) (N.shiftr b 4)))
           (String (b64_char (N.lor (N.shiftl (N.land b 15) 2) (N.shiftr c 6)))
              (String (b64_char (N.land c 63)) (b64_go rest))))
  end.

Definition base64 (s : string) : string :=
  b64_go (map N_of_ascii (list_ascii_of_string s)).

End Js.

Import Js.

(** ** The world the code runs in, and its monad *)

Module Runtime.

(** A JS [Error]: its message and the two properties [atlassianRequest]
    attaches to an HTTP failure. *)
Record JsError : Type := mkError {
  message : string;
  statusCode : option Z;
  body : option string;
}.

Definition Error (msg : string) : JsError := mkError msg None None.

(** What is written to the socket: [JSON.stringify] of a payload, or the
    bytes of a buffer. *)
Inductive Body : Type :=
| BJson (payload : JsValue)
| BRaw (bytes : string).

(** One [https.request(options, ...)] with what was written before
    [end()]. *)
Record Request : Type := mkRequest {
  rq_hostname : string;
  rq_path : string;
  rq_method : string;
  rq_headers : list (string * string);
  rq_body : option Body;
}.

(** A complete response.  [res_json] is what [JSON.parse(res_data)]
    returns, [None] when it throws. *)
Record Response : Type := mkResponse {
  res_status : Z;
  res_headers : gmap string string;
  res_data : string;
  res_json : option JsValue;
}.

(** The request's ['end'] of a response, or its ['error'] event. *)
Inductive Reply : Type :=
| Answer (res : Response)
| NetError (e : JsError).

Inductive FsNode : Type :=
| File (content : string)
| Dir.

Record AtlassianConfig : Type := {
  domain : string;
  email : string;
  token : string;
}.

(** The [get auth()] accessor of [config.atlassian]. *)
Definition auth (a : AtlassianConfig) : string :=
  base64 (email a +:+ ":" +:+ token a).

Record ScreenshotConfig : Type := {
  baseUrl : string;
  dir : string;
  width : JsNum;
  height : JsNum;
  scale : JsNum;
}.

Record AuthConfig : Type := {
  auth_email : string;
  auth_password : string;
  auth_provider : string;
}.

Record Config : Type := {
  atlassian : AtlassianConfig;
  screenshot : ScreenshotConfig;
  auth_section : AuthConfig;
}.

Inductive Event : Type :=
| Net (rq : Request)         (* a request sent *)
| Sleep (ms : JsNum)         (* setTimeout(resume, ms) *)
| Log (line : string)        (* console.log *)
| FsExists (path : string)   (* fs.existsSync *)
| FsRead (path : string)     (* fs.readFileSync *)
| EnvGet (key : string).     (* process.env[key] *)

Section World.
Context {B : Type}.

Record World : Type := mkWorld {
  remote : B;
  files : gmap string FsNode;
  process_env : gmap string string;
  cwd : string;
  _config : option Config;
  trace : list Event;
}.

(** A settled computation: fulfilled with a value, or rejected (an
    exception thrown). *)
Inductive Res (A : Type) : Type :=
| Ok (a : A)
| Throw (e : JsError).
Global Arguments Ok {A} a.
Global Arguments Throw {A} e.

Definition M (A : Type) : Type := World -> Res A * World.

Definition ret {A} (a : A) : M A := fun w => (Ok a, w).

Definition throw {A} (e : JsError) : M A := fun w => (Throw e, w).

Definition bind {A C} (m : M A) (k : A -> M C) : M C :=
  fun w =>
    match m w with
    | (Ok a, w') => k a w'
    | (Throw e, w') => (Throw e, w')
    end.

(** [try { m } catch (e) { h e }]. *)
Definition try_catch {A} (m : M A) (h : JsError -> M A) : M A :=
  fun w =>
    match m w with
    | (Ok a, w') => (Ok a, w')
    | (Throw e, w') => h e w'
    end.

Definition emit (ev : Event) : M unit :=
  fun w =>
    (Ok tt, mkWorld (remote w) (files w) (process_env w) (cwd w)
              (_config w) (trace w ++ [ev])).

Definition console_log (line : string) : M unit := emit (Log line).

(** [await new Promise(r => setTimeout(r, ms))]. *)
Definition sleep (ms : JsNum) : M unit := emit (Sleep ms).

Definition set_config (c : option Config) : M unit :=
  fun w =>
    (Ok tt, mkWorld (remote w) (files w) (process_env w) (cwd w) c
              (trace w)).

(** Read a component of the world. *)
Definition inspect {A} (f : World -> A) : M A := fun w => (Ok (f w), w).

(** A property read that throws a TypeError on [null]/[undefined]. *)
Definition get_prop (v : JsValue) (k : string) : M JsValue :=
  match prop v k with
  | Some x => ret x
  | None =>
      throw (Error ("Cannot read properties of " +:+ to_string v +:+
                    " (reading '" +:+ k +:+ "')"))
  end.

(** [for (const x of xs) { ... }], the variables the loop body updates
    threaded through as [acc]. *)
Definition for_of {A S} (step : S -> A -> M S) : list A -> S -> M S :=
  fix go (xs : list A) (acc : S) : M S :=
    match xs with
    | [] => ret acc
    | x :: rest => bind (step acc x) (go rest)
    end.

(** [if (delayMs > 0) await new Promise(r => setTimeout(r, delayMs))]. *)
Definition pace (delayMs : Z) : M unit :=
  if (0 <? delayMs)%Z then sleep (Some delayMs) else ret tt.

(** The network: a request is answered by the backend, which moves to a
    new state. *)
Section Network.
Context (respond : B -> Request -> Reply * B).

Definition https_request (rq : Request) : M Reply :=
  fun w =>
    let '(reply, b') := respond (remote w) rq in
    (Ok reply, mkWorld b' (files w) (process_env w) (cwd w)
                 (_config w) (trace w ++ [Net rq])).
End Network.
End World.

Global Arguments World : clear implicits.
Global Arguments M : clear implicits.

Module Import Notations.
Notation "'let*' x := m 'in' k" := (bind m (fun x => k))
  (at level 10, x pattern, m at level 100, k at level 200).
Notation "m ;; k" := (bind m (fun _ => k))
  (at level 100, k at level 200, right associativity).
End Notations.

End Runtime.

Import Runtime Runtime.Notations.

(** ** lib/config.mjs *)

Module Config.
Section Config.
Context {B : Type}.
Local Abbreviation M := (M B).

(** The body of the loop over the lines of the [.env] file. *)
Definition parse_line (env : gmap string string) (line : string)
  : gmap string string :=
  let trimmed := trim line in
  if String.eqb trimmed "" || String.prefix "#" trimmed then env
  else
    match index_of "="%char trimmed with
    | None => env
    | Some eqIdx =>
        let key := trim (take_str eqIdx trimmed) in
        let value := trim (drop_str (S eqIdx) trimmed) in
        <[key := value]> env
    end.

Definition parse_env (content : string) : gmap string string :=
  fold_left parse_line (split_lines content) ∅.

Definition existsSync (path : string) : M bool :=
  emit (FsExists path);;
  inspect (fun w => bool_decide (is_Some (files w !! path))).

Definition readFileSync (path : string) : M string :=
  emit (FsRead path);;
  let* node := inspect (fun w => files w !! path) in
  match node with
  | Some (File content) => ret content
  | Some Dir =>
      throw (Error "EISDIR: illegal operation on a directory, read")
  | None =>
      throw (Error ("ENOENT: no such file or directory, open '" +:+
                    path +:+ "'"))
  end.

(** [path.resolve(process.cwd(), '.env')]; the working directory is
    absolute and normalised. *)
Definition resolve_dotenv (cwd : string) : string :=
  if String.eqb cwd "/" then "/.env" else cwd +:+ "/.env".

(** [(key, fallback = '') => process.env[key] || env[key] || fallback]. *)
Definition get (env : gmap string string) (key fallback : string)
  : M string :=
  emit (EnvGet key);;
  inspect (fun w =>
             str_or (process_env w !! key) (str_or (env !! key) fallback)).

Definition loadConfig (configPath : option string) : M Config :=
  let* cached := inspect _config in
  match cached with
  | Some c => ret c
  | None =>
      let* here := inspect cwd in
      let envPath := str_or configPath (resolve_dotenv here) in
      let* present := existsSync envPath in
      let* env :=
        (if present
         then let* content := readFileSync envPath in
              ret (parse_env content)
         else ret ∅) in
      let* c_domain := get env "ATLASSIAN_DOMAIN" "" in
      let* c_email := get env "ATLASSIAN_EMAIL" "" in
      let* c_token := get env "ATLASSIAN_API_TOKEN" "" in
      let* c_baseUrl := get env "APP_BASE_URL" "" in
      let* c_dir := get env "SCREENSHOT_DIR" "./screenshots" in
      let* c_width := get env "SCREENSHOT_WIDTH" "1440" in
      let* c_height := get env "SCREENSHOT_HEIGHT" "900" in
      let* c_scale := get env "SCREENSHOT_SCALE" "2" in
      let* a_email := get env "AUTH_EMAIL" "" in
      let* a_password := get env "AUTH_PASSWORD" "" in
      let* a_provider := get env "AUTH_PROVIDER" "clerk" in
      let c :=
        {| atlassian :=
             {| domain := c_domain; email := c_email; token := c_token |};
           screenshot :=
             {| baseUrl := c_baseUrl; dir := c_dir;
                width := parseInt c_width; height := parseInt c_height;
                scale := parseInt c_scale |};
           auth_section :=
             {| auth_email := a_email; auth_password := a_password;
                auth_provider := a_provider |} |} in
      set_config (Some c);;
      ret c
  end.

Definition resetConfig : M unit := set_config None.

End Config.
End Config.

Import Config.

(** ** lib/atlassian-client.mjs *)

Module Client.

(** The [opts] argument: [{ domain, auth, headers, retries }].  The retry
    budget is a count. *)
Record Opts : Type := mkOpts {
  o_domain : option string;
  o_auth : option string;
  o_headers : list (string * string);
  retries : option nat;
}.

(** [{}]. *)
Definition no_opts : Opts := mkOpts None None [] None.

(** [{ ...opts, retries: n }]. *)
Definition with_retries (opts : Opts) (n : nat) : Opts :=
  mkOpts (o_domain opts) (o_auth opts) (o_headers opts) (Some n).

Definition is_2xx (status : Z) : bool :=
  (200 <=? status)%Z && (status <? 300)%Z.

(** [try { resolve(JSON.parse(data)) } catch { resolve(data) }]. *)
Definition parsed_or_raw (res : Response) : JsValue :=
  match res_json res with
  | Some v => v
  | None => JStr (res_data res)
  end.

Definition http_error (res : Response) : JsError :=
  mkError ("HTTP " +:+ pretty (res_status res) +:+ ": " +:+
           take_units 500 (res_data res))
          (Some (res_status res)) (Some (res_data res)).

Definition upload_error (res : Response) : JsError :=
  Error ("Upload failed: HTTP " +:+ pretty (res_status res) +:+ ": " +:+
         take_units 200 (res_data res)).

Definition json_headers (auth : string) (extra : list (string * string))
  : list (string * string) :=
  spread [("Authorization", "Basic " +:+ auth);
          ("Accept", "application/json");
          ("Content-Type", "application/json")] extra.

(** [if (body) req.write(JSON.stringify(body))]. *)
Definition written (body : option JsValue) : option Body :=
  match body with
  | Some v => if truthy v then Some (BJson v) else None
  | None => None
  end.

Definition crlf : string := String "013"%char (String "010"%char "").
Definition dquote : string := String "034"%char "".

Section Client.
Context {B : Type} (respond : B -> Request -> Reply * B).
Local Abbreviation M := (M B).

(** The synchronous prelude of [atlassianRequest]: the configuration is
    loaded and the target checked before the promise is created. *)
Definition resolve_target (opts : Opts) : M (string * string) :=
  let* config := loadConfig None in
  let domain := str_or (o_domain opts) (domain (atlassian config)) in
  let auth := str_or (o_auth opts) (auth (atlassian config)) in
  if String.eqb domain "" then
    throw (Error "ATLASSIAN_DOMAIN not set. Configure in .env or environment.")
  else if String.eqb auth "" || String.eqb auth "Og==" then
    throw (Error "ATLASSIAN_EMAIL and ATLASSIAN_API_TOKEN not set.")
  else ret (domain, auth).

Definition request_of (target : string * string) (method path : string)
  (body : option JsValue) (opts : Opts) : Request :=
  {| rq_hostname := fst target;
     rq_path := path;
     rq_method := method;
     rq_headers := json_headers (snd target) (o_headers opts);
     rq_body := written body |}.

(** [atlassianRequest] called with [opts.retries ?? 3 = maxRetries].
    The retry runs in a timer callback, where a throw of the prelude would
    not reach [reject]; the prelude of a retry sees the cached
    configuration and the same [opts.domain] and [opts.auth], so it passes
    whenever the first one did ([ClientSpec.retry_prelude_passes]). *)
Fixpoint atlassianRequest_with (maxRetries : nat) (method path : string)
  (body : option JsValue) (opts : Opts) : M JsValue :=
  let* target := resolve_target opts in
  let* reply := https_request respond (request_of target method path body opts) in
  match reply with
  | NetError e => throw e
  | Answer res =>
      if is_2xx (res_status res) then ret (parsed_or_raw res)
      else
        match (res_status res =? 429)%Z, maxRetries with
        | true, S budget =>
            let retryAfter :=
              parseInt (str_or (res_headers res !! "retry-after") "5") in
            console_log ("  Rate limited. Retrying in " +:+
                         num_to_string retryAfter +:+ "s... (" +:+
                         pretty maxRetries +:+ " retries left)");;
            sleep (mul retryAfter 1000);;
            atlassianRequest_with budget method path body
              (with_retries opts budget)
        | _, _ => throw (http_error res)
        end
  end.

Definition atlassianRequest (method path : string) (body : option JsValue)
  (opts : Opts) : M JsValue :=
  atlassianRequest_with (default 3%nat (retries opts)) method path body opts.

Definition multipart (boundary filename fileData : string) : string :=
  ("--" +:+ boundary +:+ crlf +:+
   "Content-Disposition: form-data; name=" +:+ dquote +:+ "file" +:+
   dquote +:+ "; filename=" +:+ dquote +:+ filename +:+ dquote +:+ crlf +:+
   "Content-Type: image/png" +:+ crlf +:+ crlf) +:+
  fileData +:+
  (crlf +:+ "--" +:+ boundary +:+ "--" +:+ crlf).

Definition upload_request (domain auth apiPath method boundary body : string)
  : Request :=
  {| rq_hostname := domain;
     rq_path := apiPath;
     rq_method := method;
     rq_headers :=
       [("Authorization", "Basic " +:+ auth);
        ("Content-Type", "multipart/form-data; boundary=" +:+ boundary);
        ("X-Atlassian-Token", "nocheck");
        ("Content-Length", pretty (String.length body))];
     rq_body := Some (BRaw body) |}.

(** [uploadAttachment]; [rnd] is the value drawn by
    [Math.random().toString(36).substr(2)]. *)
Definition uploadAttachment (rnd : string) (apiPath filepath filename : string)
  (opts : Opts) : M JsValue :=
  let* config := loadConfig None in
  let domain := str_or (o_domain opts) (domain (atlassian config)) in
  let auth := str_or (o_auth opts) (auth (atlassian config)) in
  let* fileData := readFileSync filepath in
  let boundary := "----FormBoundary" +:+ rnd in
  let body := multipart boundary filename fileData in
  let* reply :=
    https_request respond (upload_request domain auth apiPath "PUT" boundary body) in
  match reply with
  | NetError e => throw e
  | Answer res =>
      if is_2xx (res_status res) then ret (parsed_or_raw res)
      else if (res_status res =? 404)%Z || (res_status res =? 400)%Z then
        let* reply2 :=
          https_request respond
            (upload_request domain auth apiPath "POST" boundary body) in
        match reply2 with
        | NetError e => throw e
        | Answer res2 =>
            if is_2xx (res_status res2) then ret (parsed_or_raw res2)
            else throw (upload_error res2)
        end
      else throw (upload_error res)
  end.

End Client.
End Client.

Import Client.

(** ** lib/jira.mjs *)

Module Jira.

Definition API_V3 : string := "/rest/api/3".

Record ProjectOpts : Type := {
  po_type : option string;
  po_leadAccountId : option string;
  po_description : option string;
  po_template : option string;
}.

Record IssueOpts : Type := {
  io_fields : option (list (string * JsValue));
  io_priority : JsValue;
  io_labels : JsValue;
  io_components : JsValue;
  io_parentKey : JsValue;
  io_assigneeId : JsValue;
  io_storyPoints : JsValue;
}.

(** A node of the issue forest; an absent property is [JUndefined],
    [None] or the empty list of children. *)
Inductive IssueSpec : Type := mkIssue {
  itype : option string;
  summary : string;
  description : JsValue;
  priority : JsValue;
  labels : JsValue;
  components : JsValue;
  fields : option (list (string * JsValue));
  children : list IssueSpec;
}.

Definition project_payload (key name : string) (opts : ProjectOpts) : JsValue :=
  JObj [("key", JStr key);
        ("name", JStr name);
        ("projectTypeKey", JStr (str_or (po_type opts) "software"));
        ("leadAccountId",
         match po_leadAccountId opts with Some a => JStr a | None => JUndefined end);
        ("description", JStr (str_or (po_description opts) ""));
        ("projectTemplateKey",
         JStr (str_or (po_template opts)
                 "com.pyxis.greenhopper.jira:gh-simplified-scrum-classic"))].

(** [typeof description === 'string' ? { type: 'doc', ... } : description]. *)
Definition adf (description : JsValue) : JsValue :=
  match description with
  | JStr text =>
      JObj [("type", JStr "doc");
            ("version", JNum 1);
            ("content",
             JArr [JObj [("type", JStr "paragraph");
                         ("content",
                          JArr [JObj [("type", JStr "text");
                                      ("text", JStr text)]])]])]
  | other => other
  end.

(** [if (v) fields[k] = f(v)]. *)
Definition set_if (v : JsValue) (k : string) (f : JsValue -> JsValue)
  (fields : list (string * JsValue)) : list (string * JsValue) :=
  if truthy v then assign k (f v) fields else fields.

(** A result is a conflict when either signal is present. *)
Definition already_exists (e : JsError) : bool :=
  bool_decide (statusCode e = Some 409%Z) || includes "already exists" (message e).

Section Jira.
Context {B : Type} (respond : B -> Request -> Reply * B).
Local Abbreviation M := (M B).

Definition createProject (key name : string) (opts : ProjectOpts) : M JsValue :=
  console_log ("Creating JIRA project: " +:+ name +:+ " (" +:+ key +:+ ")");;
  try_catch
    (let* result :=
       atlassianRequest respond "POST" (API_V3 +:+ "/project")
         (Some (project_payload key name opts)) no_opts in
     let* rkey := get_prop result "key" in
     let* rid := get_prop result "id" in
     console_log ("  Project created: " +:+ to_string rkey +:+ " (ID: " +:+
                  to_string rid +:+ ")");;
     ret result)
    (fun e =>
       if already_exists e then
         console_log ("  Project " +:+ key +:+ " already exists, fetching...");;
         atlassianRequest respond "GET" (API_V3 +:+ "/project/" +:+ key)
           None no_opts
       else throw e).

Definition issue_fields (projectKey issueType summary : string)
  (description : JsValue) (opts : IssueOpts) : M (list (string * JsValue)) :=
  let f0 :=
    spread [("project", JObj [("key", JStr projectKey)]);
            ("issuetype", JObj [("name", JStr issueType)]);
            ("summary", JStr summary);
            ("description", adf description)]
           (default [] (io_fields opts)) in
  let f1 := set_if (io_priority opts) "priority" (fun p => JObj [("name", p)]) f0 in
  let f2 := set_if (io_labels opts) "labels" (fun l => l) f1 in
  let* f3 :=
    (if truthy (io_components opts) then
       match io_components opts with
       | JArr cs =>
           ret (assign "components"
                  (JArr (map (fun c => JObj [("name", c)]) cs)) f2)
       | _ => throw (Error "opts.components.map is not a function")
       end
     else ret f2) in
  let f4 := set_if (io_parentKey opts) "parent" (fun k => JObj [("key", k)]) f3 in
  let f5 := set_if (io_assigneeId opts) "assignee"
              (fun a => JObj [("accountId", a)]) f4 in
  ret (set_if (io_storyPoints opts) "story_points" (fun p => p) f5).

Definition createIssue (projectKey issueType summary : string)
  (description : JsValue) (opts : IssueOpts) : M JsValue :=
  let* fields := issue_fields projectKey issueType summary description opts in
  let* result :=
    atlassianRequest respond "POST" (API_V3 +:+ "/issue")
      (Some (JObj [("fields", JObj fields)])) no_opts in
  let* rkey := get_prop result "key" in
  console_log ("  Issue created: " +:+ to_string rkey +:+ " — " +:+ summary);;
  ret result.

(** The options [createIssueTree] passes for a node. *)
Definition node_opts (parentKey : JsValue) (node : IssueSpec) : IssueOpts :=
  {| io_fields := fields node;
     io_priority := priority node;
     io_labels := labels node;
     io_components := components node;
     io_parentKey := parentKey;
     io_assigneeId := JUndefined;
     io_storyPoints := JUndefined |}.

(** One turn of the inner loop over [issue.children]. *)
Definition create_child (projectKey : string) (result : JsValue) (delayMs : Z)
  (created : list JsValue) (child : IssueSpec) : M (list JsValue) :=
  try_catch
    (let* parentKey := get_prop result "key" in
     let* childResult :=
       createIssue projectKey (str_or (itype child) "Sub-task") (summary child)
         (or_else (description child) (JStr ""))
         (node_opts parentKey child) in
     let created := created ++ [childResult] in
     pace delayMs;;
     ret created)
    (fun e =>
       console_log ("    Error creating child " +:+ dquote +:+ summary child +:+
                    dquote +:+ ": " +:+ message e);;
       ret created).

(** One turn of the outer loop over [issues]. *)
Definition create_root (projectKey : string) (delayMs : Z)
  (created : list JsValue) (issue : IssueSpec) : M (list JsValue) :=
  try_catch
    (let* result :=
       createIssue projectKey (str_or (itype issue) "Story") (summary issue)
         (or_else (description issue) (JStr ""))
         (node_opts JUndefined issue) in
     let created := created ++ [result] in
     pace delayMs;;
     for_of (create_child projectKey result delayMs) (children issue) created)
    (fun e =>
       console_log ("  Error creating " +:+ dquote +:+ summary issue +:+
                    dquote +:+ ": " +:+ message e);;
       ret created).

Definition createIssueTree (projectKey : string) (issues : list IssueSpec)
  (delayMs : Z) : M (list JsValue) :=
  for_of (create_root projectKey delayMs) issues [].

End Jira.
End Jira.

(** ** lib/confluence.mjs *)

Module Confluence.

Definition API : string := "/wiki/rest/api".

(** A node of the page forest. *)
Inductive PageSpec : Type := mkPage {
  title : string;
  pbody : string;
  plabels : option (list string);
  pchildren : list PageSpec;
}.

Definition space_payload (key name description : string) : JsValue :=
  JObj [("key", JStr key);
        ("name", JStr name);
        ("description",
         JObj [("plain", JObj [("value", JStr description);
                               ("representation", JStr "plain")])])].

Definition page_payload (spaceKey title body : string) (parentId : JsValue)
  : JsValue :=
  let base :=
    [("type", JStr "page");
     ("title", JStr title);
     ("space", JObj [("key", JStr spaceKey)]);
     ("body", JObj [("storage", JObj [("value", JStr body);
                                      ("representation", JStr "storage")])])] in
  JObj (if truthy parentId
        then assign "ancestors" (JArr [JObj [("id", parentId)]]) base
        else base).

Definition label_payload (labels : list string) : JsValue :=
  JArr (map (fun l => JObj [("prefix", JStr "global"); ("name", JStr l)]) labels).

(** A default parameter [parentId = null] replaces [undefined] only. *)
Definition or_null (v : JsValue) : JsValue :=
  match v with JUndefined => JNull | _ => v end.

Section Confluence.
Context {B : Type} (respond : B -> Request -> Reply * B).
Local Abbreviation M := (M B).

Definition createSpace (key name description : string) : M JsValue :=
  console_log ("Creating space: " +:+ name +:+ " (" +:+ key +:+ ")");;
  try_catch
    (let* result :=
       atlassianRequest respond "POST" (API +:+ "/space")
         (Some (space_payload key name description)) no_opts in
     let* homepage := get_prop result "homepage" in
     let hid := default JUndefined (prop homepage "id") in
     console_log ("  Space created. Homepage ID: " +:+
                  to_string (or_else hid (JStr "N/A")));;
     ret result)
    (fun e =>
       if includes "already exists" (message e)
          || bool_decide (statusCode e = Some 409%Z) then
         console_log ("  Space " +:+ key +:+ " already exists, fetching...");;
         atlassianRequest respond "GET"
           (API +:+ "/space/" +:+ key +:+ "?expand=homepage") None no_opts
       else throw e).

Definition createPage (spaceKey title body : string) (parentId : JsValue)
  (labels : list string) : M JsValue :=
  let parentId := or_null parentId in
  console_log ("  Creating page: " +:+ title +:+
               (if truthy parentId
                then " (under " +:+ to_string parentId +:+ ")" else ""));;
  let* result :=
    atlassianRequest respond "POST" (API +:+ "/content")
      (Some (page_payload spaceKey title body parentId)) no_opts in
  let* rid := get_prop result "id" in
  console_log ("    Page created: ID=" +:+ to_string rid);;
  (match labels with
   | [] => ret tt
   | _ =>
       try_catch
         (let* rid := get_prop result "id" in
          atlassianRequest respond "POST"
            (API +:+ "/content/" +:+ to_string rid +:+ "/label")
            (Some (label_payload labels)) no_opts;;
          ret tt)
         (fun _ => ret tt)
   end);;
  ret result.

(** One turn of the loop of [buildPageTree], which recurses into the
    children of the page it created. *)
Fixpoint build_page (spaceKey : string) (delayMs : Z) (parentId : JsValue)
  (page : PageSpec) {struct page} : M unit :=
  match page with
  | mkPage p_title p_body p_labels p_children =>
      try_catch
        (let* created :=
           createPage spaceKey p_title p_body parentId (default [] p_labels) in
         pace delayMs;;
         match p_children with
         | [] => ret tt
         | _ =>
             let* cid := get_prop created "id" in
             for_of (fun _ child => build_page spaceKey delayMs cid child)
               p_children tt
         end)
        (fun e =>
           console_log ("    Error creating " +:+ dquote +:+ p_title +:+
                        dquote +:+ ": " +:+ message e))
  end.

Definition buildPageTree (spaceKey : string) (parentId : JsValue)
  (pages : list PageSpec) (delayMs : Z) : M unit :=
  for_of (fun _ page => build_page spaceKey delayMs parentId page) pages tt.

End Confluence.
End Confluence.

(** ** Ghost instrumentation of the two provisioners

    The provisioners do not name the node an outcome belongs to, so the
    walk is repeated here with a ghost log: one [Attempt] per node whose
    creation was tried, addressed by its position in the forest (the list
    of child indices from a root).  [Provisioning.issue_audit_erasure] and
    [Provisioning.page_audit_erasure] show that the instrumented walk is
    the provisioner itself plus the log. *)

Module Audit.
Import Jira Confluence.

Record Attempt : Type := mkAttempt {
  at_path : list nat;
  at_key : string;
  at_outcome : Res JsValue;
}.

Definition failed (a : Attempt) : Prop := exists e, at_outcome a = Throw e.
Definition created_as (v : JsValue) (a : Attempt) : Prop := at_outcome a = Ok v.

(** The values of the successful attempts, in log order. *)
Fixpoint successes (log : list Attempt) : list JsValue :=
  match log with
  | [] => []
  | a :: rest =>
      match at_outcome a with
      | Ok v => v :: successes rest
      | Throw _ => successes rest
      end
  end.

(** Pre-order enumeration of the positions and keys of a forest whose
    roots are numbered from [i] under the position [pre]. *)
Fixpoint issue_preorder_node (pre : list nat) (i : nat) (n : IssueSpec)
  : list (list nat * string) :=
  match n with
  | mkIssue _ s _ _ _ _ _ cs =>
      (pre ++ [i], s) ::
      (fix go (j : nat) (xs : list IssueSpec) : list (list nat * string) :=
         match xs with
         | [] => []
         | x :: rest => issue_preorder_node (pre ++ [i]) j x ++ go (S j) rest
         end) 0%nat cs
  end.

Fixpoint issue_preorder (pre : list nat) (i : nat) (xs : list IssueSpec)
  : list (list nat * string) :=
  match xs with
  | [] => []
  | x :: rest => issue_preorder_node pre i x ++ issue_preorder pre (S i) rest
  end.

Fixpoint page_preorder_node (pre : list nat) (i : nat) (n : PageSpec)
  : list (list nat * string) :=
  match n with
  | mkPage t _ _ cs =>
      (pre ++ [i], t) ::
      (fix go (j : nat) (xs : list PageSpec) : list (list nat * string) :=
         match xs with
         | [] => []
         | x :: rest => page_preorder_node (pre ++ [i]) j x ++ go (S j) rest
         end) 0%nat cs
  end.

Fixpoint page_preorder (pre : list nat) (i : nat) (xs : list PageSpec)
  : list (list nat * string) :=
  match xs with
  | [] => []
  | x :: rest => page_preorder_node pre i x ++ page_preorder pre (S i) rest
  end.

(** [descends p' p]: position [p'] lies strictly below position [p]. *)
Definition descends (p' p : list nat) : Prop :=
  exists j below, p' = p ++ j :: below.

(** The shape of a log: siblings under [pre] numbered from [i] are tried
    in turn; a failed node contributes its own entry only, a created one
    its entry followed by the log of its children. *)
Inductive walk : list nat -> nat -> list Attempt -> Prop :=
| walk_done pre i : walk pre i []
| walk_failed pre i key e rest :
    walk pre (S i) rest ->
    walk pre i (mkAttempt (pre ++ [i]) key (Throw e) :: rest)
| walk_created pre i key v sub rest :
    walk (pre ++ [i]) 0 sub ->
    walk pre (S i) rest ->
    walk pre i (mkAttempt (pre ++ [i]) key (Ok v) :: sub ++ rest).

Definition entry (a : Attempt) : list nat * string := (at_path a, at_key a).

(** No entry lies below a failed node, and an entry below the roots comes
    after the entry of its parent, which was created. *)
Definition parent_gated (log : list Attempt) : Prop :=
  (forall a d, a ∈ log -> d ∈ log -> failed a ->
               ~ descends (at_path d) (at_path a)) /\
  (forall before d after parent j,
     log = before ++ d :: after -> at_path d = parent ++ [j] -> parent <> [] ->
     exists p v, p ∈ before /\ at_path p = parent /\ at_outcome p = Ok v).

(** A failed attempt is reported by a console line that quotes the key of
    the node and ends in the message of the error. *)
Definition reported (evs : list Event) (a : Attempt) : Prop :=
  match at_outcome a with
  | Throw e =>
      exists lead,
        Log (lead +:+ dquote +:+ at_key a +:+ dquote +:+ ": " +:+ message e) ∈ evs
  | Ok _ => True
  end.

Section Audit.
Context {B : Type} (respond : B -> Request -> Reply * B).
Local Abbreviation M := (M B).

(** Run [m] to its settlement and hand the outcome over as a value. *)
Definition settle {A} (m : M A) : M (Res A) :=
  fun w => let '(r, w') := m w in (Ok r, w').

(** A loop over siblings numbered from [i], the logs concatenated. *)
Definition for_indexed {A} (step : nat -> A -> M (list Attempt))
  : nat -> list A -> M (list Attempt) :=
  fix go (i : nat) (xs : list A) : M (list Attempt) :=
    match xs with
    | [] => ret []
    | x :: rest =>
        let* here := step i x in
        let* more := go (S i) rest in
        ret (here ++ more)
    end.

Definition audit_child (projectKey : string) (result : JsValue) (delayMs : Z)
  (pre : list nat) (i : nat) (child : IssueSpec) : M (list Attempt) :=
  let* r :=
    settle
      (let* parentKey := get_prop result "key" in
       createIssue respond projectKey (str_or (itype child) "Sub-task")
         (summary child) (or_else (description child) (JStr ""))
         (node_opts parentKey child)) in
  match r with
  | Ok childResult =>
      pace delayMs;;
      ret [mkAttempt (pre ++ [i]) (summary child) (Ok childResult)]
  | Throw e =>
      console_log ("    Error creating child " +:+ dquote +:+ summary child +:+
                   dquote +:+ ": " +:+ message e);;
      ret [mkAttempt (pre ++ [i]) (summary child) (Throw e)]
  end.

Definition audit_root (projectKey : string) (delayMs : Z) (pre : list nat)
  (i : nat) (issue : IssueSpec) : M (list Attempt) :=
  let* r :=
    settle
      (createIssue respond projectKey (str_or (itype issue) "Story")
         (summary issue) (or_else (description issue) (JStr ""))
         (node_opts JUndefined issue)) in
  match r with
  | Ok result =>
      pace delayMs;;
      let* sub :=
        for_indexed (audit_child projectKey result delayMs (pre ++ [i]))
          0%nat (children issue) in
      ret (mkAttempt (pre ++ [i]) (summary issue) (Ok result) :: sub)
  | Throw e =>
      console_log ("  Error creating " +:+ dquote +:+ summary issue +:+
                   dquote +:+ ": " +:+ message e);;
      ret [mkAttempt (pre ++ [i]) (summary issue) (Throw e)]
  end.

Definition createIssueTree_audit (projectKey : string)
  (issues : list IssueSpec) (delayMs : Z) : M (list Attempt) :=
  for_indexed (audit_root projectKey delayMs []) 0%nat issues.

Fixpoint audit_page (spaceKey : string) (delayMs : Z) (parentId : JsValue)
  (pre : list nat) (i : nat) (page : PageSpec) {struct page}
  : M (list Attempt) :=
  match page with
  | mkPage p_title p_body p_labels p_children =>
      let* r :=
        settle (createPage respond spaceKey p_title p_body parentId
                  (default [] p_labels)) in
      match r with
      | Ok created =>
          pace delayMs;;
          let* sub :=
            match p_children with
            | [] => ret []
            | _ =>
                let* cid := get_prop created "id" in
                for_indexed
                  (fun j child =>
                     audit_page spaceKey delayMs cid (pre ++ [i]) j child)
                  0%nat p_children
            end in
          ret (mkAttempt (pre ++ [i]) p_title (Ok created) :: sub)
      | Throw e =>
          console_log ("    Error creating " +:+ dquote +:+ p_title +:+
                       dquote +:+ ": " +:+ message e);;
          ret [mkAttempt (pre ++ [i]) p_title (Throw e)]
      end
  end.

Definition buildPageTree_audit (spaceKey : string) (parentId : JsValue)
  (pages : list PageSpec) (delayMs : Z) : M (list Attempt) :=
  for_indexed (audit_page spaceKey delayMs parentId []) 0%nat pages.

End Audit.
End Audit.

(** ** Observations on traces, and the backends used in examples *)

Module Observe.

Definition net_calls (tr : list Event) : list Request :=
  omap (fun ev => match ev with Net rq => Some rq | _ => None end) tr.

Definition sleeps (tr : list Event) : list JsNum :=
  omap (fun ev => match ev with Sleep ms => Some ms | _ => None end) tr.

Definition logs (tr : list Event) : list string :=
  omap (fun ev => match ev with Log l => Some l | _ => None end) tr.

(** Events that stay on the machine: reads of files and environment. *)
Definition is_local (ev : Event) : Prop :=
  match ev with
  | FsExists _ | FsRead _ | EnvGet _ => True
  | _ => False
  end.

Section Backend.
Context {B : Type} (respond : B -> Request -> Reply * B).

(** [throttled k b rq b']: from state [b] the backend answers [k]
    submissions of [rq] in a row with status 429, ending in [b']. *)
Inductive throttled : nat -> B -> Request -> B -> Prop :=
| throttled_O b rq : throttled 0 b rq b
| throttled_S k b rq res b1 b2 :
    respond b rq = (Answer res, b1) ->
    res_status res = 429%Z ->
    throttled k b1 rq b2 ->
    throttled (S k) b rq b2.

(** A backend that answers every request with status 409. *)
Definition refuses_all : Prop :=
  forall b rq, exists res b',
    respond b rq = (Answer res, b') /\ res_status res = 409%Z.
End Backend.

(** The pure part of the target check of [atlassianRequest]. *)
Definition effective_domain (opts : Opts) (c : Config) : string :=
  str_or (o_domain opts) (domain (atlassian c)).
Definition effective_auth (opts : Opts) (c : Config) : string :=
  str_or (o_auth opts) (auth (atlassian c)).
Definition misconfigured (opts : Opts) (c : Config) : Prop :=
  effective_domain opts c = "" \/
  effective_auth opts c = "" \/ effective_auth opts c = "Og==".

(** The two guards of [atlassianRequest] on a loaded configuration. *)
Definition check_target (opts : Opts) (c : Config) : Res (string * string) :=
  if String.eqb (effective_domain opts c) "" then
    Throw (Error "ATLASSIAN_DOMAIN not set. Configure in .env or environment.")
  else if String.eqb (effective_auth opts c) ""
          || String.eqb (effective_auth opts c) "Og==" then
    Throw (Error "ATLASSIAN_EMAIL and ATLASSIAN_API_TOKEN not set.")
  else Ok (effective_domain opts c, effective_auth opts c).

Definition is_config_error (e : JsError) : Prop :=
  e = Error "ATLASSIAN_DOMAIN not set. Configure in .env or environment." \/
  e = Error "ATLASSIAN_EMAIL and ATLASSIAN_API_TOKEN not set.".

(** The variables [loadConfig] reads through [get], in order. *)
Definition config_keys : list string :=
  ["ATLASSIAN_DOMAIN"; "ATLASSIAN_EMAIL"; "ATLASSIAN_API_TOKEN";
   "APP_BASE_URL"; "SCREENSHOT_DIR"; "SCREENSHOT_WIDTH"; "SCREENSHOT_HEIGHT";
   "SCREENSHOT_SCALE"; "AUTH_EMAIL"; "AUTH_PASSWORD"; "AUTH_PROVIDER"].

Section Frames.
Context {B : Type}.

(** The world with more events traced. *)
Definition record (w : World B) (evs : list Event) : World B :=
  mkWorld (remote w) (files w) (process_env w) (cwd w) (_config w)
    (trace w ++ evs).

(** A computation that keeps off the network and the timers: the backend
    is left alone and only reads are traced. *)
Definition offline {A} (m : M B A) : Prop :=
  forall w r w1, m w = (r, w1) ->
    remote w1 = remote w /\ files w1 = files w /\
    process_env w1 = process_env w /\ cwd w1 = cwd w /\
    exists evs, trace w1 = trace w ++ evs /\ Forall is_local evs.

(** A computation whose trace only grows, by events that satisfy [P]. *)
Definition emits {A} (P : Event -> Prop) (m : M B A) : Prop :=
  forall w r w1, m w = (r, w1) ->
    exists evs, trace w1 = trace w ++ evs /\ Forall P evs.

End Frames.

Section Attempt.
Context {B : Type} (respond : B -> Request -> Reply * B).

(** One attempt of [atlassianRequest] once the prelude has passed: the
    request is sent, and the reply decides. *)
Definition after_reply (maxRetries : nat) (method path : string)
  (body : option JsValue) (opts : Opts) (reply : Reply) : M B JsValue :=
  match reply with
  | NetError e => throw e
  | Answer res =>
      if is_2xx (res_status res) then ret (parsed_or_raw res)
      else
        match (res_status res =? 429)%Z, maxRetries with
        | true, S budget =>
            let retryAfter :=
              parseInt (str_or (res_headers res !! "retry-after") "5") in
            console_log ("  Rate limited. Retrying in " +:+
                         num_to_string retryAfter +:+ "s... (" +:+
                         pretty maxRetries +:+ " retries left)");;
            sleep (mul retryAfter 1000);;
            atlassianRequest_with respond budget method path body
              (with_retries opts budget)
        | _, _ => throw (http_error res)
        end
  end.

(** The wait before the retry, as [setTimeout] receives it. *)
Definition retry_delay (res : Response) : JsNum :=
  mul (parseInt (str_or (res_headers res !! "retry-after") "5")) 1000.

Definition retry_notice (budget : nat) (res : Response) : string :=
  "  Rate limited. Retrying in " +:+
  num_to_string (parseInt (str_or (res_headers res !! "retry-after") "5")) +:+
  "s... (" +:+ pretty budget +:+ " retries left)".

End Attempt.

(** What a call puts on the wire goes to its own method and path. *)
Definition sends (method path : string) (ev : Event) : Prop :=
  match ev with
  | Net rq => rq_method rq = method /\ rq_path rq = path
  | _ => True
  end.

(** What the [.env] file at [path] defines, and the value [loadConfig]
    settles on for [key]: the process environment first, the file next. *)
Definition dotenv {B} (w : World B) (path : string) : gmap string string :=
  match files w !! path with
  | Some (File content) => parse_env content
  | _ => ∅
  end.

Definition setting {B} (w : World B) (path key fallback : string) : string :=
  str_or (process_env w !! key) (str_or (dotenv w path !! key) fallback).

(** The configuration a load from scratch arrives at. *)
Definition loaded_config {B} (w : World B) (envPath : string) : Config :=
  {| atlassian :=
       {| domain := setting w envPath "ATLASSIAN_DOMAIN" "";
          email := setting w envPath "ATLASSIAN_EMAIL" "";
          token := setting w envPath "ATLASSIAN_API_TOKEN" "" |};
     screenshot :=
       {| baseUrl := setting w envPath "APP_BASE_URL" "";
          dir := setting w envPath "SCREENSHOT_DIR" "./screenshots";
          width := parseInt (setting w envPath "SCREENSHOT_WIDTH" "1440");
          height := parseInt (setting w envPath "SCREENSHOT_HEIGHT" "900");
          scale := parseInt (setting w envPath "SCREENSHOT_SCALE" "2") |};
     auth_section :=
       {| auth_email := setting w envPath "AUTH_EMAIL" "";
          auth_password := setting w envPath "AUTH_PASSWORD" "";
          auth_provider := setting w envPath "AUTH_PROVIDER" "clerk" |} |}.

(** [loadConfig q] run at [w] without a cached value: the file is probed
    and read, every variable is looked up, and the result is stored. *)
Definition fresh_load {B} (w : World B) (q : option string) (r : Res Config)
  (w1 : World B) : Prop :=
  let envPath := str_or q (resolve_dotenv (cwd w)) in
  match files w !! envPath with
  | Some Dir =>
      r = Throw (Error "EISDIR: illegal operation on a directory, read") /\
      _config w1 = None /\
      trace w1 = trace w ++ [FsExists envPath; FsRead envPath]
  | node =>
      r = Ok (loaded_config w envPath) /\
      _config w1 = Some (loaded_config w envPath) /\
      trace w1 = trace w ++ FsExists envPath ::
                   (if node is Some _ then [FsRead envPath] else []) ++
                   map EnvGet config_keys
  end.

(** The configuration [atlassianRequest] would load at [w] fails one of
    its guards. *)
Definition misconfigured_at {B} (opts : Opts) (w : World B) : Prop :=
  exists c, fst (loadConfig None w) = Ok c /\ misconfigured opts c.

(** What a step of a run that cannot start leaves behind: the same
    configuration [c] ahead, the backend as it was, nothing sent, no timer
    set, and the lines [ls] printed. *)
Definition quiet_step {B} (c : Config) (w w1 : World B) (ls : list string) : Prop :=
  fst (loadConfig None w1) = Ok c /\ remote w1 = remote w /\
  exists evs, trace w1 = trace w ++ evs /\
              net_calls evs = [] /\ sleeps evs = [] /\ logs evs = ls.

End Observe.

Import Observe Audit.

Module Fixtures.
Import Jira Confluence.

(** A backend that plays back a script of replies, whatever is asked. *)
Definition scripted (script : list Reply) (rq : Request) : Reply * list Reply :=
  match script with
  | r :: rest => (r, rest)
  | [] => (NetError (Error "socket hang up"), [])
  end.

Definition reply (status : Z) (data : string) (json : option JsValue) : Reply :=
  Answer (mkResponse status ∅ data json).

Definition throttle (hint : option string) : Reply :=
  Answer (mkResponse 429
            (match hint with Some h => {[ "retry-after" := h ]} | None => ∅ end)
            "slow down" None).

Definition summary_of (rq : Request) : option string :=
  match rq_body rq with
  | Some (BJson v) =>
      match prop v "fields" ≫= (fun f => prop f "summary") with
      | Some (JStr s) => Some s
      | _ => None
      end
  | _ => None
  end.

Definition minted (n : nat) : JsValue :=
  JObj [("id", JStr (pretty (10000 + Z.of_nat n)%Z));
        ("key", JStr ("ACME-" +:+ pretty n))].

(** An issue tracker that refuses a summary it already holds. *)
Definition strict_tracker (store : list string) (rq : Request)
  : Reply * list string :=
  match summary_of rq with
  | Some s =>
      if bool_decide (s ∈ store)
      then (reply 409 "an issue with this summary already exists" None, store)
      else (reply 201 "created" (Some (minted (S (length store)))), store ++ [s])
  | None => (reply 400 "bad request" None, store)
  end.

(** An issue tracker that mints a new issue for every create. *)
Definition lenient_tracker (store : list string) (rq : Request)
  : Reply * list string :=
  match summary_of rq with
  | Some s => (reply 201 "created" (Some (minted (S (length store)))), store ++ [s])
  | None => (reply 400 "bad request" None, store)
  end.

Definition creds : gmap string string :=
  {[ "ATLASSIAN_DOMAIN" := "acme.atlassian.net";
     "ATLASSIAN_EMAIL" := "me@x.io";
     "ATLASSIAN_API_TOKEN" := "tok" ]}.

(** A fresh process: nothing cached, nothing traced, no [.env] file. *)
Definition boot {B} (b : B) (env : gmap string string) : World B :=
  mkWorld b ∅ env "/srv/app" None [].

Definition leaf (s : string) : IssueSpec :=
  mkIssue None s JUndefined JUndefined JUndefined JUndefined None [].

Definition epic (s : string) (cs : list IssueSpec) : IssueSpec :=
  mkIssue (Some "Epic") s (JStr "about") JUndefined JUndefined JUndefined None cs.

Definition page (t : string) (cs : list PageSpec) : PageSpec :=
  mkPage t "<p>text</p>" None cs.

(** The target the credentials above resolve to, and a read request. *)
Definition acme : string * string := ("acme.atlassian.net", "bWVAeC5pbzp0b2s=").

Definition whoami : Request :=
  request_of acme "GET" "/rest/api/3/myself" None no_opts.

(** A process whose working directory holds a screenshot to upload. *)
Definition with_file {B} (b : B) (path content : string) : World B :=
  mkWorld b {[ path := File content ]} creds "/srv/app" None [].

(** The configuration those credentials load to. *)
Definition acme_config : Config := loaded_config (boot tt creds) "/srv/app/.env".

(** A backend without state that refuses everything with 409. *)
Definition taken (b : unit) (rq : Request) : Reply * unit :=
  (reply 409 "already exists" None, b).

End Fixtures.

(** ** Three sentences of the specification, as they are stated *)

Module Stated.
Import Jira.
Section Stated.
Context {B : Type} (respond : B -> Request -> Reply * B).

(** "A completed provisioning run returns a report enumerating one
    outcome per attempted node": the list returned has an entry for every
    attempt. *)
Definition one_outcome_per_attempt (projectKey : string)
  (issues : list IssueSpec) (delayMs : Z) (w : World B) : Prop :=
  exists log report,
    fst (createIssueTree_audit respond projectKey issues delayMs w) = Ok log /\
    fst (createIssueTree respond projectKey issues delayMs w) = Ok report /\
    length report = length log.

Definition remote_ids (vs : list JsValue) : list (option JsValue) :=
  (fun v => prop v "id") <$> vs.

(** "Running the provisioner a second time on the same forest yields, for
    every node, a Created result with the same remote identifier as the
    first run." *)
Definition rerun_same_ids (projectKey : string) (issues : list IssueSpec)
  (delayMs : Z) (w : World B) : Prop :=
  exists first second,
    fst (createIssueTree respond projectKey issues delayMs w) = Ok first /\
    fst (createIssueTree respond projectKey issues delayMs
           (snd (createIssueTree respond projectKey issues delayMs w)))
      = Ok second /\
    length second = length (issue_preorder [] 0 issues) /\
    remote_ids second = remote_ids first.

(** "This error is not caught by the provisioner and terminates the
    run." *)
Definition config_error_ends_run (projectKey : string)
  (issues : list IssueSpec) (delayMs : Z) (w : World B) : Prop :=
  exists e,
    fst (createIssueTree respond projectKey issues delayMs w) = Throw e /\
    is_config_error e.

End Stated.
End Stated.

(** ** More of the JavaScript runtime: indexing, [+ 1], URI encoding *)

Module JsMore.




(** [n + 1] on a double that holds the integer [n]: exact up to [2^53];
    beyond, where only every second integer (then every fourth, ...) is a
    double, the sum is rounded to the nearest double, ties to the even
    mantissa. *)
Definition add_one (n : Z) : Z :=
  if (Z.abs (n + 1) <=? 2 ^ 53)%Z then (n + 1)%Z
  else if (Z.abs n <? 2 ^ 54)%Z then (if (n mod 4 =? 0)%Z then n else n + 2)%Z
  else n.



(** *** [encodeURIComponent], on strings of UTF-8 bytes *)





End JsMore.

(** ** lib/formatters.mjs, the two macros the screenshot page uses *)

Module Formatters.



End Formatters.

(** ** lib/confluence.mjs, reading and updating pages *)

Module ConfluencePages.
Import JsMore Confluence.




Section ConfluencePages.
Context {B : Type} (respond : B -> Request -> Reply * B).
Local Abbreviation M := (M B).






End ConfluencePages.
End ConfluencePages.

(** ** lib/screenshots.mjs, the upload of a gallery *)

Module Screenshots.
Import JsMore Confluence ConfluencePages Formatters.





Section Screenshots.
Context {B : Type} (respond : B -> Request -> Reply * B).
Local Abbreviation M := (M B).



End Screenshots.
End Screenshots.

(** ** How one attempt ends, and what a call leaves alone *)

Module Outcome.

(** The three ways the callbacks of [atlassianRequest] settle the promise
    without a retry: ['error'] rejects with the transport error, a 2xx
    resolves with the parsed (or raw) body, anything else rejects with the
    HTTP error. *)
Definition settled (reply : Reply) : Res JsValue :=
  match reply with
  | NetError e => Throw e
  | Answer res =>
      if is_2xx (res_status res) then Ok (parsed_or_raw res)
      else Throw (http_error res)
  end.

(** [res.statusCode === 429]. *)
Definition throttles (reply : Reply) : bool :=
  match reply with
  | Answer res => (res_status res =? 429)%Z
  | NetError _ => false
  end.

Section Outcome.
Context {B : Type}.

(** A backend that never answers 429. *)
Definition never_throttles (respond : B -> Request -> Reply * B) : Prop :=
  forall b rq, throttles (fst (respond b rq)) = false.

(** The machine is as it was: files, environment, working directory and
    the cached configuration. *)
Definition untouched (w w' : World B) : Prop :=
  files w' = files w /\ process_env w' = process_env w /\
  cwd w' = cwd w /\ _config w' = _config w.

(** The world once [rq] has been sent from [w0] and answered. *)
Definition answered (respond : B -> Request -> Reply * B) (w0 : World B)
  (rq : Request) : World B :=
  mkWorld (snd (respond (remote w0) rq)) (files w0) (process_env w0) (cwd w0)
    (_config w0) (trace w0 ++ [Net rq]).

(** What a call puts on the wire has its method and path and carries the
    body it was given. *)
Definition carries (method path : string) (body : option JsValue)
  (ev : Event) : Prop :=
  match ev with
  | Net rq =>
      rq_method rq = method /\ rq_path rq = path /\ rq_body rq = written body
  | _ => True
  end.

(** The timers a run sets when it paces [k] creations. *)
Definition pacing (delayMs : Z) (k : nat) : list JsNum :=
  if (0 <? delayMs)%Z then replicate k (Some delayMs) else [].

(** An event that sets no timer. *)
Definition no_timer (ev : Event) : Prop :=
  match ev with
  | Sleep _ => False
  | _ => True
  end.

End Outcome.
End Outcome.

(** ** The issue payload, read property by property *)

Module Payload.
Import Jira.

(** The object literal [createIssue] starts from. *)
Definition base_fields (projectKey issueType summary : string)
  (description : JsValue) : list (string * JsValue) :=
  [("project", JObj [("key", JStr projectKey)]);
   ("issuetype", JObj [("name", JStr issueType)]);
   ("summary", JStr summary);
   ("description", adf description)].

(** The assignments the six [if (opts.x) payload.fields.y = ...] make, in
    the order of the source. *)
Definition explicit_fields (opts : IssueOpts) : list (string * JsValue) :=
  (if truthy (io_priority opts)
   then [("priority", JObj [("name", io_priority opts)])] else []) ++
  (if truthy (io_labels opts) then [("labels", io_labels opts)] else []) ++
  (if truthy (io_components opts)
   then match io_components opts with
        | JArr cs =>
            [("components", JArr (map (fun c => JObj [("name", c)]) cs))]
        | _ => []
        end
   else []) ++
  (if truthy (io_parentKey opts)
   then [("parent", JObj [("key", io_parentKey opts)])] else []) ++
  (if truthy (io_assigneeId opts)
   then [("assignee", JObj [("accountId", io_assigneeId opts)])] else []) ++
  (if truthy (io_storyPoints opts)
   then [("story_points", io_storyPoints opts)] else []).

(** The first of three lookups that finds the property. *)
Definition first_found (a b c : option JsValue) : option JsValue :=
  match a, b with
  | Some v, _ => Some v
  | None, Some v => Some v
  | None, None => c
  end.

(** The request of a child names the key [pk] read off its parent's
    result. *)
Definition names_parent (pk : JsValue) (own : option (list (string * JsValue)))
  (ev : Event) : Prop :=
  match ev with
  | Net rq =>
      exists fs,
        rq_body rq = Some (BJson (JObj [("fields", JObj fs)])) /\
        assoc "parent" fs =
          if truthy pk then Some (JObj [("key", pk)])
          else assoc "parent" (reverse (default [] own))
  | _ => True
  end.

(** A node cut off below itself, and a root cut off below its children. *)
Definition without_children (n : IssueSpec) : IssueSpec :=
  mkIssue (itype n) (summary n) (description n) (priority n) (labels n)
    (components n) (fields n) [].

Definition two_levels (n : IssueSpec) : IssueSpec :=
  mkIssue (itype n) (summary n) (description n) (priority n) (labels n)
    (components n) (fields n) (map without_children (children n)).

End Payload.

(** ** More processes and backends to run the code on *)

Module Scenes.
Import Jira Confluence Fixtures.

(** A configuration with a token and no e-mail. *)
Definition token_only : Config :=
  loaded_config
    (boot tt {[ "ATLASSIAN_DOMAIN" := "acme.atlassian.net";
                "ATLASSIAN_API_TOKEN" := "tok" ]}) "/srv/app/.env".

(** A process that has loaded it. *)
Definition half_configured {B} (b : B) : World B :=
  mkWorld b ∅ {[ "ATLASSIAN_DOMAIN" := "acme.atlassian.net";
                 "ATLASSIAN_API_TOKEN" := "tok" ]} "/srv/app" (Some token_only) [].

(** A process with a screenshot on disk and nothing configured. *)
Definition unconfigured {B} (b : B) (path content : string) : World B :=
  mkWorld b {[ path := File content ]} ∅ "/srv/app" None [].

(** A backend without state that accepts whatever it is sent. *)
Definition obliging (b : unit) (rq : Request) : Reply * unit :=
  (reply 201 "created" (Some (minted 1)), b).

(** Options that override a base field and name a priority twice. *)
Definition urgent : IssueOpts :=
  {| io_fields := Some [("summary", JStr "from fields");
                        ("priority", JObj [("name", JStr "Low")])];
     io_priority := JStr "High";
     io_labels := JUndefined;
     io_components := JUndefined;
     io_parentKey := JUndefined;
     io_assigneeId := JUndefined;
     io_storyPoints := JUndefined |}.

(** A page as a search returns it, and the result of a search. *)
Definition found_page (id : string) (version : Z) : JsValue :=
  JObj [("id", JStr id); ("title", JStr "Home");
        ("version", JObj [("number", JNum version)])].


End Scenes.

(** ** Reasoning about computations *)

Create HintDb offline.

Module Facts.
Section Facts.
Context {B : Type}.
Implicit Types w : World B.
Local Abbreviation offline := (offline (B:=B)).
Local Abbreviation emits := (emits (B:=B)).

Lemma bind_ok {A C} (m : M B A) (k : A -> M B C) w a w1 :
  m w = (Ok a, w1) -> bind m k w = k a w1.
Proof. unfold bind. by intros ->. Qed.

Lemma bind_throw {A C} (m : M B A) (k : A -> M B C) w e w1 :
  m w = (Throw e, w1) -> bind m k w = (Throw e, w1).
Proof. unfold bind. by intros ->. Qed.

Lemma bind_ok_inv {A C} (m : M B A) (k : A -> M B C) w c w2 :
  bind m k w = (Ok c, w2) ->
  exists a w1, m w = (Ok a, w1) /\ k a w1 = (Ok c, w2).
Proof.
  unfold bind. destruct (m w) as [[a|e] w1]; [eauto | discriminate].
Qed.

Lemma bind_inv {A C} (m : M B A) (k : A -> M B C) w r w2 :
  bind m k w = (r, w2) ->
  (exists a w1, m w = (Ok a, w1) /\ k a w1 = (r, w2)) \/
  (exists e, m w = (Throw e, w2) /\ r = Throw e).
Proof.
  unfold bind. destruct (m w) as [[a|e] w1]; intros H.
  - left. eauto.
  - right. inversion H. eauto.
Qed.

Lemma try_catch_ok {A} (m : M B A) h w a w1 :
  m w = (Ok a, w1) -> try_catch m h w = (Ok a, w1).
Proof. unfold try_catch. by intros ->. Qed.

Lemma try_catch_throw {A} (m : M B A) h w e w1 :
  m w = (Throw e, w1) -> try_catch m h w = h e w1.
Proof. unfold try_catch. by intros ->. Qed.

Lemma offline_ret {A} (a : A) : offline (ret a).
Proof.
  intros w r w1 [= <- <-]. repeat split; try done.
  exists []. by rewrite app_nil_r.
Qed.

Lemma offline_throw {A} e : offline (@throw B A e).
Proof.
  intros w r w1 [= <- <-]. repeat split; try done.
  exists []. by rewrite app_nil_r.
Qed.

Lemma offline_inspect {A} (f : World B -> A) : offline (inspect f).
Proof.
  intros w r w1 [= <- <-]. repeat split; try done.
  exists []. by rewrite app_nil_r.
Qed.

Lemma offline_set_config c : offline (@set_config B c).
Proof.
  intros w r w1 [= <- <-]. repeat split; try done.
  exists []. by rewrite app_nil_r.
Qed.

Lemma offline_emit ev : is_local ev -> offline (@emit B ev).
Proof.
  intros Hev w r w1 [= <- <-]. repeat split; try done.
  exists [ev]. split; [done | by constructor].
Qed.

Lemma offline_bind {A C} (m : M B A) (k : A -> M B C) :
  offline m -> (forall a, offline (k a)) -> offline (bind m k).
Proof.
  intros Hm Hk w r w2 H. apply bind_inv in H as [(a & w1 & H1 & H2) | (e & H1 & ->)].
  - apply Hm in H1 as (E1 & E2 & E3 & E4 & evs1 & Ht1 & F1).
    apply Hk in H2 as (G1 & G2 & G3 & G4 & evs2 & Ht2 & F2).
    repeat split; try congruence. exists (evs1 ++ evs2).
    rewrite Ht2, Ht1, app_assoc. split; [done | by apply Forall_app].
  - by apply Hm in H1.
Qed.

Lemma offline_if {A} (b : bool) (m1 m2 : M B A) :
  offline m1 -> offline m2 -> offline (if b then m1 else m2).
Proof. by destruct b. Qed.

Lemma emits_ret {A} P (a : A) : emits P (ret a).
Proof. intros w r w1 [= <- <-]. exists []. by rewrite app_nil_r. Qed.

Lemma emits_throw {A} P e : emits P (@throw B A e).
Proof. intros w r w1 [= <- <-]. exists []. by rewrite app_nil_r. Qed.

Lemma emits_emit (P : Event -> Prop) ev : P ev -> emits P (@emit B ev).
Proof. intros Hev w r w1 [= <- <-]. exists [ev]. split; [done | by constructor]. Qed.

Lemma emits_bind {A C} P (m : M B A) (k : A -> M B C) :
  emits P m -> (forall a, emits P (k a)) -> emits P (bind m k).
Proof.
  intros Hm Hk w r w2 H. apply bind_inv in H as [(a & w1 & H1 & H2) | (e & H1 & ->)].
  - apply Hm in H1 as (evs1 & Ht1 & F1). apply Hk in H2 as (evs2 & Ht2 & F2).
    exists (evs1 ++ evs2). rewrite Ht2, Ht1, app_assoc.
    split; [done | by apply Forall_app].
  - by apply Hm in H1.
Qed.

Lemma emits_try_catch {A} P (m : M B A) h :
  emits P m -> (forall e, emits P (h e)) -> emits P (try_catch m h).
Proof.
  intros Hm Hh w r w2. unfold try_catch.
  destruct (m w) as [[a|e] w1] eqn:E; intros H.
  - injection H as <- <-. by apply Hm in E.
  - apply Hm in E as (evs1 & Ht1 & F1). apply Hh in H as (evs2 & Ht2 & F2).
    exists (evs1 ++ evs2). rewrite Ht2, Ht1, app_assoc.
    split; [done | by apply Forall_app].
Qed.

Lemma emits_weaken {A} (P Q : Event -> Prop) (m : M B A) :
  (forall ev, P ev -> Q ev) -> emits P m -> emits Q m.
Proof.
  intros HPQ Hm w r w1 H. apply Hm in H as (evs & Ht & F).
  exists evs. split; [done|]. eapply Forall_impl; eauto.
Qed.

Lemma offline_emits {A} (m : M B A) : offline m -> emits is_local m.
Proof. intros Hm w r w1 H. by apply Hm in H as (_ & _ & _ & _ & H). Qed.

Lemma emits_for_of {A S} P (step : S -> A -> M B S) xs :
  (forall acc x, emits P (step acc x)) -> forall acc, emits P (for_of step xs acc).
Proof.
  intros Hstep. induction xs as [|x xs IH]; intros acc; simpl.
  - apply emits_ret.
  - apply emits_bind; [apply Hstep | apply IH].
Qed.

Lemma emits_pace P delayMs : P (Sleep (Some delayMs)) -> emits P (@pace B delayMs).
Proof.
  intros HP. unfold pace. destruct (0 <? delayMs)%Z;
    [by apply emits_emit | apply emits_ret].
Qed.

Lemma emits_get_prop P v k : emits P (@get_prop B v k).
Proof. unfold get_prop. destruct (prop v k); [apply emits_ret | apply emits_throw]. Qed.

End Facts.

#[global] Hint Resolve offline_ret offline_throw offline_inspect
  offline_set_config offline_bind offline_if : offline.
#[global] Hint Extern 1 (offline (emit _)) =>
  (apply offline_emit; exact I) : offline.
#[global] Hint Extern 1 (offline (match ?x with _ => _ end)) =>
  destruct x : offline.

End Facts.
Import Facts.

Module ConfigSpec.
Section ConfigSpec.
Context {B : Type}.
Implicit Types w : World B.

Lemma offline_existsSync p : offline (@existsSync B p).
Proof. unfold existsSync. eauto with offline. Qed.

Lemma offline_readFileSync p : offline (@readFileSync B p).
Proof. unfold readFileSync. eauto 10 with offline. Qed.

Lemma offline_get env k d : offline (@get B env k d).
Proof. unfold get. eauto with offline. Qed.

Lemma offline_loadConfig p : offline (@loadConfig B p).
Proof.
  unfold loadConfig.
  eauto 40 using offline_existsSync, offline_readFileSync, offline_get with offline.
Qed.

Lemma record_record w evs1 evs2 :
  record (record w evs1) evs2 = record w (evs1 ++ evs2).
Proof. unfold record. simpl. by rewrite app_assoc. Qed.

Lemma emit_run ev w : emit ev w = (Ok tt, record w [ev]).
Proof. reflexivity. Qed.

Lemma get_run env k d w :
  get env k d w =
  (Ok (str_or (process_env w !! k) (str_or (env !! k) d)), record w [EnvGet k]).
Proof. reflexivity. Qed.

Lemma existsSync_run p w :
  existsSync p w = (Ok (bool_decide (is_Some (files w !! p))), record w [FsExists p]).
Proof. reflexivity. Qed.

Lemma readFileSync_run p w :
  readFileSync p w =
  (match files w !! p with
   | Some (File content) => Ok content
   | Some Dir => Throw (Error "EISDIR: illegal operation on a directory, read")
   | None => Throw (Error ("ENOENT: no such file or directory, open '" +:+ p +:+ "'"))
   end, record w [FsRead p]).
Proof.
  unfold readFileSync, bind. rewrite emit_run. unfold inspect.
  change (files (record w [FsRead p])) with (files w).
  by destruct (files w !! p) as [[|]|].
Qed.

Lemma loadConfig_cached w c q :
  _config w = Some c -> loadConfig q w = (Ok c, w).
Proof. intros H. unfold loadConfig, bind, inspect. by rewrite H. Qed.

Lemma loadConfig_fresh w q r w1 :
  _config w = None -> loadConfig q w = (r, w1) -> fresh_load w q r w1.
Proof.
  intros Hnone. unfold loadConfig.
  rewrite (bind_ok _ _ w None w) by (unfold inspect; by rewrite Hnone).
  rewrite (bind_ok _ _ w (cwd w) w) by done.
  intros H. unfold fresh_load. cbv zeta.
  set (envPath := str_or q (resolve_dotenv (cwd w))) in *.
  erewrite bind_ok in H by apply existsSync_run.
  change (files (record w [FsExists envPath])) with (files w) in H.
  destruct (files w !! envPath) as [[content|]|] eqn:Hf.
  - rewrite bool_decide_eq_true_2 in H by eauto.
    assert (Hin : (let* text := readFileSync envPath in ret (parse_env text))
                    (record w [FsExists envPath]) =
                  (Ok (parse_env content),
                   record (record w [FsExists envPath]) [FsRead envPath])).
    { erewrite bind_ok; [reflexivity|]. rewrite readFileSync_run.
      change (files (record w [FsExists envPath])) with (files w).
      by rewrite Hf. }
    rewrite (bind_ok _ _ _ _ _ Hin) in H.
    repeat erewrite bind_ok in H by apply get_run.
    erewrite bind_ok in H by reflexivity.
    injection H as <- <-. unfold loaded_config, setting, dotenv. rewrite Hf.
    split; [reflexivity|]. split; [reflexivity|].
    cbn [trace record set_config app]. by rewrite <- !app_assoc.
  - rewrite bool_decide_eq_true_2 in H by eauto.
    assert (Hin : (let* text := readFileSync envPath in ret (parse_env text))
                    (record w [FsExists envPath]) =
                  (Throw (Error "EISDIR: illegal operation on a directory, read"),
                   record (record w [FsExists envPath]) [FsRead envPath])).
    { erewrite bind_throw; [reflexivity|]. rewrite readFileSync_run.
      change (files (record w [FsExists envPath])) with (files w).
      by rewrite Hf. }
    rewrite (bind_throw _ _ _ _ _ Hin) in H.
    injection H as <- <-. split; [done|]. split; [done|].
    cbn [trace record app]. by rewrite <- !app_assoc.
  - rewrite bool_decide_eq_false_2 in H by (by intros [? ?]).
    erewrite (bind_ok (ret _)) in H by reflexivity.
    repeat erewrite bind_ok in H by apply get_run.
    erewrite bind_ok in H by reflexivity.
    injection H as <- <-. unfold loaded_config, setting, dotenv. rewrite Hf.
    split; [reflexivity|]. split; [reflexivity|].
    cbn [trace record set_config app]. by rewrite <- !app_assoc.
Qed.

Lemma loadConfig_stores w q c w1 :
  loadConfig q w = (Ok c, w1) -> _config w1 = Some c.
Proof.
  destruct (_config w) as [c0|] eqn:Hc.
  - rewrite (loadConfig_cached _ _ _ Hc). by intros [= <- <-].
  - intros H. apply loadConfig_fresh in H; [|done]. unfold fresh_load in H.
    destruct (files w !! _) as [[|]|].
    + destruct H as ([= <-] & Hc' & _). exact Hc'.
    + destruct H as [[=] _].
    + destruct H as ([= <-] & Hc' & _). exact Hc'.
Qed.

(** What [loadConfig] returns does not depend on what was traced before. *)
Lemma loadConfig_value_record w q evs :
  fst (loadConfig q (record w evs)) = fst (loadConfig q w).
Proof.
  destruct (_config w) as [c|] eqn:Hc.
  - rewrite (loadConfig_cached w c) by done.
    by rewrite (loadConfig_cached (record w evs) c) by done.
  - destruct (loadConfig q w) as [r w1] eqn:E1.
    destruct (loadConfig q (record w evs)) as [r' w1'] eqn:E2.
    apply loadConfig_fresh in E1; [|done]. apply loadConfig_fresh in E2; [|done].
    unfold fresh_load in *. cbv zeta in *.
    change (cwd (record w evs)) with (cwd w) in E2.
    change (files (record w evs)) with (files w) in E2.
    cbn [fst].
    destruct (files w !! _) as [[|]|]; destruct E1 as [-> _], E2 as [-> _]; done.
Qed.

(** C10: once [loadConfig] has returned a configuration, every later call,
    whatever path it is given, returns that same value and leaves the world
    as it is (nothing is read, nothing is traced) for as long as the module
    variable is not reset; [resetConfig] empties it and the next call is a
    load from scratch. *)
Theorem loadConfig_memoised_until_reset (p : option string) w c w1 :
  loadConfig p w = (Ok c, w1) ->
  (forall w2 q, _config w2 = _config w1 -> loadConfig q w2 = (Ok c, w2)) /\
  (forall w2 q r w4,
     let w3 := snd (resetConfig w2) in
     fst (resetConfig w2) = Ok tt /\ _config w3 = None /\
     files w3 = files w2 /\ process_env w3 = process_env w2 /\
     cwd w3 = cwd w2 /\ trace w3 = trace w2 /\
     (loadConfig q w3 = (r, w4) -> fresh_load w3 q r w4)).
Proof.
  intros H. apply loadConfig_stores in H. split.
  - intros w2 q Hsame. apply loadConfig_cached. congruence.
  - intros w2 q r w4. cbv zeta. repeat split. by apply loadConfig_fresh.
Qed.

End ConfigSpec.
End ConfigSpec.
Import ConfigSpec.

Module ClientSpec.
Section ClientSpec.
Context {B : Type} (respond : B -> Request -> Reply * B).
Implicit Types w : World B.

Lemma local_no_net evs : Forall is_local evs -> net_calls evs = [].
Proof.
  unfold net_calls. induction 1 as [|ev evs Hev _ IH]; [done|].
  destruct ev; try done; simpl; exact IH.
Qed.

Lemma local_no_sleep evs : Forall is_local evs -> sleeps evs = [].
Proof.
  unfold sleeps. induction 1 as [|ev evs Hev _ IH]; [done|].
  destruct ev; try done; simpl; exact IH.
Qed.

Lemma net_calls_app tr1 tr2 : net_calls (tr1 ++ tr2) = net_calls tr1 ++ net_calls tr2.
Proof. apply omap_app. Qed.

Lemma sleeps_app tr1 tr2 : sleeps (tr1 ++ tr2) = sleeps tr1 ++ sleeps tr2.
Proof. apply omap_app. Qed.

(** The prelude is [loadConfig] followed by the two guards. *)
Lemma resolve_target_unfold opts w :
  resolve_target opts w =
  match loadConfig None w with
  | (Ok c, w1) => (check_target opts c, w1)
  | (Throw e, w1) => (Throw e, w1)
  end.
Proof.
  unfold resolve_target, bind, check_target, effective_domain, effective_auth.
  destruct (loadConfig None w) as [[c|e] w1]; [|done].
  destruct (String.eqb _ ""); [done|].
  by destruct (String.eqb _ "" || String.eqb _ "Og==").
Qed.

Lemma offline_resolve_target opts : offline (@resolve_target B opts).
Proof.
  intros w r w1. rewrite resolve_target_unfold.
  destruct (loadConfig None w) as [[c|e] w0] eqn:E; intros [= <- <-];
    eapply offline_loadConfig; eauto.
Qed.

Lemma resolve_target_ok opts w t w1 :
  resolve_target opts w = (Ok t, w1) ->
  exists c, loadConfig None w = (Ok c, w1) /\ _config w1 = Some c /\
            check_target opts c = Ok t.
Proof.
  rewrite resolve_target_unfold.
  destruct (loadConfig None w) as [[c|e] w0] eqn:E; [|discriminate].
  intros [= Hc <-]. exists c. eauto using loadConfig_stores.
Qed.

Lemma resolve_target_cached opts w c :
  _config w = Some c -> resolve_target opts w = (check_target opts c, w).
Proof.
  intros H. rewrite resolve_target_unfold. by rewrite (loadConfig_cached _ _ _ H).
Qed.

Lemma check_target_retries opts n c :
  check_target (with_retries opts n) c = check_target opts c.
Proof. reflexivity. Qed.

(** Once the prelude has passed, the prelude of every retry passes too,
    with the same target and without touching the world. *)
Lemma retry_prelude_passes opts w t w0 :
  resolve_target opts w = (Ok t, w0) ->
  forall w2 n, _config w2 = _config w0 ->
               resolve_target (with_retries opts n) w2 = (Ok t, w2).
Proof.
  intros Ht w2 n Hsame.
  destruct (resolve_target_ok _ _ _ _ Ht) as (c & _ & Hc & Hchk).
  rewrite (resolve_target_cached _ w2 c) by congruence.
  by rewrite check_target_retries, Hchk.
Qed.

Lemma https_request_run rq w :
  https_request respond rq w =
  (Ok (fst (respond (remote w) rq)),
   mkWorld (snd (respond (remote w) rq)) (files w) (process_env w) (cwd w)
     (_config w) (trace w ++ [Net rq])).
Proof. unfold https_request. by destruct (respond (remote w) rq). Qed.

Lemma is_2xx_429 : is_2xx 429 = false.
Proof. reflexivity. Qed.

Lemma atlassianRequest_with_eq n method path body opts :
  atlassianRequest_with respond n method path body opts =
  (let* target := resolve_target opts in
   let* reply := https_request respond (request_of target method path body opts) in
   after_reply respond n method path body opts reply).
Proof. by destruct n. Qed.

Lemma attempt_run n method path body opts w t w0 :
  resolve_target opts w = (Ok t, w0) ->
  let rq := request_of t method path body opts in
  atlassianRequest_with respond n method path body opts w =
  after_reply respond n method path body opts (fst (respond (remote w) rq))
    (mkWorld (snd (respond (remote w) rq)) (files w0) (process_env w0) (cwd w0)
       (_config w0) (trace w0 ++ [Net rq])).
Proof.
  intros Ht rq. rewrite atlassianRequest_with_eq.
  rewrite (bind_ok _ _ _ _ _ Ht).
  erewrite bind_ok by apply https_request_run.
  apply offline_resolve_target in Ht as (-> & _). done.
Qed.

Lemma after_throttle n method path body opts res w :
  res_status res = 429%Z ->
  after_reply respond (S n) method path body opts (Answer res) w =
  atlassianRequest_with respond n method path body (with_retries opts n)
    (record w [Log (retry_notice (S n) res); Sleep (retry_delay res)]).
Proof.
  intros Hs. unfold after_reply. rewrite Hs, is_2xx_429.
  change (429 =? 429)%Z with true. cbv iota zeta.
  unfold console_log, sleep.
  erewrite bind_ok by apply emit_run.
  erewrite bind_ok by apply emit_run.
  by rewrite record_record.
Qed.

Lemma after_last_throttle method path body opts res w :
  res_status res = 429%Z ->
  after_reply respond 0 method path body opts (Answer res) w = (Throw (http_error res), w).
Proof. intros Hs. unfold after_reply. by rewrite Hs, is_2xx_429. Qed.

Lemma after_success n method path body opts res w :
  is_2xx (res_status res) = true ->
  after_reply respond n method path body opts (Answer res) w = (Ok (parsed_or_raw res), w).
Proof. intros Hs. unfold after_reply. by rewrite Hs. Qed.

Lemma retry_exhausted n : forall method path body opts w t w0 b',
  resolve_target opts w = (Ok t, w0) ->
  throttled respond (S n) (remote w) (request_of t method path body opts) b' ->
  exists e w' evs,
    atlassianRequest_with respond n method path body opts w = (Throw e, w') /\
    statusCode e = Some 429%Z /\ remote w' = b' /\
    trace w' = trace w ++ evs /\
    net_calls evs = replicate (S n) (request_of t method path body opts) /\
    length (sleeps evs) = n.
Proof.
  induction n as [|n IH]; intros method path body opts w t w0 b' Ht Hthr;
    inversion Hthr as [|k b rq res b1 b2 Hre Hst Hrest]; subst;
    pose proof (resolve_target_ok _ _ _ _ Ht) as (c & _ & Hc & Hchk);
    pose proof (offline_resolve_target _ _ _ _ Ht) as (_ & _ & _ & _ & evs0 & Htr0 & Hloc);
    rewrite (attempt_run _ _ _ _ _ _ _ _ Ht); cbv zeta; rewrite Hre; cbn [fst snd].
  - inversion Hrest; subst. rewrite after_last_throttle by done.
    eexists _, _, (evs0 ++ [Net _]). split; [reflexivity|].
    split; [by rewrite <- Hst|]. split; [done|]. cbn [trace].
    split; [by rewrite Htr0, app_assoc|].
    rewrite net_calls_app, sleeps_app, local_no_net, local_no_sleep by done.
    done.
  - rewrite after_throttle by done.
    match goal with |- context [atlassianRequest_with _ _ _ _ _ _ ?x] => set (w2 := x) end.
    destruct (IH method path body (with_retries opts n) w2 t w2 b')
      as (e & w' & evs & Hrun & He & Hb & Htr & Hnet & Hsl).
    { rewrite resolve_target_cached with (c := c) by exact Hc.
      rewrite check_target_retries, Hchk. reflexivity. }
    { exact Hrest. }
    exists e, w', (evs0 ++ [Net (request_of t method path body opts);
                            Log (retry_notice (S n) res); Sleep (retry_delay res)] ++ evs).
    split; [exact Hrun|]. split; [done|]. split; [done|].
    split.
    { rewrite Htr. subst w2. cbn [trace record]. rewrite Htr0. by rewrite <- !app_assoc. }
    rewrite !net_calls_app, !sleeps_app, local_no_net, local_no_sleep by done.
    change (request_of t method path body (with_retries opts n))
      with (request_of t method path body opts) in Hnet.
    rewrite Hnet. cbn. by rewrite Hsl.
Qed.

Lemma retry_recovers k : forall n method path body opts w t w0 b1 res b2,
  k <= n ->
  resolve_target opts w = (Ok t, w0) ->
  throttled respond k (remote w) (request_of t method path body opts) b1 ->
  respond b1 (request_of t method path body opts) = (Answer res, b2) ->
  is_2xx (res_status res) = true ->
  exists w' evs,
    atlassianRequest_with respond n method path body opts w =
      (Ok (parsed_or_raw res), w') /\
    remote w' = b2 /\
    trace w' = trace w ++ evs /\
    net_calls evs = replicate (S k) (request_of t method path body opts) /\
    length (sleeps evs) = k.
Proof.
  induction k as [|k IH]; intros n method path body opts w t w0 b1 res b2 Hle Ht Hthr Hre2 H2xx;
    inversion Hthr as [|k' b rq res1 b1' b2' Hre Hst Hrest]; subst;
    pose proof (resolve_target_ok _ _ _ _ Ht) as (c & _ & Hc & Hchk);
    pose proof (offline_resolve_target _ _ _ _ Ht) as (_ & _ & _ & _ & evs0 & Htr0 & Hloc);
    rewrite (attempt_run _ _ _ _ _ _ _ _ Ht); cbv zeta.
  - rewrite Hre2; cbn [fst snd]. rewrite after_success by done.
    eexists _, (evs0 ++ [Net _]). split; [reflexivity|]. split; [done|].
    cbn [trace]. split; [by rewrite Htr0, app_assoc|].
    rewrite net_calls_app, sleeps_app, local_no_net, local_no_sleep by done.
    done.
  - rewrite Hre; cbn [fst snd]. destruct n as [|n]; [lia|].
    rewrite after_throttle by done.
    match goal with |- context [atlassianRequest_with _ _ _ _ _ _ ?x] => set (w2 := x) end.
    destruct (IH n method path body (with_retries opts n) w2 t w2 b1 res b2)
      as (w' & evs & Hrun & Hb & Htr & Hnet & Hsl).
    { lia. }
    { rewrite resolve_target_cached with (c := c) by exact Hc.
      rewrite check_target_retries, Hchk. reflexivity. }
    { exact Hrest. }
    { exact Hre2. }
    { exact H2xx. }
    exists w', (evs0 ++ [Net (request_of t method path body opts);
                         Log (retry_notice (S n) res1); Sleep (retry_delay res1)] ++ evs).
    split; [exact Hrun|]. split; [done|].
    split.
    { rewrite Htr. subst w2. cbn [trace record]. rewrite Htr0. by rewrite <- !app_assoc. }
    rewrite !net_calls_app, !sleeps_app, local_no_net, local_no_sleep by done.
    change (request_of t method path body (with_retries opts n))
      with (request_of t method path body opts) in Hnet.
    rewrite Hnet. cbn. by rewrite Hsl.
Qed.

Lemma atlassianRequest_with_emits n method path body :
  forall opts, emits (sends method path)
                 (atlassianRequest_with respond n method path body opts).
Proof.
  induction n as [|n IH]; intros opts; rewrite atlassianRequest_with_eq;
    (apply emits_bind;
     [ eapply emits_weaken; [|apply offline_emits, offline_resolve_target];
       by intros [] | intros tg ]);
    (apply emits_bind;
     [ intros w r w1; rewrite https_request_run; intros [= <- <-];
       eexists [_]; split; [reflexivity|]; by repeat constructor | intros rp ]);
    unfold after_reply; destruct rp as [res|e]; try apply emits_throw;
    destruct (is_2xx _); try apply emits_ret;
    destruct (_ =? _)%Z; try apply emits_throw.
  apply emits_bind; [by apply emits_emit | intros _].
  apply emits_bind; [by apply emits_emit | intros _]. apply IH.
Qed.

Lemma atlassianRequest_emits method path body opts :
  emits (sends method path) (atlassianRequest respond method path body opts).
Proof. apply atlassianRequest_with_emits. Qed.

(** A 429 met with budget [m+1] goes on as the same call with
    [retries: m], once the notice is printed and the wait is over. *)
Lemma retry_continues method path body opts w t w0 m res b1 :
  resolve_target opts w = (Ok t, w0) ->
  default 3%nat (retries opts) = S m ->
  respond (remote w) (request_of t method path body opts) = (Answer res, b1) ->
  res_status res = 429%Z ->
  atlassianRequest respond method path body opts w =
  atlassianRequest respond method path body (with_retries opts m)
    (mkWorld b1 (files w0) (process_env w0) (cwd w0) (_config w0)
       (trace w0 ++ [Net (request_of t method path body opts);
                     Log (retry_notice (S m) res); Sleep (retry_delay res)])).
Proof.
  intros Ht Hn Hre Hst. unfold atlassianRequest at 1.
  rewrite (attempt_run _ _ _ _ _ _ _ _ Ht). cbv zeta.
  rewrite Hre, Hn. cbn [fst snd]. rewrite after_throttle by done.
  unfold atlassianRequest, record. cbn [retries with_retries default trace
    remote files process_env cwd _config]. by rewrite <- app_assoc.
Qed.

(** C1: with retry budget [n] (three unless the caller overrides it), a
    backend that answers [n+1] submissions in a row with 429 sees exactly
    [n+1] identical requests, separated by [n] suspensions, and the call is
    rejected with the error of status 429; [k <= n] answers of 429 followed
    by a 2xx answer give the parsed payload after exactly [k] suspensions
    and [k+1] requests.  Each 429 met with budget [m+1] left continues as
    the same call with [retries: m]. *)
Theorem retry_bound method path body opts w t w0 :
  resolve_target opts w = (Ok t, w0) ->
  let n := default 3%nat (retries opts) in
  let rq := request_of t method path body opts in
  (forall b', throttled respond (S n) (remote w) rq b' ->
     exists e w' evs,
       atlassianRequest respond method path body opts w = (Throw e, w') /\
       statusCode e = Some 429%Z /\ remote w' = b' /\
       trace w' = trace w ++ evs /\
       net_calls evs = replicate (S n) rq /\ length (sleeps evs) = n) /\
  (forall k b1 res b2,
     k <= n -> throttled respond k (remote w) rq b1 ->
     respond b1 rq = (Answer res, b2) -> is_2xx (res_status res) = true ->
     exists w' evs,
       atlassianRequest respond method path body opts w =
         (Ok (parsed_or_raw res), w') /\
       remote w' = b2 /\ trace w' = trace w ++ evs /\
       net_calls evs = replicate (S k) rq /\ length (sleeps evs) = k) /\
  (forall m res b1,
     n = S m -> respond (remote w) rq = (Answer res, b1) ->
     res_status res = 429%Z ->
     atlassianRequest respond method path body opts w =
     atlassianRequest respond method path body (with_retries opts m)
       (mkWorld b1 (files w0) (process_env w0) (cwd w0) (_config w0)
          (trace w0 ++ [Net rq; Log (retry_notice n res);
                        Sleep (retry_delay res)]))).
Proof.
  intros Ht n rq. split; [|split].
  - intros b' Hthr. by eapply retry_exhausted.
  - intros k b1 res b2 Hk Hthr Hre H2xx. by eapply retry_recovers.
  - intros m res b1 Hn Hre Hst. rewrite Hn. by eapply retry_continues.
Qed.

(** The first wait of a throttled call is what [setTimeout] is given:
    [parseInt] of the hint, or of ['5'] when the header is absent or
    empty, times 1000. *)
Lemma first_wait method path body opts w t w0 res b1 m :
  resolve_target opts w = (Ok t, w0) ->
  default 3%nat (retries opts) = S m ->
  respond (remote w) (request_of t method path body opts) = (Answer res, b1) ->
  res_status res = 429%Z ->
  exists r w' evs,
    atlassianRequest respond method path body opts w = (r, w') /\
    trace w' = trace w0 ++ Net (request_of t method path body opts) ::
                 Log (retry_notice (S m) res) :: Sleep (retry_delay res) :: evs.
Proof.
  intros Ht Hn Hre Hst.
  rewrite (retry_continues method path body opts w t w0 m res b1 Ht Hn Hre Hst).
  match goal with |- context [atlassianRequest _ _ _ _ _ ?x] => set (w2 := x) end.
  destruct (resolve_target_ok _ _ _ _ Ht) as (c & _ & Hc & Hchk).
  destruct (atlassianRequest respond method path body (with_retries opts m) w2)
    as [r w'] eqn:E.
  apply atlassianRequest_emits in E as (evs & Hevs & _).
  exists r, w', evs. split; [done|]. rewrite Hevs. subst w2. cbn [trace].
  by rewrite <- app_assoc.
Qed.

Lemma wait_defaults_when_absent res :
  res_headers res !! "retry-after" = None \/
  res_headers res !! "retry-after" = Some "" ->
  retry_delay res = Some 5000%Z.
Proof. unfold retry_delay. by intros [-> | ->]. Qed.

Lemma wait_follows_hint res hint v :
  res_headers res !! "retry-after" = Some hint -> hint <> "" ->
  parseInt hint = Some v -> retry_delay res = Some (v * 1000)%Z.
Proof.
  unfold retry_delay, str_or. intros -> Hne Hv.
  destruct (String.eqb_spec hint ""); [done|]. by rewrite Hv.
Qed.

(** C7 (where the code falls short): a 429 met with budget left whose
    [Retry-After] is present but has no leading integer makes the call wait
    [NaN] milliseconds, announced as [NaNs], and not the five seconds of the
    fallback. *)
Theorem unparsable_hint_waits_NaN method path body opts w t w0 res b1 m hint :
  resolve_target opts w = (Ok t, w0) ->
  default 3%nat (retries opts) = S m ->
  respond (remote w) (request_of t method path body opts) = (Answer res, b1) ->
  res_status res = 429%Z ->
  res_headers res !! "retry-after" = Some hint -> hint <> "" ->
  parseInt hint = None ->
  retry_delay res <> Some 5000%Z /\
  exists r w' evs,
    atlassianRequest respond method path body opts w = (r, w') /\
    trace w' = trace w0 ++ Net (request_of t method path body opts) ::
                 Log ("  Rate limited. Retrying in NaNs... (" +:+
                      pretty (S m) +:+ " retries left)") ::
                 Sleep None :: evs.
Proof.
  intros Ht Hn Hre Hst Hh Hne Hp.
  assert (Hd : retry_delay res = None).
  { unfold retry_delay, str_or. rewrite Hh.
    destruct (String.eqb_spec hint ""); [done|]. by rewrite Hp. }
  split; [by rewrite Hd|].
  destruct (first_wait method path body opts w t w0 res b1 m Ht Hn Hre Hst)
    as (r & w' & evs & Hrun & Htr).
  exists r, w', evs. split; [done|]. rewrite Htr, Hd.
  unfold retry_notice, str_or. rewrite Hh.
  destruct (String.eqb_spec hint ""); [done|]. by rewrite Hp.
Qed.

(** A configuration that fails a guard stops the call in its synchronous
    prelude: the error is thrown with nothing sent and nothing awaited. *)
Lemma config_error_before_network method path body opts w :
  misconfigured_at opts w ->
  exists c e w1,
    loadConfig None w = (Ok c, w1) /\ _config w1 = Some c /\
    misconfigured opts c /\
    resolve_target opts w = (Throw e, w1) /\
    atlassianRequest respond method path body opts w = (Throw e, w1) /\
    is_config_error e /\ remote w1 = remote w /\
    exists evs, trace w1 = trace w ++ evs /\ Forall is_local evs.
Proof.
  intros (c & Hc & Hmis).
  destruct (loadConfig None w) as [r w1] eqn:E. cbn [fst] in Hc. subst r.
  assert (Hchk : exists e, check_target opts c = Throw e /\ is_config_error e).
  { unfold check_target, is_config_error.
    destruct Hmis as [H | [H | H]].
    - rewrite H. cbn. eauto.
    - destruct (String.eqb (effective_domain opts c) ""); [eauto|].
      rewrite H. cbn. eauto.
    - destruct (String.eqb (effective_domain opts c) ""); [eauto|].
      rewrite H. cbn. eauto. }
  destruct Hchk as (e & Hchk & He).
  assert (Hpre : resolve_target opts w = (Throw e, w1)).
  { by rewrite resolve_target_unfold, E, Hchk. }
  exists c, e, w1. split; [done|].
  split; [by eapply loadConfig_stores|]. split; [done|]. split; [done|].
  split.
  { unfold atlassianRequest. rewrite atlassianRequest_with_eq.
    by rewrite (bind_throw _ _ _ _ _ Hpre). }
  split; [done|].
  by apply offline_loadConfig in E as (Hr & _ & _ & _ & Hev).
Qed.

End ClientSpec.
End ClientSpec.
Import ClientSpec.

Module UploadSpec.
Section UploadSpec.
Context {B : Type} (respond : B -> Request -> Reply * B).
Implicit Types w : World B.

(** C6: when the PUT is answered 404 or 400, exactly one POST follows, to
    the same host and path with the same headers and the same multipart
    body (the file between the part header and the closing boundary); its
    outcome settles the call (a non-2xx answer rejects with the "Upload
    failed" error, a transport error with that error) and nothing more is
    sent.  Any other non-2xx answer to the PUT rejects at once, the PUT
    being the only request. *)
Theorem upload_falls_back_once rnd apiPath filepath filename opts w c w0 fileData res b1 :
  loadConfig None w = (Ok c, w0) ->
  files w !! filepath = Some (File fileData) ->
  let eol := String "013"%char (String "010"%char "") in
  let quote := String "034"%char "" in
  let boundary := "----FormBoundary" +:+ rnd in
  let payload :=
    ("--" +:+ boundary +:+ eol +:+
     "Content-Disposition: form-data; name=" +:+ quote +:+ "file" +:+ quote +:+
     "; filename=" +:+ quote +:+ filename +:+ quote +:+ eol +:+
     "Content-Type: image/png" +:+ eol +:+ eol) +:+
    fileData +:+
    (eol +:+ "--" +:+ boundary +:+ "--" +:+ eol) in
  let sent method :=
    {| rq_hostname := effective_domain opts c;
       rq_path := apiPath;
       rq_method := method;
       rq_headers :=
         [("Authorization", "Basic " +:+ effective_auth opts c);
          ("Content-Type", "multipart/form-data; boundary=" +:+ boundary);
          ("X-Atlassian-Token", "nocheck");
          ("Content-Length", pretty (String.length payload))];
       rq_body := Some (BRaw payload) |} in
  let failed res :=
    Error ("Upload failed: HTTP " +:+ pretty (res_status res) +:+ ": " +:+
           take_units 200 (res_data res)) in
  respond (remote w) (sent "PUT") = (Answer res, b1) ->
  is_2xx (res_status res) = false ->
  let '(r, w') := uploadAttachment respond rnd apiPath filepath filename opts w in
  if bool_decide (res_status res = 404%Z \/ res_status res = 400%Z) then
    trace w' = trace w0 ++ [FsRead filepath; Net (sent "PUT"); Net (sent "POST")] /\
    remote w' = snd (respond b1 (sent "POST")) /\
    r = match fst (respond b1 (sent "POST")) with
        | Answer res2 =>
            if is_2xx (res_status res2) then Ok (parsed_or_raw res2)
            else Throw (failed res2)
        | NetError e => Throw e
        end
  else
    trace w' = trace w0 ++ [FsRead filepath; Net (sent "PUT")] /\
    remote w' = b1 /\ r = Throw (failed res).
Proof.
  intros Hc Hfile eol quote boundary payload sent failed Hre Hnot.
  unfold uploadAttachment. rewrite (bind_ok _ _ _ _ _ Hc).
  apply offline_loadConfig in Hc as (Hr0 & Hf0 & _ & _ & _).
  erewrite bind_ok; cycle 1.
  { rewrite readFileSync_run, Hf0, Hfile. reflexivity. }
  cbv zeta.
  change (upload_request _ _ apiPath "PUT" _ _) with (sent "PUT").
  change (upload_request _ _ apiPath "POST" _ _) with (sent "POST").
  erewrite bind_ok by apply https_request_run.
  cbn [remote record]. rewrite Hr0, Hre. cbn [fst snd]. rewrite Hnot.
  change (upload_error res) with (failed res).
  case_bool_decide as Hfb.
  - assert ((res_status res =? 404)%Z || (res_status res =? 400)%Z = true) as ->.
    { destruct Hfb as [-> | ->]; reflexivity. }
    erewrite bind_ok by apply https_request_run. cbn [remote].
    destruct (respond b1 (sent "POST")) as [[res2|e] b2]; cbn [fst snd].
    + change (upload_error res2) with (failed res2).
      destruct (is_2xx (res_status res2)); cbn [trace record];
        by rewrite <- !app_assoc.
    + cbn [trace record]. by rewrite <- !app_assoc.
  - assert ((res_status res =? 404)%Z || (res_status res =? 400)%Z = false) as ->.
    { apply orb_false_intro; apply Z.eqb_neq; intros Heq; apply Hfb; auto. }
    cbn [trace record]. by rewrite <- !app_assoc.
Qed.

End UploadSpec.
End UploadSpec.

Module CreatorSpec.
Import Jira Confluence.
Section CreatorSpec.
Context {B : Type} (respond : B -> Request -> Reply * B).
Implicit Types w : World B.

Lemma createProject_on_failure key name opts w e w1 :
  atlassianRequest respond "POST" (API_V3 +:+ "/project")
    (Some (project_payload key name opts)) no_opts
    (record w [Log ("Creating JIRA project: " +:+ name +:+ " (" +:+ key +:+ ")")])
  = (Throw e, w1) ->
  createProject respond key name opts w =
  if already_exists e then
    atlassianRequest respond "GET" (API_V3 +:+ "/project/" +:+ key) None no_opts
      (record w1 [Log ("  Project " +:+ key +:+ " already exists, fetching...")])
  else (Throw e, w1).
Proof.
  intros H. unfold createProject, console_log.
  erewrite bind_ok by apply emit_run.
  erewrite try_catch_throw by (erewrite bind_throw by exact H; reflexivity).
  destruct (already_exists e); [|done].
  by erewrite bind_ok by apply emit_run.
Qed.

Lemma createSpace_on_failure key name description w e w1 :
  atlassianRequest respond "POST" (API +:+ "/space")
    (Some (space_payload key name description)) no_opts
    (record w [Log ("Creating space: " +:+ name +:+ " (" +:+ key +:+ ")")])
  = (Throw e, w1) ->
  createSpace respond key name description w =
  if already_exists e then
    atlassianRequest respond "GET" (API +:+ "/space/" +:+ key +:+ "?expand=homepage")
      None no_opts
      (record w1 [Log ("  Space " +:+ key +:+ " already exists, fetching...")])
  else (Throw e, w1).
Proof.
  intros H. unfold createSpace, console_log.
  erewrite bind_ok by apply emit_run.
  erewrite try_catch_throw by (erewrite bind_throw by exact H; reflexivity).
  unfold already_exists. rewrite orb_comm.
  destruct (_ || _); [|done].
  by erewrite bind_ok by apply emit_run.
Qed.

(** C3: when the create request of [createProject] or [createSpace] is
    rejected with an error that carries status 409 or whose message
    contains "already exists", the creator announces the fetch, issues the
    GET for the key and settles exactly as that GET settles; an error with
    neither signal is rethrown as it is, with nothing more sent. *)
Theorem conflict_resolves_to_fetch key name w :
  (forall opts e w1,
     atlassianRequest respond "POST" (API_V3 +:+ "/project")
       (Some (project_payload key name opts)) no_opts
       (record w [Log ("Creating JIRA project: " +:+ name +:+ " (" +:+ key +:+ ")")])
     = (Throw e, w1) ->
     (already_exists e = true ->
      createProject respond key name opts w =
      atlassianRequest respond "GET" (API_V3 +:+ "/project/" +:+ key) None no_opts
        (record w1 [Log ("  Project " +:+ key +:+ " already exists, fetching...")])) /\
     (already_exists e = false ->
      createProject respond key name opts w = (Throw e, w1))) /\
  (forall description e w1,
     atlassianRequest respond "POST" (API +:+ "/space")
       (Some (space_payload key name description)) no_opts
       (record w [Log ("Creating space: " +:+ name +:+ " (" +:+ key +:+ ")")])
     = (Throw e, w1) ->
     (already_exists e = true ->
      createSpace respond key name description w =
      atlassianRequest respond "GET"
        (API +:+ "/space/" +:+ key +:+ "?expand=homepage") None no_opts
        (record w1 [Log ("  Space " +:+ key +:+ " already exists, fetching...")])) /\
     (already_exists e = false ->
      createSpace respond key name description w = (Throw e, w1))).
Proof.
  split.
  - intros opts e w1 H. rewrite (createProject_on_failure _ _ _ _ _ _ H).
    split; by intros ->.
  - intros description e w1 H. rewrite (createSpace_on_failure _ _ _ _ _ _ H).
    split; by intros ->.
Qed.

End CreatorSpec.
End CreatorSpec.
Module Provisioning.
Import Jira Confluence.
Section Provisioning.
Context {B : Type} (respond : B -> Request -> Reply * B).
Implicit Types w : World B.

Lemma bind_assoc {A C D} (m : M B A) (f : A -> M B C) (g : C -> M B D) w :
  bind (bind m f) g w = bind m (fun a => bind (f a) g) w.
Proof. unfold bind. by destruct (m w) as [[a|e] w1]. Qed.

Lemma settle_run {A} (m : M B A) w : settle m w = (Ok (fst (m w)), snd (m w)).
Proof. unfold settle. by destruct (m w). Qed.

Lemma pace_run delayMs w :
  pace delayMs w =
  (Ok tt, if (0 <? delayMs)%Z then record w [Sleep (Some delayMs)] else w).
Proof. unfold pace. by destruct (0 <? delayMs)%Z. Qed.

Lemma for_of_cons {A S} (step : S -> A -> M B S) x xs acc :
  for_of step (x :: xs) acc = bind (step acc x) (for_of step xs).
Proof. reflexivity. Qed.

Lemma for_indexed_cons {A} (step : nat -> A -> M B (list Attempt)) i x xs :
  for_indexed step i (x :: xs) =
  (let* here := step i x in
   let* more := for_indexed step (S i) xs in
   ret (here ++ more)).
Proof. reflexivity. Qed.

(** *** The instrumented walks are the provisioners *)

Lemma child_audit_erasure projectKey result delayMs pre i created child w :
  exists a w',
    audit_child respond projectKey result delayMs pre i child w = (Ok [a], w') /\
    at_path a = pre ++ [i] /\ at_key a = summary child /\
    create_child respond projectKey result delayMs created child w =
      (Ok (created ++ successes [a]), w').
Proof.
  unfold audit_child, create_child.
  set (m := let* parentKey := get_prop result "key" in
            createIssue respond projectKey (str_or (itype child) "Sub-task")
              (summary child) (or_else (description child) (JStr ""))
              (node_opts parentKey child)).
  erewrite bind_ok by apply settle_run.
  destruct (m w) as [[v|e] w1] eqn:E; cbn [fst snd].
  - erewrite bind_ok by apply pace_run. eexists _, _. split; [reflexivity|].
    split; [done|]. split; [done|].
    erewrite try_catch_ok; [reflexivity|].
    rewrite <- bind_assoc. fold m. rewrite (bind_ok _ _ _ _ _ E).
    by erewrite bind_ok by apply pace_run.
  - unfold console_log. erewrite bind_ok by apply emit_run.
    eexists _, _. split; [reflexivity|]. split; [done|]. split; [done|].
    erewrite try_catch_throw; cycle 1.
    { rewrite <- bind_assoc. fold m. by rewrite (bind_throw _ _ _ _ _ E). }
    erewrite bind_ok by apply emit_run. cbn [successes at_outcome].
    by rewrite app_nil_r.
Qed.

Lemma children_audit_erasure projectKey result delayMs pre cs :
  forall i created w,
  exists log w',
    for_indexed (audit_child respond projectKey result delayMs pre) i cs w =
      (Ok log, w') /\
    for_of (create_child respond projectKey result delayMs) cs created w =
      (Ok (created ++ successes log), w').
Proof.
  induction cs as [|c cs IH]; intros i created w.
  - exists [], w. split; [done|]. simpl. by rewrite app_nil_r.
  - destruct (child_audit_erasure projectKey result delayMs pre i created c w)
      as (a & w1 & Ha & _ & _ & Hc).
    destruct (IH (S i) (created ++ successes [a]) w1) as (log & w2 & Hl & Hr).
    exists (a :: log), w2. split.
    + rewrite for_indexed_cons. rewrite (bind_ok _ _ _ _ _ Ha).
      by rewrite (bind_ok _ _ _ _ _ Hl).
    + rewrite for_of_cons, (bind_ok _ _ _ _ _ Hc), Hr.
      cbn [successes]. destruct (at_outcome a); by rewrite <- ?app_assoc, ?app_nil_r.
Qed.

Lemma root_audit_erasure projectKey delayMs pre i created issue w :
  exists log w',
    audit_root respond projectKey delayMs pre i issue w = (Ok log, w') /\
    create_root respond projectKey delayMs created issue w =
      (Ok (created ++ successes log), w').
Proof.
  unfold audit_root, create_root.
  set (m := createIssue respond projectKey (str_or (itype issue) "Story")
              (summary issue) (or_else (description issue) (JStr ""))
              (node_opts JUndefined issue)).
  erewrite bind_ok by apply settle_run.
  destruct (m w) as [[v|e] w1] eqn:E; cbn [fst snd].
  - erewrite bind_ok by apply pace_run.
    set (w2 := if (0 <? delayMs)%Z then record w1 [Sleep (Some delayMs)] else w1).
    destruct (children_audit_erasure projectKey v delayMs (pre ++ [i])
                (children issue) 0%nat (created ++ [v]) w2)
      as (log & w3 & Hl & Hr).
    exists (mkAttempt (pre ++ [i]) (summary issue) (Ok v) :: log), w3. split.
    + by rewrite (bind_ok _ _ _ _ _ Hl).
    + erewrite try_catch_ok; [reflexivity|].
      rewrite (bind_ok _ _ _ _ _ E).
      erewrite bind_ok by apply pace_run. fold w2. rewrite Hr.
      cbn [successes at_outcome]. by rewrite <- app_assoc.
  - unfold console_log. erewrite bind_ok by apply emit_run.
    eexists _, _. split; [reflexivity|].
    erewrite try_catch_throw by (by rewrite (bind_throw _ _ _ _ _ E)).
    erewrite bind_ok by apply emit_run. cbn [successes at_outcome].
    by rewrite app_nil_r.
Qed.

Lemma roots_audit_erasure projectKey delayMs pre issues :
  forall i created w,
  exists log w',
    for_indexed (audit_root respond projectKey delayMs pre) i issues w =
      (Ok log, w') /\
    for_of (create_root respond projectKey delayMs) issues created w =
      (Ok (created ++ successes log), w').
Proof.
  assert (Hsucc : forall l1 l2, successes (l1 ++ l2) = successes l1 ++ successes l2).
  { induction l1 as [|a l1 IH1]; intros l2; [done|]. simpl.
    destruct (at_outcome a); by rewrite IH1. }
  induction issues as [|x xs IH]; intros i created w.
  - exists [], w. split; [done|]. simpl. by rewrite app_nil_r.
  - destruct (root_audit_erasure projectKey delayMs pre i created x w)
      as (l1 & w1 & Ha & Hc).
    destruct (IH (S i) (created ++ successes l1) w1) as (l2 & w2 & Hl & Hr).
    exists (l1 ++ l2), w2. split.
    + rewrite for_indexed_cons. rewrite (bind_ok _ _ _ _ _ Ha).
      by rewrite (bind_ok _ _ _ _ _ Hl).
    + rewrite for_of_cons, (bind_ok _ _ _ _ _ Hc), Hr.
      by rewrite Hsucc, app_assoc.
Qed.

(** The instrumented walk over issues returns a log, and [createIssueTree]
    ends in the same world with the successes of that log. *)
Lemma issue_audit_erasure projectKey issues delayMs w :
  exists log w',
    createIssueTree_audit respond projectKey issues delayMs w = (Ok log, w') /\
    createIssueTree respond projectKey issues delayMs w = (Ok (successes log), w').
Proof.
  destruct (roots_audit_erasure projectKey delayMs [] issues 0%nat [] w)
    as (log & w' & H1 & H2).
  by exists log, w'.
Qed.

(** Induction over a page and, through [Forall], its children. *)
Lemma PageSpec_forest_ind (P : PageSpec -> Prop) :
  (forall t b l cs, Forall P cs -> P (mkPage t b l cs)) -> forall p, P p.
Proof.
  intros H. fix IH 1. intros [t b l cs]. apply H.
  revert cs. fix IHcs 1. intros [|c cs]; constructor; [apply IH | apply IHcs].
Qed.

Lemma get_prop_ok_inv v k x w w1 :
  @get_prop B v k w = (Ok x, w1) -> prop v k = Some x /\ w1 = w.
Proof. unfold get_prop. destruct (prop v k); intros [= <- <-]; done. Qed.

Lemma get_prop_run v k x w : prop v k = Some x -> @get_prop B v k w = (Ok x, w).
Proof. unfold get_prop. by intros ->. Qed.

(** A page that [createPage] returns has passed the read of its [id]. *)
Lemma createPage_ok_id spaceKey title body parentId labels w created w' :
  createPage respond spaceKey title body parentId labels w = (Ok created, w') ->
  exists cid, prop created "id" = Some cid.
Proof.
  unfold createPage. intros H.
  apply bind_ok_inv in H as (_ & w1 & _ & H).
  apply bind_ok_inv in H as (result & w2 & _ & H).
  apply bind_ok_inv in H as (rid & w3 & Hid & H).
  apply bind_ok_inv in H as (_ & w4 & _ & H).
  apply bind_ok_inv in H as (_ & w5 & _ & H).
  injection H as <- <-. apply get_prop_ok_inv in Hid as [Hid _]. eauto.
Qed.

Lemma page_loops_erasure spaceKey delayMs pages :
  Forall (fun page => forall parentId pre i w,
            exists log w',
              audit_page respond spaceKey delayMs parentId pre i page w = (Ok log, w') /\
              build_page respond spaceKey delayMs parentId page w = (Ok tt, w'))
         pages ->
  forall parentId pre i w,
  exists log w',
    for_indexed (audit_page respond spaceKey delayMs parentId pre) i pages w =
      (Ok log, w') /\
    for_of (fun _ page => build_page respond spaceKey delayMs parentId page)
      pages tt w = (Ok tt, w').
Proof.
  induction 1 as [|x xs Hx _ IH]; intros parentId pre i w.
  - by exists [], w.
  - destruct (Hx parentId pre i w) as (l1 & w1 & Ha & Hb).
    destruct (IH parentId pre (S i) w1) as (l2 & w2 & Hl & Hr).
    exists (l1 ++ l2), w2. split.
    + rewrite for_indexed_cons, (bind_ok _ _ _ _ _ Ha).
      by rewrite (bind_ok _ _ _ _ _ Hl).
    + by rewrite for_of_cons, (bind_ok _ _ _ _ _ Hb).
Qed.

Lemma page_audit_node_erasure spaceKey delayMs page :
  forall parentId pre i w,
  exists log w',
    audit_page respond spaceKey delayMs parentId pre i page w = (Ok log, w') /\
    build_page respond spaceKey delayMs parentId page w = (Ok tt, w').
Proof.
  induction page as [t b l cs IH] using PageSpec_forest_ind.
  intros parentId pre i w. cbn [audit_page build_page].
  set (m := createPage respond spaceKey t b parentId (default [] l)).
  erewrite bind_ok by apply settle_run.
  destruct (m w) as [[v|e] w1] eqn:E; cbn [fst snd].
  - erewrite bind_ok by apply pace_run.
    set (w2 := if (0 <? delayMs)%Z then record w1 [Sleep (Some delayMs)] else w1).
    destruct cs as [|c cs].
    + eexists _, _. split; [by erewrite bind_ok by reflexivity|].
      erewrite try_catch_ok; [reflexivity|]. rewrite (bind_ok _ _ _ _ _ E).
      by erewrite bind_ok by apply pace_run.
    + destruct (createPage_ok_id _ _ _ _ _ _ _ _ E) as [cid Hcid].
      destruct (page_loops_erasure spaceKey delayMs (c :: cs) IH cid (pre ++ [i]) 0%nat w2)
        as (log & w3 & Hl & Hr).
      exists (mkAttempt (pre ++ [i]) t (Ok v) :: log), w3. split.
      * erewrite bind_ok; [reflexivity|].
        rewrite (bind_ok _ _ _ _ _ (get_prop_run _ _ _ _ Hcid)). exact Hl.
      * erewrite try_catch_ok; [reflexivity|]. rewrite (bind_ok _ _ _ _ _ E).
        erewrite bind_ok by apply pace_run. fold w2.
        rewrite (bind_ok _ _ _ _ _ (get_prop_run _ _ _ _ Hcid)). exact Hr.
  - unfold console_log. erewrite bind_ok by apply emit_run.
    eexists _, _. split; [reflexivity|].
    erewrite try_catch_throw by (by rewrite (bind_throw _ _ _ _ _ E)).
    apply emit_run.
Qed.

(** The instrumented walk over pages returns a log, and [buildPageTree]
    ends in the same world. *)
Lemma page_audit_erasure spaceKey parentId pages delayMs w :
  exists log w',
    buildPageTree_audit respond spaceKey parentId pages delayMs w = (Ok log, w') /\
    buildPageTree respond spaceKey parentId pages delayMs w = (Ok tt, w').
Proof.
  apply page_loops_erasure. apply Forall_forall. intros page _.
  apply page_audit_node_erasure.
Qed.

End Provisioning.
End Provisioning.
(** ** Shape of the attempt log *)

Module WalkFacts.

Lemma walk_positions pre i log :
  walk pre i log ->
  Forall (fun a => exists j below, i <= j /\ at_path a = pre ++ j :: below) log.
Proof.
  induction 1 as [pre i | pre i key e rest _ IH | pre i key v sub rest _ IH1 _ IH2].
  - constructor.
  - constructor; [by exists i, []; split; [lia|] |].
    eapply Forall_impl; [exact IH|]. intros a (j & below & Hj & ->).
    exists j, below. split; [lia | done].
  - constructor; [by exists i, []; split; [lia|] |].
    apply Forall_app. split.
    + eapply Forall_impl; [exact IH1|]. intros a (j & below & _ & ->).
      exists i, (j :: below). split; [lia|]. by rewrite <- app_assoc.
    + eapply Forall_impl; [exact IH2|]. intros a (j & below & Hj & ->).
      exists j, below. split; [lia | done].
Qed.

(** Two positions under the same prefix agree on the next index when one
    lies at or below the other. *)
Lemma same_branch (pre : list nat) i j below1 below2 tail :
  pre ++ i :: below1 = (pre ++ j :: below2) ++ tail -> i = j.
Proof.
  rewrite <- app_assoc. intros H. apply app_inv_head in H. by injection H.
Qed.

Lemma not_below_itself (p : list nat) : ~ descends p p.
Proof.
  intros (j & below & H). apply (f_equal length) in H.
  rewrite length_app in H. simpl in H. lia.
Qed.

(** A failed node has no entry below it. *)
Lemma walk_failed_is_leaf pre i log :
  walk pre i log ->
  forall a d, a ∈ log -> d ∈ log -> failed a ->
              ~ descends (at_path d) (at_path a).
Proof.
  induction 1 as [pre i | pre i key e rest Hrest IH
                 | pre i key v sub rest Hsub IH1 Hrest IH2];
    intros a d Ha Hd Hfail Hdesc.
  - by apply elem_of_nil in Ha.
  - pose proof (walk_positions _ _ _ Hrest) as Hpos.
    rewrite Forall_forall in Hpos.
    apply elem_of_cons in Ha as [-> | Ha], Hd as [-> | Hd].
    + by apply not_below_itself in Hdesc.
    + destruct (Hpos _ Hd) as (j & below & Hj & Hp).
      destruct Hdesc as (j' & below' & Hdesc). cbn [at_path] in Hdesc.
      rewrite Hp in Hdesc.
      change (j' :: below') with ([] ++ j' :: below') in Hdesc.
      apply same_branch in Hdesc. lia.
    + destruct (Hpos _ Ha) as (j & below & Hj & Hp).
      destruct Hdesc as (j' & below' & Hdesc). cbn [at_path] in Hdesc.
      rewrite Hp in Hdesc.
      assert (i = j); [|lia].
      apply (same_branch pre i j [] below (j' :: below')). exact Hdesc.
    + exact (IH a d Ha Hd Hfail Hdesc).
  - pose proof (walk_positions _ _ _ Hrest) as Hpos.
    pose proof (walk_positions _ _ _ Hsub) as Hpos'.
    rewrite Forall_forall in Hpos, Hpos'.
    apply elem_of_cons in Ha as [-> | Ha].
    { destruct Hfail as [e He]. discriminate. }
    apply elem_of_app in Ha as [Ha | Ha];
      apply elem_of_cons in Hd as [-> | Hd];
      try apply elem_of_app in Hd as [Hd | Hd].
    + destruct (Hpos' _ Ha) as (j & below & _ & Hp).
      destruct Hdesc as (j' & below' & Hdesc). cbn [at_path] in Hdesc.
      rewrite Hp in Hdesc. apply (f_equal length) in Hdesc.
      rewrite !length_app in Hdesc. simpl in Hdesc. lia.
    + exact (IH1 a d Ha Hd Hfail Hdesc).
    + destruct (Hpos' _ Ha) as (j & below & _ & Hp).
      destruct (Hpos _ Hd) as (j2 & below2 & Hj2 & Hp2).
      destruct Hdesc as (j' & below' & Hdesc). rewrite Hp, Hp2 in Hdesc.
      rewrite <- (app_assoc pre [i]) in Hdesc. simpl in Hdesc.
      apply same_branch in Hdesc. lia.
    + destruct (Hpos _ Ha) as (j & below & Hj & Hp).
      destruct Hdesc as (j' & below' & Hdesc). cbn [at_path] in Hdesc.
      rewrite Hp in Hdesc.
      assert (i = j); [|lia].
      apply (same_branch pre i j [] below (j' :: below')). exact Hdesc.
    + destruct (Hpos _ Ha) as (j & below & Hj & Hp).
      destruct (Hpos' _ Hd) as (j2 & below2 & _ & Hp2).
      destruct Hdesc as (j' & below' & Hdesc). rewrite Hp, Hp2 in Hdesc.
      rewrite <- (app_assoc pre [i]) in Hdesc. simpl in Hdesc.
      apply same_branch in Hdesc. lia.
    + exact (IH2 a d Ha Hd Hfail Hdesc).
Qed.

(** Every entry below the starting level comes after the entry of its
    parent, which was created. *)
Lemma walk_parent_first pre i log :
  walk pre i log ->
  forall before d after parent j,
    log = before ++ d :: after -> at_path d = parent ++ [j] ->
    parent = pre \/
    exists p v, p ∈ before /\ at_path p = parent /\ at_outcome p = Ok v.
Proof.
  induction 1 as [pre i | pre i key e rest Hrest IH
                 | pre i key v sub rest Hsub IH1 Hrest IH2];
    intros before d after parent j Hlog Hpath.
  - by destruct before.
  - destruct before as [|h before]; injection Hlog as <- Hlog.
    + left. cbn [at_path] in Hpath. by apply app_inj_tail in Hpath as [-> _].
    + destruct (IH _ _ _ _ _ Hlog Hpath) as [-> | (p & v & Hp & Hpp & Hv)];
        [by left | right].
      exists p, v. split; [by apply elem_of_cons; right | done].
  - destruct before as [|h before]; injection Hlog as <- Hlog.
    { left. cbn [at_path] in Hpath. by apply app_inj_tail in Hpath as [-> _]. }
    apply app_eq_app in Hlog as [l [[-> Hl] | [-> ->]]].
    + destruct l as [|x l].
      * rewrite app_nil_r in *. simpl in Hl. subst rest.
        destruct (IH2 [] d after parent j eq_refl Hpath)
          as [-> | (p & v' & Hp & _)]; [by left | by apply elem_of_nil in Hp].
      * injection Hl as <- ->.
        destruct (IH1 before d l parent j eq_refl Hpath)
          as [-> | (p & v' & Hp & Hpp & Hv)]; right.
        -- eexists _, v. split; [by apply elem_of_cons; left | done].
        -- exists p, v'. split; [by apply elem_of_cons; right | done].
    + destruct (IH2 l d after parent j eq_refl Hpath)
        as [-> | (p & v' & Hp & Hpp & Hv)]; [by left | right].
      exists p, v'. split; [|done].
      apply elem_of_cons; right. apply elem_of_app; right. exact Hp.
Qed.

Lemma successes_created log v :
  v ∈ successes log <-> exists a, a ∈ log /\ at_outcome a = Ok v.
Proof.
  induction log as [|a log IH]; simpl.
  - split; [by intros ?%elem_of_nil | by intros (a & ?%elem_of_nil & _)].
  - destruct (at_outcome a) as [x|e] eqn:E.
    + rewrite elem_of_cons, IH. split.
      * intros [-> | (a' & Ha' & Hv)]; [exists a | exists a'];
          rewrite elem_of_cons; auto.
      * intros (a' & [-> | Ha']%elem_of_cons & Hv); [left; congruence | eauto].
    + rewrite IH. split.
      * intros (a' & Ha' & Hv). exists a'. rewrite elem_of_cons. auto.
      * intros (a' & [-> | Ha']%elem_of_cons & Hv); [congruence | eauto].
Qed.

End WalkFacts.
Import WalkFacts Provisioning.

Module ProvisioningSpec.
Import Jira Confluence.
Section ProvisioningSpec.
Context {B : Type} (respond : B -> Request -> Reply * B).
Implicit Types w : World B.

Lemma issue_preorder_node_eq pre i n :
  issue_preorder_node pre i n =
  (pre ++ [i], summary n) :: issue_preorder (pre ++ [i]) 0 (children n).
Proof.
  destruct n as [ty s d p l c f cs]. cbn [issue_preorder_node summary children].
  f_equal. generalize 0%nat. induction cs as [|x cs IH]; intros j; [done|].
  cbn [issue_preorder]. by rewrite <- IH.
Qed.

Lemma page_preorder_node_eq pre i n :
  page_preorder_node pre i n =
  (pre ++ [i], title n) :: page_preorder (pre ++ [i]) 0 (pchildren n).
Proof.
  destruct n as [t b l cs]. cbn [page_preorder_node title pchildren].
  f_equal. generalize 0%nat. induction cs as [|x cs IH]; intros j; [done|].
  cbn [page_preorder]. by rewrite <- IH.
Qed.

(** *** Issues *)

Lemma children_log_shape projectKey result delayMs pre cs :
  forall i w log w',
    for_indexed (audit_child respond projectKey result delayMs pre) i cs w =
      (Ok log, w') ->
    walk pre i log /\ entry <$> log `sublist_of` issue_preorder pre i cs.
Proof.
  induction cs as [|c cs IH]; intros i w log w' H.
  - injection H as <- <-. split; [constructor | done].
  - rewrite for_indexed_cons in H.
    destruct (child_audit_erasure respond projectKey result delayMs pre i [] c w)
      as (a & w1 & Ha & Hp & Hk & _).
    rewrite (bind_ok _ _ _ _ _ Ha) in H.
    apply bind_ok_inv in H as (more & w2 & Hmore & H). injection H as <- <-.
    apply IH in Hmore as [Hwalk Hsub]. destruct a as [p k o]. simpl in Hp, Hk.
    subst p k. split.
    + destruct o as [v|e]; [|by constructor].
      by apply (walk_created pre i (summary c) v [] more); [constructor|].
    + cbn [issue_preorder]. rewrite issue_preorder_node_eq, fmap_cons.
      rewrite <- app_comm_cons. apply sublist_skip, sublist_inserts_l, Hsub.
Qed.

Lemma root_log_shape projectKey delayMs pre i issue w log w' :
  audit_root respond projectKey delayMs pre i issue w = (Ok log, w') ->
  (forall rest, walk pre (S i) rest -> walk pre i (log ++ rest)) /\
  entry <$> log `sublist_of` issue_preorder_node pre i issue.
Proof.
  unfold audit_root. intros H.
  erewrite bind_ok in H by apply settle_run.
  destruct (fst _) as [v|e].
  - erewrite bind_ok in H by apply pace_run.
    apply bind_ok_inv in H as (sub & w2 & Hsub & H). injection H as <- <-.
    apply children_log_shape in Hsub as [Hwalk Hsl]. split.
    + intros rest Hrest. simpl. by constructor.
    + rewrite issue_preorder_node_eq, fmap_cons. by apply sublist_skip.
  - unfold console_log in H. erewrite bind_ok in H by apply emit_run.
    injection H as <- <-. split.
    + intros rest Hrest. simpl. by constructor.
    + rewrite issue_preorder_node_eq. apply sublist_skip, sublist_nil_l.
Qed.

Lemma roots_log_shape projectKey delayMs pre issues :
  forall i w log w',
    for_indexed (audit_root respond projectKey delayMs pre) i issues w =
      (Ok log, w') ->
    walk pre i log /\ entry <$> log `sublist_of` issue_preorder pre i issues.
Proof.
  induction issues as [|x xs IH]; intros i w log w' H.
  - injection H as <- <-. split; [constructor | done].
  - rewrite for_indexed_cons in H.
    apply bind_ok_inv in H as (here & w1 & Hhere & H).
    apply bind_ok_inv in H as (more & w2 & Hmore & H). injection H as <- <-.
    apply root_log_shape in Hhere as [Hwalk Hsl].
    apply IH in Hmore as [Hwalk' Hsl']. split; [by apply Hwalk|].
    rewrite fmap_app. cbn [issue_preorder]. by apply sublist_app.
Qed.

(** *** Pages *)

Lemma pages_log_shape spaceKey delayMs pages :
  Forall (fun page => forall parentId pre i w log w',
            audit_page respond spaceKey delayMs parentId pre i page w = (Ok log, w') ->
            (forall rest, walk pre (S i) rest -> walk pre i (log ++ rest)) /\
            entry <$> log `sublist_of` page_preorder_node pre i page)
         pages ->
  forall parentId pre i w log w',
    for_indexed (audit_page respond spaceKey delayMs parentId pre) i pages w =
      (Ok log, w') ->
    walk pre i log /\ entry <$> log `sublist_of` page_preorder pre i pages.
Proof.
  induction 1 as [|x xs Hx _ IH]; intros parentId pre i w log w' H.
  - injection H as <- <-. split; [constructor | done].
  - rewrite for_indexed_cons in H.
    apply bind_ok_inv in H as (here & w1 & Hhere & H).
    apply bind_ok_inv in H as (more & w2 & Hmore & H). injection H as <- <-.
    apply Hx in Hhere as [Hwalk Hsl].
    apply IH in Hmore as [Hwalk' Hsl']. split; [by apply Hwalk|].
    rewrite fmap_app. cbn [page_preorder]. by apply sublist_app.
Qed.

Lemma page_log_shape spaceKey delayMs page :
  forall parentId pre i w log w',
    audit_page respond spaceKey delayMs parentId pre i page w = (Ok log, w') ->
    (forall rest, walk pre (S i) rest -> walk pre i (log ++ rest)) /\
    entry <$> log `sublist_of` page_preorder_node pre i page.
Proof.
  induction page as [t b l cs IH] using PageSpec_forest_ind.
  intros parentId pre i w log w' H. cbn [audit_page] in H.
  erewrite bind_ok in H by apply settle_run.
  rewrite page_preorder_node_eq. cbn [title pchildren].
  destruct (fst _) as [v|e].
  - erewrite bind_ok in H by apply pace_run.
    apply bind_ok_inv in H as (sub & w2 & Hsub & H). injection H as <- <-.
    assert (walk (pre ++ [i]) 0 sub /\
            entry <$> sub `sublist_of` page_preorder (pre ++ [i]) 0 cs)
      as [Hwalk Hsl].
    { destruct cs as [|c cs].
      - injection Hsub as <- <-. split; [constructor | done].
      - apply bind_ok_inv in Hsub as (cid & w3 & _ & Hsub).
        by eapply pages_log_shape. }
    split.
    + intros rest Hrest. simpl. by constructor.
    + rewrite fmap_cons. by apply sublist_skip.
  - unfold console_log in H. erewrite bind_ok in H by apply emit_run.
    injection H as <- <-. split.
    + intros rest Hrest. simpl. by constructor.
    + apply sublist_skip, sublist_nil_l.
Qed.

Lemma walk_gated log : walk [] 0 log -> parent_gated log.
Proof.
  intros Hwalk. split.
  - by eapply walk_failed_is_leaf.
  - intros before d after parent j Hlog Hpath Hne.
    by destruct (walk_parent_first _ _ _ Hwalk _ _ _ _ _ Hlog Hpath).
Qed.

(** C2: in [createIssueTree] and in [buildPageTree] alike, no node below a
    node whose creation failed is attempted, so none of them is among the
    values returned; and a node below the roots is attempted only after its
    parent, whose creation succeeded. *)
Theorem failed_node_shields_descendants :
  (forall projectKey issues delayMs w,
     exists log w',
       createIssueTree_audit respond projectKey issues delayMs w = (Ok log, w') /\
       createIssueTree respond projectKey issues delayMs w =
         (Ok (successes log), w') /\
       (forall v, v ∈ successes log ->
                  exists a, a ∈ log /\ at_outcome a = Ok v) /\
       parent_gated log) /\
  (forall spaceKey parentId pages delayMs w,
     exists log w',
       buildPageTree_audit respond spaceKey parentId pages delayMs w = (Ok log, w') /\
       buildPageTree respond spaceKey parentId pages delayMs w = (Ok tt, w') /\
       parent_gated log).
Proof.
  split.
  - intros projectKey issues delayMs w.
    destruct (issue_audit_erasure respond projectKey issues delayMs w)
      as (log & w' & Ha & Hb).
    exists log, w'. split; [done|]. split; [done|].
    split; [intros v Hv; by apply successes_created|].
    apply walk_gated. by eapply roots_log_shape.
  - intros spaceKey parentId pages delayMs w.
    destruct (page_audit_erasure respond spaceKey parentId pages delayMs w)
      as (log & w' & Ha & Hb).
    exists log, w'. split; [done|]. split; [done|].
    apply walk_gated. eapply pages_log_shape; [|exact Ha].
    apply Forall_forall. intros page _. apply page_log_shape.
Qed.

(** C8: the nodes are attempted in the order of the pre-order walk of the
    forest: the positions and keys of the log are a subsequence of the
    pre-order enumeration, and [createIssueTree] returns the values of the
    created nodes in that order. *)
Theorem results_in_preorder :
  (forall projectKey issues delayMs w,
     exists log w',
       createIssueTree_audit respond projectKey issues delayMs w = (Ok log, w') /\
       createIssueTree respond projectKey issues delayMs w =
         (Ok (successes log), w') /\
       entry <$> log `sublist_of` issue_preorder [] 0 issues) /\
  (forall spaceKey parentId pages delayMs w,
     exists log w',
       buildPageTree_audit respond spaceKey parentId pages delayMs w = (Ok log, w') /\
       buildPageTree respond spaceKey parentId pages delayMs w = (Ok tt, w') /\
       entry <$> log `sublist_of` page_preorder [] 0 pages).
Proof.
  split.
  - intros projectKey issues delayMs w.
    destruct (issue_audit_erasure respond projectKey issues delayMs w)
      as (log & w' & Ha & Hb).
    exists log, w'. split; [done|]. split; [done|].
    by eapply roots_log_shape.
  - intros spaceKey parentId pages delayMs w.
    destruct (page_audit_erasure respond spaceKey parentId pages delayMs w)
      as (log & w' & Ha & Hb).
    exists log, w'. split; [done|]. split; [done|].
    eapply pages_log_shape; [|exact Ha].
    apply Forall_forall. intros page _. apply page_log_shape.
Qed.

End ProvisioningSpec.
End ProvisioningSpec.
Module ReportSpec.
Import Jira Confluence.
Section ReportSpec.
Context {B : Type} (respond : B -> Request -> Reply * B).
Implicit Types w : World B.
Local Abbreviation emits := (emits (B:=B)).

Lemma emits_issue_fields P projectKey issueType summary description opts :
  emits P (issue_fields projectKey issueType summary description opts).
Proof.
  unfold issue_fields. apply emits_bind; [|intros; apply emits_ret].
  destruct (truthy _); [|apply emits_ret].
  destruct (io_components opts); apply emits_ret || apply emits_throw.
Qed.

(** [createIssue] puts nothing on the wire but POSTs to the issue
    endpoint. *)
Lemma createIssue_emits projectKey issueType summary description opts :
  emits (sends "POST" (API_V3 +:+ "/issue"))
    (createIssue respond projectKey issueType summary description opts).
Proof.
  unfold createIssue.
  apply emits_bind; [apply emits_issue_fields | intros fields].
  apply emits_bind; [apply atlassianRequest_emits | intros result].
  apply emits_bind; [apply emits_get_prop | intros rkey].
  apply emits_bind; [by apply emits_emit | intros _]. apply emits_ret.
Qed.

Lemma create_child_emits projectKey result delayMs created child :
  emits (sends "POST" (API_V3 +:+ "/issue"))
    (create_child respond projectKey result delayMs created child).
Proof.
  unfold create_child. apply emits_try_catch.
  - apply emits_bind; [apply emits_get_prop | intros parentKey].
    apply emits_bind; [apply createIssue_emits | intros childResult].
    apply emits_bind; [by apply emits_pace | intros _]. apply emits_ret.
  - intros e. apply emits_bind; [by apply emits_emit | intros _]. apply emits_ret.
Qed.

Lemma create_root_emits projectKey delayMs created issue :
  emits (sends "POST" (API_V3 +:+ "/issue"))
    (create_root respond projectKey delayMs created issue).
Proof.
  unfold create_root. apply emits_try_catch.
  - apply emits_bind; [apply createIssue_emits | intros result].
    apply emits_bind; [by apply emits_pace | intros _].
    apply emits_for_of. intros acc x. apply create_child_emits.
  - intros e. apply emits_bind; [by apply emits_emit | intros _]. apply emits_ret.
Qed.

Lemma createIssueTree_emits projectKey issues delayMs :
  emits (sends "POST" (API_V3 +:+ "/issue"))
    (createIssueTree respond projectKey issues delayMs).
Proof. apply emits_for_of. intros acc x. apply create_root_emits. Qed.

Lemma createPage_grows spaceKey title body parentId labels :
  emits (fun _ => True) (createPage respond spaceKey title body parentId labels).
Proof.
  unfold createPage.
  apply emits_bind; [by apply emits_emit | intros _].
  apply emits_bind;
    [eapply emits_weaken; [|apply atlassianRequest_emits]; done | intros result].
  apply emits_bind; [apply emits_get_prop | intros rid].
  apply emits_bind; [by apply emits_emit | intros _].
  apply emits_bind; [|intros; apply emits_ret].
  destruct labels; [apply emits_ret|].
  apply emits_try_catch; [|intros; apply emits_ret].
  apply emits_bind; [apply emits_get_prop | intros rid'].
  apply emits_bind; [|intros; apply emits_ret].
  eapply emits_weaken; [|apply atlassianRequest_emits]; done.
Qed.

Lemma reported_more evs1 evs evs2 a :
  reported evs a -> reported (evs1 ++ evs ++ evs2) a.
Proof.
  unfold reported. destruct (at_outcome a); [done|].
  intros [lead H]. exists lead. rewrite !elem_of_app. auto.
Qed.

Lemma for_indexed_reported {A} (step : nat -> A -> M B (list Attempt)) xs :
  Forall (fun x => forall i w l w', step i x w = (Ok l, w') ->
            exists evs, trace w' = trace w ++ evs /\ Forall (reported evs) l) xs ->
  forall i w log w',
    for_indexed step i xs w = (Ok log, w') ->
    exists evs, trace w' = trace w ++ evs /\ Forall (reported evs) log.
Proof.
  induction 1 as [|x xs Hstep _ IH]; intros i w log w' H.
  - injection H as <- <-. exists []. by rewrite app_nil_r.
  - rewrite for_indexed_cons in H.
    apply bind_ok_inv in H as (here & w1 & Hhere & H).
    apply bind_ok_inv in H as (more & w2 & Hmore & H). injection H as <- <-.
    apply Hstep in Hhere as (evs1 & Ht1 & F1).
    apply IH in Hmore as (evs2 & Ht2 & F2).
    exists (evs1 ++ evs2). rewrite Ht2, Ht1, app_assoc. split; [done|].
    apply Forall_app. split.
    + eapply Forall_impl; [exact F1|]. intros a Ha.
      apply (reported_more [] evs1 evs2 a Ha).
    + eapply Forall_impl; [exact F2|]. intros a Ha.
      rewrite <- (app_nil_r evs2). apply (reported_more evs1 evs2 [] a Ha).
Qed.

Lemma audit_child_reported projectKey result delayMs pre i child w l w' :
  audit_child respond projectKey result delayMs pre i child w = (Ok l, w') ->
  exists evs, trace w' = trace w ++ evs /\ Forall (reported evs) l.
Proof.
  unfold audit_child. intros H. erewrite bind_ok in H by apply settle_run.
  match type of H with context [fst (?m w)] => destruct (m w) as [r w1] eqn:E end.
  assert (exists evs0, trace w1 = trace w ++ evs0) as [evs0 Ht0].
  { assert (Hm : emits (fun _ => True)
                   (let* parentKey := get_prop result "key" in
                    createIssue respond projectKey (str_or (itype child) "Sub-task")
                      (summary child) (or_else (description child) (JStr ""))
                      (node_opts parentKey child))).
    { apply emits_bind; [apply emits_get_prop | intros parentKey].
      eapply emits_weaken; [|apply createIssue_emits]. done. }
    apply Hm in E as (evs0 & Ht0 & _). eauto. }
  cbn [fst snd] in H. destruct r as [v|e].
  - erewrite bind_ok in H by apply pace_run. injection H as <- <-.
    destruct (0 <? delayMs)%Z; cbn [trace record]; rewrite Ht0, <- ?app_assoc;
      eexists; (split; [reflexivity|]); by repeat constructor.
  - unfold console_log in H. erewrite bind_ok in H by apply emit_run.
    injection H as <- <-. cbn [trace record]. rewrite Ht0, <- app_assoc.
    eexists. split; [reflexivity|]. constructor; [|constructor].
    exists "    Error creating child ". cbn [at_key at_outcome].
    rewrite elem_of_app. right. apply list_elem_of_singleton. reflexivity.
Qed.

Lemma audit_root_reported projectKey delayMs pre i issue w l w' :
  audit_root respond projectKey delayMs pre i issue w = (Ok l, w') ->
  exists evs, trace w' = trace w ++ evs /\ Forall (reported evs) l.
Proof.
  unfold audit_root. intros H. erewrite bind_ok in H by apply settle_run.
  match type of H with context [fst (?m w)] => destruct (m w) as [r w1] eqn:E end.
  assert (exists evs0, trace w1 = trace w ++ evs0) as [evs0 Ht0].
  { apply createIssue_emits in E as (evs0 & Ht0 & _). eauto. }
  cbn [fst snd] in H. destruct r as [v|e].
  - erewrite bind_ok in H by apply pace_run.
    apply bind_ok_inv in H as (sub & w2 & Hsub & H). injection H as <- <-.
    eapply for_indexed_reported in Hsub as (evs2 & Ht2 & F2);
      [|apply Forall_forall; intros; by eapply audit_child_reported].
    assert (exists evs1, trace w2 = trace w ++ evs1 ++ evs2) as [evs1 Ht1].
    { rewrite Ht2. destruct (0 <? delayMs)%Z; cbn [trace record]; rewrite Ht0;
        [exists (evs0 ++ [Sleep (Some delayMs)]) | exists evs0];
        by rewrite <- ?app_assoc. }
    exists (evs1 ++ evs2). split; [done|]. constructor; [done|].
    eapply Forall_impl; [exact F2|]. intros a Ha.
    rewrite <- (app_nil_r evs2). apply (reported_more evs1 evs2 [] a Ha).
  - unfold console_log in H. erewrite bind_ok in H by apply emit_run.
    injection H as <- <-. cbn [trace record]. rewrite Ht0, <- app_assoc.
    eexists. split; [reflexivity|]. constructor; [|constructor].
    exists "  Error creating ". cbn [at_key at_outcome].
    rewrite elem_of_app. right. apply list_elem_of_singleton. reflexivity.
Qed.

Lemma audit_page_reported spaceKey delayMs page :
  forall parentId pre i w l w',
    audit_page respond spaceKey delayMs parentId pre i page w = (Ok l, w') ->
    exists evs, trace w' = trace w ++ evs /\ Forall (reported evs) l.
Proof.
  induction page as [t b lb cs IH] using PageSpec_forest_ind.
  intros parentId pre i w l w' H. cbn [audit_page] in H.
  erewrite bind_ok in H by apply settle_run.
  match type of H with context [fst (?m w)] => destruct (m w) as [r w1] eqn:E end.
  assert (exists evs0, trace w1 = trace w ++ evs0) as [evs0 Ht0].
  { apply createPage_grows in E as (evs0 & Ht0 & _). eauto. }
  cbn [fst snd] in H. destruct r as [v|e].
  - erewrite bind_ok in H by apply pace_run.
    apply bind_ok_inv in H as (sub & w2 & Hsub & H). injection H as <- <-.
    assert (exists evs2, trace w2 =
              trace (if (0 <? delayMs)%Z then record w1 [Sleep (Some delayMs)]
                     else w1) ++ evs2 /\ Forall (reported evs2) sub)
      as (evs2 & Ht2 & F2).
    { destruct cs as [|c cs].
      - injection Hsub as <- <-. exists []. by rewrite app_nil_r.
      - apply bind_ok_inv in Hsub as (cid & w3 & Hcid & Hsub).
        apply get_prop_ok_inv in Hcid as [_ ->].
        eapply for_indexed_reported in Hsub; [exact Hsub|].
        eapply Forall_impl; [exact IH|]. intros x Hx j wa la wb. apply Hx. }
    assert (exists evs1, trace w2 = trace w ++ evs1 ++ evs2) as [evs1 Ht1].
    { rewrite Ht2. destruct (0 <? delayMs)%Z; cbn [trace record]; rewrite Ht0;
        [exists (evs0 ++ [Sleep (Some delayMs)]) | exists evs0];
        by rewrite <- ?app_assoc. }
    exists (evs1 ++ evs2). split; [done|]. constructor; [done|].
    eapply Forall_impl; [exact F2|]. intros a Ha.
    rewrite <- (app_nil_r evs2). apply (reported_more evs1 evs2 [] a Ha).
  - unfold console_log in H. erewrite bind_ok in H by apply emit_run.
    injection H as <- <-. cbn [trace record]. rewrite Ht0, <- app_assoc.
    eexists. split; [reflexivity|]. constructor; [|constructor].
    exists "    Error creating ". cbn [at_key at_outcome].
    rewrite elem_of_app. right. apply list_elem_of_singleton. reflexivity.
Qed.

(** C4, as the code has it: [createIssueTree] returns the values of the
    nodes it created, in the order of the attempts, and nothing for a node
    whose creation failed; [buildPageTree] returns nothing at all.  A
    failed node is reported on the console only, by a line that quotes its
    key and carries the message of the error. *)
Theorem report_lists_created_only :
  (forall projectKey issues delayMs w,
     exists log w' evs,
       createIssueTree_audit respond projectKey issues delayMs w = (Ok log, w') /\
       createIssueTree respond projectKey issues delayMs w =
         (Ok (successes log), w') /\
       (forall v, v ∈ successes log <-> exists a, a ∈ log /\ at_outcome a = Ok v) /\
       trace w' = trace w ++ evs /\ Forall (reported evs) log) /\
  (forall spaceKey parentId pages delayMs w,
     exists log w' evs,
       buildPageTree_audit respond spaceKey parentId pages delayMs w = (Ok log, w') /\
       buildPageTree respond spaceKey parentId pages delayMs w = (Ok tt, w') /\
       trace w' = trace w ++ evs /\ Forall (reported evs) log).
Proof.
  split.
  - intros projectKey issues delayMs w.
    destruct (issue_audit_erasure respond projectKey issues delayMs w)
      as (log & w' & Ha & Hb).
    pose proof Ha as Hrep.
    eapply for_indexed_reported in Hrep as (evs & Ht & F);
      [|apply Forall_forall; intros; by eapply audit_root_reported].
    exists log, w', evs. split; [done|]. split; [done|].
    split; [apply successes_created | done].
  - intros spaceKey parentId pages delayMs w.
    destruct (page_audit_erasure respond spaceKey parentId pages delayMs w)
      as (log & w' & Ha & Hb).
    pose proof Ha as Hrep.
    eapply for_indexed_reported in Hrep as (evs & Ht & F);
      [|apply Forall_forall; intros; by eapply audit_page_reported].
    by exists log, w', evs.
Qed.

End ReportSpec.
End ReportSpec.
Module RerunSpec.
Import Jira Confluence.
Section RerunSpec.
Context {B : Type} (respond : B -> Request -> Reply * B).
Implicit Types w : World B.

Lemma atlassianRequest_refused method path body opts w :
  refuses_all respond ->
  exists e w1, atlassianRequest respond method path body opts w = (Throw e, w1).
Proof.
  intros Href. unfold atlassianRequest. rewrite atlassianRequest_with_eq.
  destruct (resolve_target opts w) as [[t|e] w0] eqn:Ht.
  - rewrite (bind_ok _ _ _ _ _ Ht).
    erewrite bind_ok by apply https_request_run.
    destruct (Href (remote w0) (request_of t method path body opts))
      as (res & b' & -> & Hst).
    cbn [fst snd]. unfold after_reply. rewrite Hst. cbn. eauto.
  - rewrite (bind_throw _ _ _ _ _ Ht). eauto.
Qed.

Lemma createIssue_refused projectKey issueType summary description opts w :
  refuses_all respond ->
  exists e w1,
    createIssue respond projectKey issueType summary description opts w = (Throw e, w1).
Proof.
  intros Href. unfold createIssue.
  destruct (issue_fields projectKey issueType summary description opts w)
    as [[f|e] w0] eqn:Hf.
  - rewrite (bind_ok _ _ _ _ _ Hf).
    destruct (atlassianRequest_refused "POST" (API_V3 +:+ "/issue")
                (Some (JObj [("fields", JObj f)])) no_opts w0 Href) as (e & w1 & He).
    rewrite (bind_throw _ _ _ _ _ He). eauto.
  - rewrite (bind_throw _ _ _ _ _ Hf). eauto.
Qed.

Lemma create_root_refused projectKey delayMs created issue w :
  refuses_all respond ->
  exists w1, create_root respond projectKey delayMs created issue w = (Ok created, w1).
Proof.
  intros Href. unfold create_root.
  destruct (createIssue_refused projectKey (str_or (itype issue) "Story")
              (summary issue) (or_else (description issue) (JStr ""))
              (node_opts JUndefined issue) w Href) as (e & w1 & He).
  erewrite try_catch_throw by (by rewrite (bind_throw _ _ _ _ _ He)).
  unfold console_log. erewrite bind_ok by apply emit_run. eauto.
Qed.

(** C5, as the code has it: [createIssueTree] creates every node through
    [createIssue], which has no conflict recovery: whatever the backend
    answers, a run puts nothing on the wire but POSTs to the issue
    endpoint, never a fetch; and where the backend refuses every create
    with 409, as one that holds the keys already does, the run returns no
    created node at all. *)
Theorem tree_create_never_fetches :
  (forall projectKey issues delayMs w r w',
     createIssueTree respond projectKey issues delayMs w = (r, w') ->
     exists evs, trace w' = trace w ++ evs /\
                 Forall (sends "POST" (API_V3 +:+ "/issue")) evs) /\
  (refuses_all respond ->
   forall projectKey issues delayMs w,
     exists w', createIssueTree respond projectKey issues delayMs w = (Ok [], w')).
Proof.
  split.
  - intros projectKey issues delayMs w r w' H.
    by apply ReportSpec.createIssueTree_emits in H.
  - intros Href projectKey issues delayMs. unfold createIssueTree.
    generalize (@nil JsValue) as created.
    induction issues as [|x xs IH]; intros created w.
    + by exists w.
    + destruct (create_root_refused projectKey delayMs created x w Href) as (w1 & H1).
      destruct (IH created w1) as (w2 & H2). exists w2.
      by rewrite for_of_cons, (bind_ok _ _ _ _ _ H1).
Qed.

(** *** Configuration errors inside the provisioners *)

Lemma issue_fields_pure projectKey issueType summary description opts w :
  exists r, @issue_fields B projectKey issueType summary description opts w = (r, w).
Proof.
  unfold issue_fields, bind.
  destruct (truthy _); [destruct (io_components opts)|]; by eexists.
Qed.

Lemma local_no_log evs : Forall is_local evs -> logs evs = [].
Proof.
  unfold logs. induction 1 as [|ev evs Hev _ IH]; [done|].
  destruct ev; try done; simpl; exact IH.
Qed.

Lemma logs_app tr1 tr2 : logs (tr1 ++ tr2) = logs tr1 ++ logs tr2.
Proof. apply omap_app. Qed.

Lemma misconfigured_check opts c :
  misconfigured opts c ->
  exists e, check_target opts c = Throw e /\ is_config_error e.
Proof.
  intros Hmis. unfold check_target, is_config_error.
  destruct Hmis as [H | [H | H]].
  - rewrite H. cbn. eauto.
  - destruct (String.eqb (effective_domain opts c) ""); [eauto|].
    rewrite H. cbn. eauto.
  - destruct (String.eqb (effective_domain opts c) ""); [eauto|].
    rewrite H. cbn. eauto.
Qed.

Lemma quiet_step_log c w w1 ls line :
  quiet_step c w w1 ls -> quiet_step c w (record w1 [Log line]) (ls ++ [line]).
Proof.
  intros (Hc & Hr & evs & Ht & Hn & Hs & Hl). split; [|split; [done|]].
  - by rewrite loadConfig_value_record.
  - exists (evs ++ [Log line]). cbn [trace record]. rewrite Ht, app_assoc.
    split; [done|]. by rewrite net_calls_app, sleeps_app, logs_app, Hn, Hs, Hl.
Qed.

Lemma quiet_step_trans c w w1 w2 ls1 ls2 :
  quiet_step c w w1 ls1 -> quiet_step c w1 w2 ls2 -> quiet_step c w w2 (ls1 ++ ls2).
Proof.
  intros (_ & Hr1 & evs1 & Ht1 & Hn1 & Hs1 & Hl1) (Hc & Hr2 & evs2 & Ht2 & Hn2 & Hs2 & Hl2).
  split; [done|]. split; [congruence|]. exists (evs1 ++ evs2).
  rewrite Ht2, Ht1, app_assoc. split; [done|].
  by rewrite net_calls_app, sleeps_app, logs_app, Hn1, Hn2, Hs1, Hs2, Hl1, Hl2.
Qed.

Lemma refused_request c e method path body w :
  fst (loadConfig None w) = Ok c -> check_target no_opts c = Throw e ->
  exists w1,
    atlassianRequest respond method path body no_opts w = (Throw e, w1) /\
    quiet_step c w w1 [].
Proof.
  intros Hc Hchk. destruct (loadConfig None w) as [r w1] eqn:E.
  cbn [fst] in Hc. subst r. exists w1. split.
  - unfold atlassianRequest. rewrite atlassianRequest_with_eq.
    erewrite bind_throw; [reflexivity|].
    by rewrite resolve_target_unfold, E, Hchk.
  - pose proof (loadConfig_stores _ _ _ _ E) as Hst.
    apply offline_loadConfig in E as (Hr & _ & _ & _ & evs & Ht & Hloc).
    split; [by rewrite (loadConfig_cached _ _ _ Hst)|]. split; [done|].
    exists evs. split; [done|].
    by rewrite (local_no_net _ Hloc), (local_no_sleep _ Hloc), (local_no_log _ Hloc).
Qed.

Lemma refused_issue c e projectKey issueType summary description opts w :
  fst (loadConfig None w) = Ok c -> check_target no_opts c = Throw e ->
  exists w1,
    createIssue respond projectKey issueType summary description opts w =
      (Throw (if truthy (io_components opts)
              then match io_components opts with
                   | JArr _ => e
                   | _ => Error "opts.components.map is not a function"
                   end
              else e), w1) /\
    quiet_step c w w1 [].
Proof.
  intros Hc Hchk. unfold createIssue.
  assert (Hquiet : quiet_step c w w []).
  { split; [done|]. split; [done|]. exists []. by rewrite app_nil_r. }
  destruct (issue_fields_pure projectKey issueType summary description opts w)
    as [[f|e'] Hf].
  - rewrite (bind_ok _ _ _ _ _ Hf).
    destruct (refused_request c e "POST" (API_V3 +:+ "/issue")
                (Some (JObj [("fields", JObj f)])) w Hc Hchk) as (w1 & He & Hq).
    rewrite (bind_throw _ _ _ _ _ He). exists w1. split; [|done].
    do 2 f_equal. revert Hf. unfold issue_fields, bind.
    destruct (truthy (io_components opts)); [|done].
    by destruct (io_components opts).
  - rewrite (bind_throw _ _ _ _ _ Hf). exists w. split; [|done].
    do 2 f_equal. revert Hf. unfold issue_fields, bind.
    destruct (truthy (io_components opts)); [|done].
    destruct (io_components opts); by intros [= <-].
Qed.

Lemma refused_root c e projectKey delayMs created issue w :
  fst (loadConfig None w) = Ok c -> check_target no_opts c = Throw e ->
  exists w1,
    create_root respond projectKey delayMs created issue w = (Ok created, w1) /\
    quiet_step c w w1
      ["  Error creating " +:+ dquote +:+ summary issue +:+ dquote +:+ ": " +:+
       message (if truthy (components issue)
                then match components issue with
                     | JArr _ => e
                     | _ => Error "opts.components.map is not a function"
                     end
                else e)].
Proof.
  intros Hc Hchk.
  destruct (refused_issue c e projectKey (str_or (itype issue) "Story")
              (summary issue) (or_else (description issue) (JStr ""))
              (node_opts JUndefined issue) w Hc Hchk) as (w1 & He & Hq).
  cbn [node_opts io_components] in He.
  eexists. split.
  - unfold create_root.
    erewrite try_catch_throw by (by rewrite (bind_throw _ _ _ _ _ He)).
    unfold console_log. by erewrite bind_ok by apply emit_run.
  - by apply (quiet_step_log c w w1 []).
Qed.

Lemma refused_forest c e projectKey delayMs issues : forall created w,
  fst (loadConfig None w) = Ok c -> check_target no_opts c = Throw e ->
  exists w1,
    for_of (create_root respond projectKey delayMs) issues created w =
      (Ok created, w1) /\
    quiet_step c w w1
      ((fun x =>
          "  Error creating " +:+ dquote +:+ summary x +:+ dquote +:+ ": " +:+
          message (if truthy (components x)
                   then match components x with
                        | JArr _ => e
                        | _ => Error "opts.components.map is not a function"
                        end
                   else e)) <$> issues).
Proof.
  induction issues as [|x xs IH]; intros created w Hc Hchk.
  - exists w. split; [done|]. split; [done|]. split; [done|].
    exists []. by rewrite app_nil_r.
  - destruct (refused_root c e projectKey delayMs created x w Hc Hchk)
      as (w1 & H1 & Hq1).
    destruct (IH created w1 (proj1 Hq1) Hchk) as (w2 & H2 & Hq2).
    exists w2. split.
    + rewrite for_of_cons. by rewrite (bind_ok _ _ _ _ _ H1).
    + apply (quiet_step_trans c w w1 w2 [_] _ Hq1 Hq2).
Qed.

Lemma refused_page c e spaceKey delayMs parentId page w :
  fst (loadConfig None w) = Ok c -> check_target no_opts c = Throw e ->
  exists w1,
    build_page respond spaceKey delayMs parentId page w = (Ok tt, w1) /\
    quiet_step c w w1
      ["  Creating page: " +:+ title page +:+
       (if truthy (or_null parentId)
        then " (under " +:+ to_string (or_null parentId) +:+ ")" else "");
       "    Error creating " +:+ dquote +:+ title page +:+ dquote +:+ ": " +:+
       message e].
Proof.
  intros Hc Hchk. destruct page as [t b l cs]. cbn [title build_page].
  set (line := "  Creating page: " +:+ t +:+
               (if truthy (or_null parentId)
                then " (under " +:+ to_string (or_null parentId) +:+ ")" else "")).
  destruct (refused_request c e "POST" (API +:+ "/content")
              (Some (page_payload spaceKey t b (or_null parentId)))
              (record w [Log line])) as (w1 & He & Hq);
    [by rewrite loadConfig_value_record | done |].
  assert (Hpage : createPage respond spaceKey t b parentId (default [] l) w =
                  (Throw e, w1)).
  { unfold createPage, console_log. cbv zeta. fold line.
    erewrite bind_ok by apply emit_run. by rewrite (bind_throw _ _ _ _ _ He). }
  eexists. split.
  - erewrite try_catch_throw by (by rewrite (bind_throw _ _ _ _ _ Hpage)).
    apply emit_run.
  - apply (quiet_step_log c w w1 [line]).
    assert (Hq0 : quiet_step c w (record w [Log line]) [line]).
    { apply (quiet_step_log c w w []).
      split; [done|]. split; [done|]. exists []. by rewrite app_nil_r. }
    apply (quiet_step_trans c w _ w1 [line] [] Hq0) in Hq.
    by rewrite app_nil_r in Hq.
Qed.

Lemma refused_pages c e spaceKey delayMs parentId pages : forall w,
  fst (loadConfig None w) = Ok c -> check_target no_opts c = Throw e ->
  exists w1,
    for_of (fun _ page => build_page respond spaceKey delayMs parentId page)
      pages tt w = (Ok tt, w1) /\
    quiet_step c w w1
      (flat_map
         (fun p =>
            ["  Creating page: " +:+ title p +:+
             (if truthy (or_null parentId)
              then " (under " +:+ to_string (or_null parentId) +:+ ")" else "");
             "    Error creating " +:+ dquote +:+ title p +:+ dquote +:+ ": " +:+
             message e]) pages).
Proof.
  induction pages as [|x xs IH]; intros w Hc Hchk.
  - exists w. split; [done|]. split; [done|]. split; [done|].
    exists []. by rewrite app_nil_r.
  - destruct (refused_page c e spaceKey delayMs parentId x w Hc Hchk)
      as (w1 & H1 & Hq1).
    destruct (IH w1 (proj1 Hq1) Hchk) as (w2 & H2 & Hq2).
    exists w2. split.
    + rewrite for_of_cons. by rewrite (bind_ok _ _ _ _ _ H1).
    + apply (quiet_step_trans c w w1 w2 _ _ Hq1 Hq2).
Qed.

(** C9, as the code has it: a missing domain, or a credential that is
    missing or the encoding of an empty e-mail and token, makes
    [atlassianRequest] throw a configuration error in its synchronous
    prelude, before anything is sent or awaited.  Inside [createIssueTree]
    and [buildPageTree] that error is caught like any other failure of a
    node: for every root, in order, the failure is printed with the name of
    the node and the message of the error, the run goes on to the next
    sibling and completes normally, with no node created, no request sent
    and no timer set. *)
Theorem config_error_is_caught_per_node :
  (forall method path body opts w,
     misconfigured_at opts w ->
     exists e w1,
       resolve_target opts w = (Throw e, w1) /\
       atlassianRequest respond method path body opts w = (Throw e, w1) /\
       is_config_error e /\ remote w1 = remote w /\
       net_calls (trace w1) = net_calls (trace w) /\
       sleeps (trace w1) = sleeps (trace w)) /\
  (forall projectKey issues delayMs w,
     misconfigured_at no_opts w ->
     exists e w' evs,
       is_config_error e /\
       createIssueTree respond projectKey issues delayMs w = (Ok [], w') /\
       remote w' = remote w /\ net_calls (trace w') = net_calls (trace w) /\
       trace w' = trace w ++ evs /\ sleeps evs = [] /\
       logs evs =
         (fun x =>
            "  Error creating " +:+ dquote +:+ summary x +:+ dquote +:+ ": " +:+
            message (if truthy (components x)
                     then match components x with
                          | JArr _ => e
                          | _ => Error "opts.components.map is not a function"
                          end
                     else e)) <$> issues) /\
  (forall spaceKey parentId pages delayMs w,
     misconfigured_at no_opts w ->
     exists e w' evs,
       is_config_error e /\
       buildPageTree respond spaceKey parentId pages delayMs w = (Ok tt, w') /\
       remote w' = remote w /\ net_calls (trace w') = net_calls (trace w) /\
       trace w' = trace w ++ evs /\ sleeps evs = [] /\
       logs evs =
         flat_map
           (fun p =>
              ["  Creating page: " +:+ title p +:+
               (if truthy (or_null parentId)
                then " (under " +:+ to_string (or_null parentId) +:+ ")" else "");
               "    Error creating " +:+ dquote +:+ title p +:+ dquote +:+ ": " +:+
               message e]) pages).
Proof.
  split; [|split].
  - intros method path body opts w Hmis.
    destruct (config_error_before_network respond method path body opts w Hmis)
      as (c & e & w1 & _ & _ & _ & Hpre & Hrun & He & Hr & evs & Ht & Hloc).
    exists e, w1. repeat (split; [done|]).
    by rewrite Ht, net_calls_app, sleeps_app, (local_no_net _ Hloc),
      (local_no_sleep _ Hloc), !app_nil_r.
  - intros projectKey issues delayMs w (c & Hc & Hmis).
    destruct (misconfigured_check _ _ Hmis) as (e & Hchk & He).
    destruct (refused_forest c e projectKey delayMs issues [] w Hc Hchk)
      as (w' & Hrun & _ & Hr & evs & Ht & Hn & Hs & Hl).
    exists e, w', evs. repeat (split; [done|]).
    split; [by rewrite Ht, net_calls_app, Hn, app_nil_r|]. done.
  - intros spaceKey parentId pages delayMs w (c & Hc & Hmis).
    destruct (misconfigured_check _ _ Hmis) as (e & Hchk & He).
    destruct (refused_pages c e spaceKey delayMs parentId pages w Hc Hchk)
      as (w' & Hrun & _ & Hr & evs & Ht & Hn & Hs & Hl).
    exists e, w', evs. repeat (split; [done|]).
    split; [by rewrite Ht, net_calls_app, Hn, app_nil_r|]. done.
Qed.

End RerunSpec.
End RerunSpec.
(** ** The theorems at work on concrete runs *)

Import Jira Confluence Fixtures Stated.
Import ClientSpec UploadSpec CreatorSpec ProvisioningSpec ReportSpec RerunSpec.

Lemma retry_bound_witness :
  (exists e w' evs,
     atlassianRequest scripted "GET" "/rest/api/3/myself" None no_opts
       (boot [throttle None; throttle (Some "2"); throttle None; throttle None] creds)
     = (Throw e, w') /\
     statusCode e = Some 429%Z /\ remote w' = [] /\
     trace w' = [] ++ evs /\
     net_calls evs = replicate 4 whoami /\ length (sleeps evs) = 3) /\
  (exists w' evs,
     atlassianRequest scripted "GET" "/rest/api/3/myself" None no_opts
       (boot [throttle None; throttle (Some "2"); reply 200 "pong" None] creds)
     = (Ok (JStr "pong"), w') /\
     remote w' = [] /\ trace w' = [] ++ evs /\
     net_calls evs = replicate 3 whoami /\ length (sleeps evs) = 2).
Proof.
  split.
  - refine (proj1 (retry_bound scripted "GET" "/rest/api/3/myself" None no_opts
                     (boot [throttle None; throttle (Some "2"); throttle None;
                            throttle None] creds)
                     acme
                     (snd (resolve_target no_opts
                             (boot [throttle None; throttle (Some "2");
                                    throttle None; throttle None] creds))) _) [] _).
    + vm_compute. reflexivity.
    + repeat (eapply throttled_S; [reflexivity | reflexivity |]).
      apply throttled_O.
  - refine (proj1 (proj2
              (retry_bound scripted "GET" "/rest/api/3/myself" None no_opts
                 (boot [throttle None; throttle (Some "2"); reply 200 "pong" None]
                    creds)
                 acme
                 (snd (resolve_target no_opts
                         (boot [throttle None; throttle (Some "2");
                                reply 200 "pong" None] creds))) _))
              2 [reply 200 "pong" None] (mkResponse 200 ∅ "pong" None) [] _ _ _ _).
    + vm_compute. reflexivity.
    + cbn. lia.
    + repeat (eapply throttled_S; [reflexivity | reflexivity |]).
      apply throttled_O.
    + reflexivity.
    + reflexivity.
Defined.

Lemma unparsable_hint_waits_NaN_witness :
  retry_delay (mkResponse 429 {[ "retry-after" := "Wed, 21 Oct 2015 07:28:00 GMT" ]}
                 "slow down" None) <> Some 5000%Z /\
  exists r w' evs,
    atlassianRequest scripted "GET" "/rest/api/3/myself" None no_opts
      (boot [throttle (Some "Wed, 21 Oct 2015 07:28:00 GMT");
             reply 200 "pong" None] creds) = (r, w') /\
    trace w' =
      trace (snd (resolve_target no_opts
                    (boot [throttle (Some "Wed, 21 Oct 2015 07:28:00 GMT");
                           reply 200 "pong" None] creds))) ++
      Net whoami ::
      Log ("  Rate limited. Retrying in NaNs... (" +:+ pretty 3%nat +:+
           " retries left)") ::
      Sleep None :: evs.
Proof.
  refine (unparsable_hint_waits_NaN scripted "GET" "/rest/api/3/myself" None no_opts
            (boot [throttle (Some "Wed, 21 Oct 2015 07:28:00 GMT");
                   reply 200 "pong" None] creds)
            acme _ _ [reply 200 "pong" None] 2
            "Wed, 21 Oct 2015 07:28:00 GMT" _ _ _ _ _ _ _).
  - vm_compute. reflexivity.
  - reflexivity.
  - reflexivity.
  - reflexivity.
  - reflexivity.
  - discriminate.
  - reflexivity.
Defined.

Lemma conflict_resolves_to_fetch_witness :
  createProject scripted "ACME" "Acme" (Build_ProjectOpts None None None None)
    (boot [reply 409 "conflict" None;
           reply 200 "found" (Some (JObj [("key", JStr "ACME")]))] creds)
  = atlassianRequest scripted "GET" (API_V3 +:+ "/project/" +:+ "ACME") None no_opts
      (record
         (snd (atlassianRequest scripted "POST" (API_V3 +:+ "/project")
                 (Some (project_payload "ACME" "Acme"
                          (Build_ProjectOpts None None None None))) no_opts
                 (record
                    (boot [reply 409 "conflict" None;
                           reply 200 "found" (Some (JObj [("key", JStr "ACME")]))]
                       creds)
                    [Log ("Creating JIRA project: " +:+ "Acme" +:+ " (" +:+
                          "ACME" +:+ ")")])))
         [Log ("  Project " +:+ "ACME" +:+ " already exists, fetching...")]).
Proof.
  refine (proj1 (proj1 (conflict_resolves_to_fetch scripted "ACME" "Acme"
                          (boot [reply 409 "conflict" None;
                                 reply 200 "found"
                                   (Some (JObj [("key", JStr "ACME")]))] creds))
                   (Build_ProjectOpts None None None None)
                   (http_error (mkResponse 409 ∅ "conflict" None)) _ _) _).
  - vm_compute. reflexivity.
  - reflexivity.
Defined.

Lemma upload_falls_back_once_witness :
  let w := with_file [reply 404 "no such attachment" None; reply 500 "boom" None]
             "shots/home.png" "PNG" in
  let eol := String "013"%char (String "010"%char "") in
  let quote := String "034"%char "" in
  let payload :=
    "------FormBoundaryk3x9" +:+ eol +:+
    "Content-Disposition: form-data; name=" +:+ quote +:+ "file" +:+ quote +:+
    "; filename=" +:+ quote +:+ "home.png" +:+ quote +:+ eol +:+
    "Content-Type: image/png" +:+ eol +:+ eol +:+
    "PNG" +:+ eol +:+
    "------FormBoundaryk3x9--" +:+ eol in
  let sent method :=
    {| rq_hostname := "acme.atlassian.net";
       rq_path := "/wiki/rest/api/content/7/child/attachment";
       rq_method := method;
       rq_headers :=
         [("Authorization", "Basic bWVAeC5pbzp0b2s=");
          ("Content-Type", "multipart/form-data; boundary=----FormBoundaryk3x9");
          ("X-Atlassian-Token", "nocheck");
          ("Content-Length", "148")];
       rq_body := Some (BRaw payload) |} in
  let '(r, w') :=
    uploadAttachment scripted "k3x9" "/wiki/rest/api/content/7/child/attachment"
      "shots/home.png" "home.png" no_opts w in
  trace w' = trace (snd (loadConfig None w)) ++
             [FsRead "shots/home.png"; Net (sent "PUT"); Net (sent "POST")] /\
  remote w' = [] /\
  r = Throw (Error "Upload failed: HTTP 500: boom").
Proof.
  exact (upload_falls_back_once scripted "k3x9"
           "/wiki/rest/api/content/7/child/attachment" "shots/home.png"
           "home.png" no_opts
           (with_file [reply 404 "no such attachment" None; reply 500 "boom" None]
              "shots/home.png" "PNG")
           acme_config
           (snd (loadConfig None
                   (with_file [reply 404 "no such attachment" None;
                               reply 500 "boom" None] "shots/home.png" "PNG")))
           "PNG" (mkResponse 404 ∅ "no such attachment" None)
           [reply 500 "boom" None]
           ltac:(vm_compute; reflexivity) ltac:(vm_compute; reflexivity)
           ltac:(reflexivity) ltac:(reflexivity)).
Defined.

Lemma loadConfig_memoised_until_reset_witness :
  loadConfig (Some "/etc/other.env") (snd (loadConfig None (boot tt creds)))
  = (Ok acme_config, snd (loadConfig None (boot tt creds))).
Proof.
  refine (proj1 (ConfigSpec.loadConfig_memoised_until_reset None (boot tt creds)
                   acme_config (snd (loadConfig None (boot tt creds))) _) _ _ eq_refl).
  vm_compute. reflexivity.
Defined.

Lemma tree_create_never_fetches_witness :
  exists w',
    createIssueTree taken "ACME" [epic "A" [leaf "A1"]; leaf "B"] 300
      (boot tt creds) = (Ok [], w').
Proof.
  refine (proj2 (tree_create_never_fetches taken) _ "ACME"
            [epic "A" [leaf "A1"]; leaf "B"] 300%Z (boot tt creds)).
  intros b rq. exists (mkResponse 409 ∅ "already exists" None), b.
  split; reflexivity.
Defined.

Lemma config_error_is_caught_per_node_witness :
  (exists e w1,
     resolve_target no_opts (boot tt (∅ : gmap string string)) = (Throw e, w1) /\
     atlassianRequest taken "GET" "/rest/api/3/myself" None no_opts
       (boot tt ∅) = (Throw e, w1) /\
     is_config_error e /\ remote w1 = tt /\
     net_calls (trace w1) = [] /\ sleeps (trace w1) = []) /\
  (exists e w' evs,
     is_config_error e /\
     createIssueTree taken "ACME" [epic "A" [leaf "A1"]; leaf "B"] 300
       (boot tt ∅) = (Ok [], w') /\
     remote w' = tt /\ net_calls (trace w') = [] /\
     trace w' = evs /\ sleeps evs = [] /\
     logs evs =
       ["  Error creating " +:+ dquote +:+ "A" +:+ dquote +:+ ": " +:+ message e;
        "  Error creating " +:+ dquote +:+ "B" +:+ dquote +:+ ": " +:+ message e]) /\
  (exists e w' evs,
     is_config_error e /\
     buildPageTree taken "DOCS" (JStr "100")
       [page "Home" [page "Setup" []]; page "FAQ" []] 300
       (boot tt ∅) = (Ok tt, w') /\
     remote w' = tt /\ net_calls (trace w') = [] /\
     trace w' = evs /\ sleeps evs = [] /\
     logs evs =
       ["  Creating page: Home (under 100)";
        "    Error creating " +:+ dquote +:+ "Home" +:+ dquote +:+ ": " +:+ message e;
        "  Creating page: FAQ (under 100)";
        "    Error creating " +:+ dquote +:+ "FAQ" +:+ dquote +:+ ": " +:+ message e]).
Proof.
  assert (Hmis : misconfigured_at no_opts (boot tt (∅ : gmap string string))).
  { exists (loaded_config (boot tt (∅ : gmap string string)) "/srv/app/.env").
    split; [vm_compute; reflexivity | left; reflexivity]. }
  split; [|split].
  - exact (proj1 (config_error_is_caught_per_node taken) "GET"
             "/rest/api/3/myself" None no_opts (boot tt ∅) Hmis).
  - exact (proj1 (proj2 (config_error_is_caught_per_node taken)) "ACME"
             [epic "A" [leaf "A1"]; leaf "B"] 300%Z (boot tt ∅) Hmis).
  - exact (proj2 (proj2 (config_error_is_caught_per_node taken)) "DOCS"
             (JStr "100")
             [page "Home" [page "Setup" []]; page "FAQ" []] 300%Z (boot tt ∅) Hmis).
Defined.

(** The first scenario of the specification: root "A" fails with 500 and
    has two children.  One node is attempted; the list returned is empty,
    where the sentence of the specification wants an entry for "A". *)
Lemma report_misses_failed_node :
  ~ one_outcome_per_attempt scripted "ACME" [epic "A" [leaf "A1"; leaf "A2"]] 0
      (boot [reply 500 "boom" None] creds).
Proof.
  intros (log & report & Hlog & Hrep & Hlen).
  vm_compute in Hlog, Hrep. injection Hlog as <-. injection Hrep as <-.
  discriminate Hlen.
Qed.

(** A second run over a forest whose one key exists after the first: a
    tracker that refuses the key leaves the second run with no created
    node, one that accepts it mints a second issue with another id. *)
Lemma rerun_changes_outcome :
  ~ rerun_same_ids strict_tracker "ACME" [leaf "A"] 0 (boot [] creds) /\
  ~ rerun_same_ids lenient_tracker "ACME" [leaf "A"] 0 (boot [] creds).
Proof.
  split; intros (first & second & H1 & H2 & Hlen & Hids);
    vm_compute in H1, H2; injection H1 as <-; injection H2 as <-;
    discriminate.
Qed.

(** With nothing configured the run does not end in the configuration
    error: it completes. *)
Lemma config_error_does_not_end_run :
  misconfigured_at no_opts (boot tt (∅ : gmap string string)) /\
  ~ config_error_ends_run taken "ACME" [leaf "A"; leaf "B"] 0 (boot tt ∅).
Proof.
  split.
  - exists (loaded_config (boot tt (∅ : gmap string string)) "/srv/app/.env").
    split; [vm_compute; reflexivity | left; reflexivity].
  - intros (e & He & _). vm_compute in He. discriminate He.
Qed.

(** ** Sanity checks of the primitives and the scenarios of the
    specification *)

Example base64_colon : base64 ":" = "Og==".
Proof. reflexivity. Qed.

Example base64_user : base64 "me@x.io:tok" = "bWVAeC5pbzp0b2s=".
Proof. reflexivity. Qed.

Example parseInt_samples :
  parseInt "5" = Some 5%Z /\ parseInt " 120 s" = Some 120%Z /\
  parseInt "-7" = Some (-7)%Z /\ parseInt "soon" = None /\ parseInt "" = None.
Proof. repeat split; reflexivity. Qed.

Example trim_sample : trim "  A = b  " = "A = b".
Proof. reflexivity. Qed.

(** A byte order mark and a no-break space are white space to [trim]. *)
Example trim_unicode_sample :
  trim (utf8 [239; 187; 191]%N +:+ "KEY" +:+ utf8 [194; 160]%N +:+ " ") = "KEY".
Proof. reflexivity. Qed.

(** [substring] counts code units, not bytes: 260 times U+00E9 are 520
    bytes and 260 units, all within the first 500; cutting U+1F600 in two
    leaves its high surrogate U+D83D. *)
Example substring_counts_units :
  let body := String.concat "" (replicate 260 (utf8 [195; 169]%N)) in
  String.length body = 520%nat /\ units body = 260%nat /\
  take_units 500 body = body /\
  take_units 1 (utf8 [240; 159; 152; 128]%N) = utf8 [237; 160; 189]%N.
Proof. vm_compute. repeat split; reflexivity. Qed.

(** Adding one stops being exact at [2^53]. *)
Example add_one_samples :
  JsMore.add_one 41 = 42%Z /\
  JsMore.add_one (2 ^ 53 - 1) = (2 ^ 53)%Z /\
  JsMore.add_one (2 ^ 53) = (2 ^ 53)%Z /\
  JsMore.add_one (2 ^ 53 + 2) = (2 ^ 53 + 4)%Z.
Proof. vm_compute. repeat split; reflexivity. Qed.

Example split_sample :
  split_lines ("a" +:+ String "010"%char "b") = ["a"; "b"].
Proof. reflexivity. Qed.

Example parse_env_sample :
  parse_env ("# local" +:+ String "010"%char "ATLASSIAN_DOMAIN = x.atlassian.net"
             +:+ String "010"%char "junk")
  !! "ATLASSIAN_DOMAIN" = Some "x.atlassian.net".
Proof. vm_compute. reflexivity. Qed.

Example preorder_sample :
  issue_preorder [] 0 [epic "A" [epic "A1" [leaf "x"]; leaf "A2"]; leaf "B"] =
  [([0], "A"); ([0; 0], "A1"); ([0; 0; 0], "x"); ([0; 1], "A2"); ([1], "B")].
Proof. reflexivity. Qed.

(** Root "A" fails with 500: one request is sent, "A" is the only node
    attempted, and its children are never tried. *)
Example scenario_failed_root :
  let run := createIssueTree_audit scripted "ACME"
               [epic "A" [leaf "A1"; leaf "A2"]] 0
               (boot [reply 500 "boom" None] creds) in
  entry <$> default [] (match fst run with Ok l => Some l | Throw _ => None end)
    = [([0], "A")] /\
  length (net_calls (trace (snd run))) = 1 /\
  logs (trace (snd run)) =
    ["  Error creating " +:+ dquote +:+ "A" +:+ dquote +:+ ": HTTP 500: boom"].
Proof. vm_compute. repeat split. Qed.

(** Root "B" is created with id 1, its child "B1" with id 2: the request
    for "B1" names 1 as its ancestor. *)
Example scenario_parent_reference :
  let run := buildPageTree scripted "ENG" JUndefined [page "B" [page "B1" []]] 0
               (boot [reply 200 "" (Some (JObj [("id", JStr "1")]));
                      reply 200 "" (Some (JObj [("id", JStr "2")]))] creds) in
  fst run = Ok tt /\
  rq_body <$> net_calls (trace (snd run)) =
    [Some (BJson (page_payload "ENG" "B" "<p>text</p>" JNull));
     Some (BJson (page_payload "ENG" "B1" "<p>text</p>" (JStr "1")))].
Proof. vm_compute. repeat split. Qed.

(** The waits of a throttled call: the fallback, a hint, and a hint that
    [parseInt] does not read. *)
Example waits_sample :
  sleeps (trace (snd (atlassianRequest scripted "GET" "/x" None no_opts
                        (boot [throttle None; throttle (Some "7");
                               throttle (Some "Wed, 21 Oct 2015 07:28:00 GMT");
                               reply 200 "ok" None] creds))))
  = [Some 5000%Z; Some 7000%Z; None].
Proof. vm_compute. reflexivity. Qed.

(** * More of the code

    Properties of the parts of the sources that the statements above do
    not reach: the parsing of the [.env] file, the guards and the
    traffic of the client, the payloads, the pacing and the depth of the
    issue walk, the page update and the screenshot gallery. *)

Import JsMore Formatters ConfluencePages Screenshots Outcome Payload Scenes.

Module StringFacts.

Lemma append_cons c s t : String c s +:+ t = String c (s +:+ t).
Proof. reflexivity. Qed.


Lemma append_nil_r s : s +:+ "" = s.
Proof. induction s as [|c s IH]; [done|]. by rewrite append_cons, IH. Qed.

Lemma append_assoc s t u : (s +:+ t) +:+ u = s +:+ (t +:+ u).
Proof. induction s as [|c s IH]; [done|]. by rewrite !append_cons, IH. Qed.

Lemma rev_app_app s t u : String.rev_app s (t +:+ u) = String.rev_app s t +:+ u.
Proof.
  revert t. induction s as [|c s IH]; intros t; simpl; [done|].
  apply (IH (String c t)).
Qed.

End StringFacts.
Import StringFacts.

Module EnvFileSpec.

Lemma split_lines_go_app cur a b :
  split_lines_go cur (a +:+ String "010" b) =
  split_lines_go cur a ++ split_lines b.
Proof.
  revert cur. induction a as [|c a IH]; intros cur.
  - reflexivity.
  - rewrite append_cons. simpl. destruct (Ascii.eqb c "010"); simpl; by rewrite IH.
Qed.

Lemma split_lines_go_single cur line :
  index_of "010" line = None ->
  split_lines_go cur line = [String.rev cur +:+ line].
Proof.
  revert cur. induction line as [|c line IH]; intros cur;
    cbn [index_of split_lines_go].
  - intros _. by rewrite append_nil_r.
  - rewrite (Ascii.eqb_sym "010" c). destruct (Ascii.eqb c "010"); [done|].
    intros H. rewrite IH by (by destruct (index_of _ line)).
    f_equal. unfold String.rev. cbn [String.rev_app].
    change (String c "") with ("" +:+ String c "").
    by rewrite (rev_app_app cur "" (String c "")), append_assoc.
Qed.

Lemma parse_env_app a b :
  parse_env (a +:+ String "010" b) =
  fold_left parse_line (split_lines b) (parse_env a).
Proof.
  unfold parse_env, split_lines. by rewrite split_lines_go_app, fold_left_app.
Qed.

(** What a line does to the table does not depend on the table. *)
Lemma parse_line_frame env line :
  parse_line env line = env \/
  exists k v, forall env', parse_line env' line = <[k := v]> env'.
Proof.
  unfold parse_line. cbv zeta.
  destruct (_ || _); [by left|].
  destruct (index_of _ _); [|by left]. right. eauto.
Qed.

(** X1: the [.env] file is read line by line, and a later assignment
    replaces an earlier one of the same variable: appending a line that
    assigns [v] to [k] to any content gives the table of that content with
    [k] set to [v]. *)
Theorem later_assignment_wins content line k v :
  index_of "010" line = None ->
  parse_line ∅ line = {[ k := v ]} ->
  parse_env (content +:+ String "010" line) = <[k := v]> (parse_env content).
Proof.
  intros Hone Hline. rewrite parse_env_app.
  unfold split_lines. rewrite split_lines_go_single by done. simpl.
  destruct (parse_line_frame ∅ line) as [Hskip | (k' & v' & Hset)].
  - rewrite Hskip in Hline. exfalso.
    assert (H : (∅ : gmap string string) !! k = Some v).
    { rewrite Hline. apply lookup_singleton_eq. }
    by rewrite lookup_empty in H.
  - rewrite Hset in Hline |- *.
    assert (H : ({[ k := v ]} : gmap string string) !! k' = Some v').
    { rewrite <- Hline. apply lookup_insert_eq. }
    apply lookup_singleton_Some in H as [-> ->]. reflexivity.
Qed.

End EnvFileSpec.

Module LineSpec.





(** *** Prefixes *)









(** *** Pieces *)










(** *** Dropping pieces at both ends *)

Section Drop.
Context {A : Type} (f : A -> bool).
Implicit Types l : list A.










End Drop.

(** *** [trim] on an assignment *)












End LineSpec.

Module GuardSpec.

Lemma pad_not_sextet_low c : b64_char (N.land (N_of_ascii c) 63) <> "="%char.
Proof. destruct c as [[] [] [] [] [] [] [] []]; vm_compute; discriminate. Qed.

Lemma pad_not_sextet_mid c :
  b64_char (N.shiftl (N.land (N_of_ascii c) 15) 2) <> "="%char.
Proof. destruct c as [[] [] [] [] [] [] [] []]; vm_compute; discriminate. Qed.

Lemma one_byte_Og c :
  b64_go [N_of_ascii c] = "Og==" -> c = ":"%char.
Proof.
  destruct c as [[] [] [] [] [] [] [] []]; vm_compute; intros H;
    first [reflexivity | discriminate H].
Qed.

(** Only the lone colon encodes to [Og==]. *)
Lemma base64_Og s : base64 s = "Og==" <-> s = ":".
Proof.
  split; [|by intros ->].
  unfold base64. destruct s as [|a [|b [|c rest]]].
  - discriminate.
  - intros H. by rewrite (one_byte_Og a H).
  - cbn [list_ascii_of_string map b64_go]. intros [= _ _ H].
    by apply pad_not_sextet_mid in H.
  - cbn [list_ascii_of_string map b64_go]. intros [= _ _ _ H].
    by apply pad_not_sextet_low in H.
Qed.

Lemma base64_nonempty s : s <> "" -> base64 s <> "".
Proof.
  unfold base64. by destruct s as [|a [|b [|c rest]]].
Qed.

Lemma colon_alone a b : a +:+ ":" +:+ b = ":" <-> a = "" /\ b = "".
Proof.
  split; [|by intros [-> ->]].
  destruct a as [|c a].
  - change ("" +:+ ":" +:+ b) with (String ":" b). by intros [= ->].
  - change (String c a +:+ ":" +:+ b) with (String c (a +:+ String ":" b)).
    intros [= _ H]. by destruct a.
Qed.

Lemma auth_Og a : auth a = "Og==" <-> email a = "" /\ token a = "".
Proof. unfold auth. rewrite base64_Og. apply colon_alone. Qed.

Lemma auth_nonempty a : auth a <> "".
Proof. unfold auth. apply base64_nonempty. by destruct (email a). Qed.

Section GuardSpec.
Context {B : Type}.
Implicit Types w : World B.

(** X3: with a domain configured and no [opts.auth], the credentials
    guard of [atlassianRequest] refuses the target exactly when both the
    e-mail and the token are empty; as soon as one of the two is set the
    target is accepted, with the encoded pair as credential. *)
Theorem credentials_refused_iff_both_empty w c :
  _config w = Some c ->
  domain (atlassian c) <> "" ->
  resolve_target no_opts w =
  (if bool_decide (email (atlassian c) = "" /\ token (atlassian c) = "")
   then Throw (Error "ATLASSIAN_EMAIL and ATLASSIAN_API_TOKEN not set.")
   else Ok (domain (atlassian c), auth (atlassian c)), w).
Proof.
  intros Hc Hdom. rewrite (resolve_target_cached _ _ _ Hc).
  unfold check_target, effective_domain, effective_auth, no_opts, str_or.
  cbn [o_domain o_auth].
  destruct (String.eqb_spec (domain (atlassian c)) ""); [done|].
  destruct (String.eqb_spec (auth (atlassian c)) "") as [He|_].
  { by apply auth_nonempty in He. }
  cbn [orb]. destruct (String.eqb_spec (auth (atlassian c)) "Og==") as [He|Hne].
  - rewrite bool_decide_eq_true_2; [done|]. by apply auth_Og.
  - rewrite bool_decide_eq_false_2; [done|]. by rewrite <- auth_Og.
Qed.

End GuardSpec.
End GuardSpec.

Module TrafficSpec.
Section TrafficSpec.
Context {B : Type} (respond : B -> Request -> Reply * B).
Implicit Types w : World B.

Lemma untouched_trans w1 w2 w3 :
  untouched w1 w2 -> untouched w2 w3 -> untouched w1 w3.
Proof. unfold untouched. intros (?&?&?&?) (?&?&?&?). repeat split; congruence. Qed.

Lemma untouched_answered w rq : untouched w (answered respond w rq).
Proof. by repeat split. Qed.

Lemma resolve_remote opts w t w0 :
  resolve_target opts w = (Ok t, w0) -> remote w0 = remote w.
Proof. intros Ht. by apply offline_resolve_target in Ht as (-> & _). Qed.

(** One attempt that is not a 429 with budget left settles the call. *)
Lemma attempt_settles n method path body opts w t w0 :
  resolve_target opts w = (Ok t, w0) ->
  let rq := request_of t method path body opts in
  throttles (fst (respond (remote w0) rq)) = false \/ n = 0%nat ->
  atlassianRequest_with respond n method path body opts w =
  (settled (fst (respond (remote w0) rq)), answered respond w0 rq).
Proof.
  intros Ht rq Hcase.
  rewrite (attempt_run respond n method path body opts w t w0 Ht). cbv zeta.
  fold rq. unfold answered. rewrite (resolve_remote _ _ _ _ Ht) in *.
  destruct (respond (remote w) rq) as [reply b1]. cbn [fst snd] in *.
  unfold after_reply, settled, throttles in *.
  destruct reply as [res|e]; [|done].
  destruct (is_2xx (res_status res)); [done|].
  destruct Hcase as [-> | ->]; [done|].
  by destruct (res_status res =? 429)%Z.
Qed.

(** Whatever the backend does, a call whose prelude passed sends one and
    the same request between one and budget + 1 times, waits once between
    two sends, and leaves the machine as the prelude left it. *)
Lemma requests_invariant n : forall method path body opts w t w0 r w',
  resolve_target opts w = (Ok t, w0) ->
  atlassianRequest_with respond n method path body opts w = (r, w') ->
  untouched w0 w' /\
  exists k evs,
    1 <= k <= S n /\ trace w' = trace w0 ++ evs /\
    net_calls evs = replicate k (request_of t method path body opts) /\
    length (sleeps evs) = k - 1.
Proof.
  induction n as [|n IH]; intros method path body opts w t w0 r w' Ht Hrun.
  - rewrite (attempt_settles 0 _ _ _ _ _ _ _ Ht) in Hrun by (by right).
    injection Hrun as <- <-. split; [apply untouched_answered|].
    exists 1, [Net (request_of t method path body opts)].
    repeat split; lia.
  - set (rq := request_of t method path body opts) in *.
    destruct (throttles (fst (respond (remote w0) rq))) eqn:Hthr.
    + rewrite (attempt_run respond (S n) method path body opts w t w0 Ht) in Hrun.
      cbv zeta in Hrun. fold rq in Hrun.
      rewrite <- (resolve_remote _ _ _ _ Ht) in Hrun.
      destruct (respond (remote w0) rq) as [reply b1] eqn:Hre.
      cbn [fst snd] in *. destruct reply as [res|e]; [|done].
      cbn [throttles] in Hthr. apply Z.eqb_eq in Hthr.
      rewrite (after_throttle respond n _ _ _ _ res _ Hthr) in Hrun.
      match type of Hrun with
      | atlassianRequest_with _ _ _ _ _ _ ?x = _ => set (w2 := x) in *
      end.
      assert (Ht2 : resolve_target (with_retries opts n) w2 = (Ok t, w2)).
      { by apply (retry_prelude_passes opts w t w0 Ht). }
      destruct (IH _ _ _ _ _ _ _ _ _ Ht2 Hrun) as (Hsame & k & evs & Hk & Htr & Hnet & Hsl).
      split.
      { eapply untouched_trans; [|exact Hsame]. by repeat split. }
      exists (S k),
        (Net rq :: Log (retry_notice (S n) res) :: Sleep (retry_delay res) :: evs).
      repeat split; try lia.
      * rewrite Htr. subst w2. cbn [trace record]. by rewrite <- !app_assoc.
      * cbn. f_equal. exact Hnet.
      * cbn. change (length (sleeps evs) + 1 = k - 0)%nat || idtac.
        fold (sleeps evs). lia.
    + rewrite (attempt_settles (S n) _ _ _ _ _ _ _ Ht) in Hrun by (by left).
      injection Hrun as <- <-. split; [apply untouched_answered|].
      exists 1, [Net rq]. repeat split; lia.
Qed.


(** X4: whatever the backend answers, one call of [atlassianRequest] puts
    one and the same request on the wire at least once and at most
    budget + 1 times, suspends exactly once between two consecutive sends,
    and changes neither the files, the environment, the working directory
    nor the cached configuration. *)
Theorem one_request_repeated method path body opts w t w0 r w' :
  resolve_target opts w = (Ok t, w0) ->
  atlassianRequest respond method path body opts w = (r, w') ->
  untouched w0 w' /\
  exists k evs,
    1 <= k <= S (default 3%nat (retries opts)) /\
    trace w' = trace w0 ++ evs /\
    net_calls evs = replicate k (request_of t method path body opts) /\
    length (sleeps evs) = k - 1.
Proof. apply requests_invariant. Qed.


End TrafficSpec.
End TrafficSpec.
Import TrafficSpec.

Module ObjectFacts.
Section ObjectFacts.
Context {V : Type}.
Implicit Types (l : list (string * V)) (k : string) (v : V).

Lemma assoc_app k l1 l2 :
  assoc k (l1 ++ l2) =
  match assoc k l1 with Some v => Some v | None => assoc k l2 end.
Proof.
  induction l1 as [|[k' v'] l1 IH]; [done|].
  cbn [app assoc]. by destruct (String.eqb k k').
Qed.

Lemma assoc_assign k k' v l :
  assoc k (assign k' v l) = if String.eqb k k' then Some v else assoc k l.
Proof.
  induction l as [|[k0 v0] l IH]; cbn [assign assoc].
  - done.
  - destruct (String.eqb_spec k' k0) as [->|Hne]; cbn [assoc].
    + by destruct (String.eqb k k0).
    + destruct (String.eqb_spec k k0) as [->|Hne2].
      * by destruct (String.eqb_spec k0 k').
      * exact IH.
Qed.

Lemma keys_assign k v l :
  (assign k v l).*1 = if bool_decide (k ∈ l.*1) then l.*1 else l.*1 ++ [k].
Proof.
  induction l as [|[k0 v0] l IH]; cbn [assign fmap list_fmap fst].
  - by rewrite bool_decide_eq_false_2 by apply not_elem_of_nil.
  - destruct (String.eqb_spec k k0) as [->|Hne]; cbn [fmap list_fmap fst].
    + rewrite bool_decide_eq_true_2 by left. done.
    + fold (fmap (M:=list) (@fst string V)) in *. rewrite IH.
      destruct (decide (k ∈ l.*1)) as [Hin|Hnin].
      * rewrite !bool_decide_eq_true_2; [done | by right | done].
      * rewrite !bool_decide_eq_false_2; [done | | done].
        rewrite not_elem_of_cons. done.
Qed.

Lemma NoDup_assign k v l : NoDup l.*1 -> NoDup (assign k v l).*1.
Proof.
  intros H. rewrite keys_assign. case_bool_decide as Hin; [done|].
  apply NoDup_app. split; [done|]. split; [|apply NoDup_singleton].
  intros x Hx ->%list_elem_of_singleton. done.
Qed.

(** [{...base, ...extra}]: the last entry of [extra] for a name wins,
    and [base] shows through where [extra] has none. *)
Lemma assoc_spread k extra : forall base : list (string * V),
  assoc k (spread base extra) =
  match assoc k (reverse extra) with Some v => Some v | None => assoc k base end.
Proof.
  unfold spread. induction extra as [|[k0 v0] extra IH]; intros base.
  - done.
  - cbn [fold_left fst snd]. rewrite IH, reverse_cons, assoc_app, assoc_assign.
    destruct (assoc k (reverse extra)); [done|]. cbn [assoc].
    by destruct (String.eqb k k0).
Qed.

Lemma NoDup_spread extra : forall base : list (string * V),
  NoDup base.*1 -> NoDup (spread base extra).*1.
Proof.
  unfold spread. induction extra as [|[k0 v0] extra IH]; intros base H; [done|].
  cbn [fold_left]. apply IH. by apply NoDup_assign.
Qed.

End ObjectFacts.
End ObjectFacts.
Import ObjectFacts.

Module HeaderSpec.

(** X6: the headers of a request are the three defaults overlaid with
    [opts.headers]: a header the caller passes replaces the default of the
    same name ([Authorization] included), the last one winning when a name
    is passed twice; the defaults the caller does not name are kept, and no
    name is sent twice. *)
Theorem caller_headers_override target method path body opts :
  let hs := rq_headers (request_of target method path body opts) in
  NoDup hs.*1 /\
  forall k,
    assoc k hs =
    match assoc k (reverse (o_headers opts)) with
    | Some v => Some v
    | None =>
        assoc k [("Authorization", "Basic " +:+ snd target);
                 ("Accept", "application/json");
                 ("Content-Type", "application/json")]
    end.
Proof.
  cbv zeta. unfold request_of, json_headers. cbn [rq_headers]. split.
  - apply NoDup_spread. by apply (bool_decide_unpack _).
  - intros k. apply assoc_spread.
Qed.

End HeaderSpec.

Module AttachmentSpec.
Section AttachmentSpec.
Context {B : Type} (respond : B -> Request -> Reply * B).
Implicit Types w : World B.

Lemma net_calls_local w w0 evs :
  trace w0 = trace w ++ evs -> Forall is_local evs ->
  net_calls (trace w0) = net_calls (trace w).
Proof.
  intros -> Hloc. by rewrite net_calls_app, (local_no_net _ Hloc), app_nil_r.
Qed.

(** X7: an upload whose file cannot be read (it is missing, or it is a
    directory) is rejected with the error of [readFileSync] before anything
    is sent: the backend is not contacted. *)
Theorem unreadable_file_sends_nothing rnd apiPath filepath filename opts w c w0 :
  loadConfig None w = (Ok c, w0) ->
  (forall fileData, files w !! filepath <> Some (File fileData)) ->
  exists e w',
    uploadAttachment respond rnd apiPath filepath filename opts w = (Throw e, w') /\
    e = (if files w !! filepath is Some Dir
         then Error "EISDIR: illegal operation on a directory, read"
         else Error ("ENOENT: no such file or directory, open '" +:+
                     filepath +:+ "'")) /\
    remote w' = remote w /\ net_calls (trace w') = net_calls (trace w).
Proof.
  intros Hc Hfile. unfold uploadAttachment. rewrite (bind_ok _ _ _ _ _ Hc).
  apply offline_loadConfig in Hc as (Hr0 & Hf0 & _ & _ & evs & Htr & Hloc).
  eexists _, (record w0 [FsRead filepath]). split; [|split; [reflexivity|]].
  - erewrite bind_throw; [reflexivity|].
    rewrite readFileSync_run, Hf0.
    destruct (files w !! filepath) as [[fileData|]|] eqn:Hf; [|reflexivity..].
    by destruct (Hfile fileData).
  - split; [exact Hr0|]. cbn [trace record].
    rewrite net_calls_app, app_nil_r. by eapply net_calls_local.
Qed.

(** X8: [uploadAttachment] has none of the guards of [atlassianRequest].
    Where the configuration makes [atlassianRequest] refuse to start (no
    domain, or no credentials), an upload of a readable file still sends its
    PUT: a request of method PUT to the path given, whose host is the domain
    that was refused and whose [Authorization] header carries the credential
    that was refused, with the file in its multipart body. *)
Theorem upload_skips_the_guards rnd apiPath filepath filename opts w c w0 fileData
  method path body :
  loadConfig None w = (Ok c, w0) ->
  misconfigured opts c ->
  files w !! filepath = Some (File fileData) ->
  let eol := String "013"%char (String "010"%char "") in
  let quote := String "034"%char "" in
  let boundary := "----FormBoundary" +:+ rnd in
  let payload :=
    ("--" +:+ boundary +:+ eol +:+
     "Content-Disposition: form-data; name=" +:+ quote +:+ "file" +:+ quote +:+
     "; filename=" +:+ quote +:+ filename +:+ quote +:+ eol +:+
     "Content-Type: image/png" +:+ eol +:+ eol) +:+
    fileData +:+
    (eol +:+ "--" +:+ boundary +:+ "--" +:+ eol) in
  let put :=
    {| rq_hostname := effective_domain opts c;
       rq_path := apiPath;
       rq_method := "PUT";
       rq_headers :=
         [("Authorization", "Basic " +:+ effective_auth opts c);
          ("Content-Type", "multipart/form-data; boundary=" +:+ boundary);
          ("X-Atlassian-Token", "nocheck");
          ("Content-Length", pretty (String.length payload))];
       rq_body := Some (BRaw payload) |} in
  (exists e w1,
     atlassianRequest respond method path body opts w = (Throw e, w1) /\
     is_config_error e /\ net_calls (trace w1) = net_calls (trace w)) /\
  (exists r w' evs,
     uploadAttachment respond rnd apiPath filepath filename opts w = (r, w') /\
     trace w' = trace w0 ++ FsRead filepath :: Net put :: evs).
Proof.
  intros Hc Hmis Hfile eol quote boundary payload put. split.
  - destruct (config_error_before_network respond method path body opts w)
      as (c' & e & w1 & _ & _ & _ & _ & Hrun & Herr & _ & evs & Htr & Hloc).
    { exists c. by rewrite Hc. }
    exists e, w1. split; [done|]. split; [done|]. by eapply net_calls_local.
  - unfold uploadAttachment. rewrite (bind_ok _ _ _ _ _ Hc).
    apply offline_loadConfig in Hc as (Hr0 & Hf0 & _ & _ & _).
    erewrite bind_ok; cycle 1.
    { rewrite readFileSync_run, Hf0, Hfile. reflexivity. }
    cbv zeta.
    change (upload_request _ _ apiPath "PUT" _ _) with put.
    match goal with
    | |- context [upload_request ?d ?a apiPath "POST" ?b ?p] =>
        set (post := upload_request d a apiPath "POST" b p)
    end.
    erewrite bind_ok by apply https_request_run.
    cbn [remote record].
    destruct (respond (remote w0) put) as [[res|e] b1]; cbn [fst snd].
    + destruct (is_2xx (res_status res)).
      { eexists _, _, []. split; [reflexivity|].
        cbn [trace record]. by rewrite <- !app_assoc. }
      destruct ((res_status res =? 404)%Z || (res_status res =? 400)%Z).
      * erewrite bind_ok by apply https_request_run. cbn [remote].
        destruct (respond b1 post) as [[res2|e] b2]; cbn [fst snd];
          [destruct (is_2xx (res_status res2))|];
          (eexists _, _, [Net post]; split; [reflexivity|]);
          cbn [trace record]; by rewrite <- !app_assoc.
      * eexists _, _, []. split; [reflexivity|].
        cbn [trace record]. by rewrite <- !app_assoc.
    + eexists _, _, []. split; [reflexivity|].
      cbn [trace record]. by rewrite <- !app_assoc.
Qed.

End AttachmentSpec.
End AttachmentSpec.

Module FieldSpec.
Section FieldSpec.
Context {B : Type} (respond : B -> Request -> Reply * B).
Implicit Types w : World B.
Local Abbreviation emits := (emits (B:=B)).

Lemma spread_app {V} (base a b : list (string * V)) :
  spread base (a ++ b) = spread (spread base a) b.
Proof. apply fold_left_app. Qed.

(** The fields are the base object overlaid with [opts.fields] and then
    with the explicit options. *)
Lemma issue_fields_ok projectKey issueType summary description opts w fs w' :
  issue_fields projectKey issueType summary description opts w = (Ok fs, w') ->
  w' = w /\
  fs = spread (base_fields projectKey issueType summary description)
         (default [] (io_fields opts) ++ explicit_fields opts).
Proof.
  unfold issue_fields. cbv zeta. fold (base_fields projectKey issueType summary description).
  set (f0 := spread _ (default [] (io_fields opts))).
  intros H. apply bind_ok_inv in H as (f3 & w1 & H3 & H). injection H as <- <-.
  rewrite spread_app. fold f0. unfold explicit_fields, set_if in *.
  destruct (io_components opts) as [| |b|n|s|cs|fields];
    cbn [truthy] in H3 |- *;
    repeat match type of H3 with
      | (if ?c then _ else _) _ = _ => destruct c
      end;
    try discriminate H3; injection H3 as <- <-;
    (split; [reflexivity|]);
    destruct (truthy (io_priority opts)), (truthy (io_labels opts)),
      (truthy (io_parentKey opts)), (truthy (io_assigneeId opts)),
      (truthy (io_storyPoints opts)); reflexivity.
Qed.

Lemma issue_fields_lookup projectKey issueType summary description opts w fs w' :
  issue_fields projectKey issueType summary description opts w = (Ok fs, w') ->
  NoDup fs.*1 /\
  forall k,
    assoc k fs =
    first_found (assoc k (reverse (explicit_fields opts)))
      (assoc k (reverse (default [] (io_fields opts))))
      (assoc k (base_fields projectKey issueType summary description)).
Proof.
  intros H. apply issue_fields_ok in H as [_ ->]. split.
  - apply NoDup_spread. by apply (bool_decide_unpack _).
  - intros k. rewrite assoc_spread, reverse_app, assoc_app. unfold first_found.
    by destruct (assoc k (reverse (explicit_fields opts))),
      (assoc k (reverse (default [] (io_fields opts)))).
Qed.

(** X9: in the payload of [createIssue] an explicit option ([priority],
    [labels], [components], [parentKey], [assigneeId], [storyPoints]) wins
    over a property of the same name in [opts.fields], which in turn wins
    over the four properties the function sets itself ([project],
    [issuetype], [summary], [description]); no property is listed twice,
    and building the fields touches nothing. *)
Theorem explicit_options_win projectKey issueType summary description opts w fs w' :
  issue_fields projectKey issueType summary description opts w = (Ok fs, w') ->
  w' = w /\ NoDup fs.*1 /\
  forall k,
    assoc k fs =
    first_found (assoc k (reverse (explicit_fields opts)))
      (assoc k (reverse (default [] (io_fields opts))))
      (assoc k (base_fields projectKey issueType summary description)).
Proof.
  intros H. split; [by apply issue_fields_ok in H as [-> _]|].
  by eapply issue_fields_lookup.
Qed.

End FieldSpec.
End FieldSpec.

Import FieldSpec.

Module ForestSpec.
Section ForestSpec.
Context {B : Type} (respond : B -> Request -> Reply * B).
Implicit Types w : World B.
Local Abbreviation emits := (emits (B:=B)).

Lemma atlassianRequest_with_carries n method path body :
  forall opts, emits (carries method path body)
                 (atlassianRequest_with respond n method path body opts).
Proof.
  induction n as [|n IH]; intros opts; rewrite atlassianRequest_with_eq;
    (apply emits_bind;
     [ eapply emits_weaken; [|apply offline_emits, offline_resolve_target];
       by intros [] | intros tg ]);
    (apply emits_bind;
     [ intros w r w1; rewrite https_request_run; intros [= <- <-];
       eexists [_]; split; [reflexivity|]; by repeat constructor | intros rp ]);
    unfold after_reply; destruct rp as [res|e]; try apply emits_throw;
    destruct (is_2xx _); try apply emits_ret;
    destruct (_ =? _)%Z; try apply emits_throw.
  apply emits_bind; [by apply emits_emit | intros _].
  apply emits_bind; [by apply emits_emit | intros _]. apply IH.
Qed.

Lemma atlassianRequest_carries method path body opts :
  emits (carries method path body) (atlassianRequest respond method path body opts).
Proof. apply atlassianRequest_with_carries. Qed.

(** What [createIssue] sends carries the fields it built. *)
Lemma createIssue_carries P projectKey issueType summary description opts :
  (forall ev, is_local ev -> P ev) -> (forall line, P (Log line)) ->
  (forall fs w w',
     issue_fields projectKey issueType summary description opts w = (Ok fs, w') ->
     forall ev, carries "POST" (API_V3 +:+ "/issue")
                  (Some (JObj [("fields", JObj fs)])) ev -> P ev) ->
  emits P (createIssue respond projectKey issueType summary description opts).
Proof.
  intros Hlocal Hlog Hsend w r w2 H. unfold createIssue in H.
  apply bind_inv in H as [(fs & w1 & Hfs & H) | (e & Hfs & ->)].
  - pose proof (issue_fields_ok _ _ _ _ _ _ _ _ Hfs) as [-> _].
    refine (emits_bind P _ _ _ _ w r w2 H).
    + eapply emits_weaken; [|apply atlassianRequest_carries].
      intros ev. by apply (Hsend fs w w).
    + intros result. apply emits_bind; [apply emits_get_prop | intros rkey].
      apply emits_bind; [apply emits_emit, Hlog | intros _]. apply emits_ret.
  - eapply (emits_issue_fields P); exact Hfs.
Qed.

Lemma emits_ret_bind {A C} P (a : A) (k : A -> M B C) :
  emits P (k a) -> emits P (bind (ret a) k).
Proof. intros H w r w1 E. exact (H w r w1 E). Qed.

Lemma emits_throw_bind {A C} P e (k : A -> M B C) :
  emits P (bind (throw e) k).
Proof. intros w r w1 E. exact (emits_throw P e w r w1 E). Qed.

(** X10: every request the creation of a child sends names, as [parent],
    the key read off the result of its parent's creation; when that result
    has no key (or a falsy one) the child is sent without it, with whatever
    [parent] its own [fields] give. *)
Theorem child_requests_name_parent projectKey result delayMs created child :
  emits (names_parent (default JUndefined (prop result "key")) (fields child))
    (create_child respond projectKey result delayMs created child).
Proof.
  unfold create_child. apply emits_try_catch.
  - unfold get_prop. destruct (prop result "key") as [pk|];
      [|apply emits_throw_bind].
    apply emits_ret_bind. change (default JUndefined (Some pk)) with pk.
    apply emits_bind; [|intros childResult;
      apply emits_bind; [by apply emits_pace | intros _]; apply emits_ret].
    apply createIssue_carries; [by intros [] | done |].
    intros fs w w' Hfs [| | | | |] Hev; try done.
    destruct Hev as (_ & _ & Hbody). exists fs. split; [exact Hbody|].
    apply issue_fields_lookup in Hfs as [_ Hk]. rewrite Hk.
    unfold explicit_fields, node_opts, first_found.
    cbn [io_priority io_labels io_components io_parentKey io_assigneeId
         io_storyPoints io_fields truthy app].
    rewrite app_nil_r, !reverse_app, !assoc_app.
    set (own := assoc "parent" (reverse (default [] (fields child)))).
    destruct (truthy pk), (truthy (priority child)), (truthy (labels child));
      (destruct (truthy (components child)); [destruct (components child)|]);
      cbn; by destruct own.
  - intros e. apply emits_bind; [by apply emits_emit | intros _]. apply emits_ret.
Qed.

Lemma bind_ext {A C} (m : M B A) (k1 k2 : A -> M B C) w :
  (forall a w1, k1 a w1 = k2 a w1) -> bind m k1 w = bind m k2 w.
Proof. intros H. unfold bind. destruct (m w) as [[a|e] w1]; [apply H | done]. Qed.

Lemma try_catch_ext {A} (m1 m2 : M B A) h w :
  (forall w1, m1 w1 = m2 w1) -> try_catch m1 h w = try_catch m2 h w.
Proof. intros H. unfold try_catch. by rewrite H. Qed.

Lemma for_of_map {A A' S} (step : S -> A -> M B S) (f : A' -> A) xs :
  forall acc w,
    for_of step (map f xs) acc w = for_of (fun acc x => step acc (f x)) xs acc w.
Proof.
  induction xs as [|x xs IH]; intros acc w; [done|].
  cbn [map]. rewrite !for_of_cons. apply bind_ext. intros a w1. apply IH.
Qed.

(** X11: [createIssueTree] walks two levels only.  The children of a
    child are never looked at: a forest and the same forest cut off below
    the children of its roots give the same run (the same requests, lines,
    waits and result), so deeper nodes are dropped without a request and
    without a message. *)
Theorem deeper_levels_are_ignored projectKey issues delayMs w :
  createIssueTree respond projectKey issues delayMs w =
  createIssueTree respond projectKey (map two_levels issues) delayMs w.
Proof.
  unfold createIssueTree. rewrite for_of_map. generalize (@nil JsValue).
  revert w. induction issues as [|issue issues IH]; intros w acc; [done|].
  rewrite !for_of_cons. unfold bind.
  assert (Hroot : create_root respond projectKey delayMs acc (two_levels issue) w =
                  create_root respond projectKey delayMs acc issue w).
  { unfold create_root. apply try_catch_ext. intros w1.
    apply bind_ext. intros result w2. apply bind_ext. intros _ w3.
    cbn [children two_levels]. by rewrite for_of_map. }
  rewrite Hroot.
  destruct (create_root respond projectKey delayMs acc issue w) as [[a|e] w1];
    [apply IH | done].
Qed.

Lemma sleeps_no_timer evs : Forall no_timer evs -> sleeps evs = [].
Proof.
  unfold sleeps. induction 1 as [|ev evs Hev _ IH]; [done|].
  destruct ev; try done; simpl; exact IH.
Qed.

(** Against a backend that never answers 429 a request sets no timer. *)
Lemma atlassianRequest_no_timer method path body opts :
  never_throttles respond ->
  emits no_timer (atlassianRequest respond method path body opts).
Proof.
  intros Hnever w r w1 H.
  destruct (resolve_target opts w) as [[t|e] w0] eqn:Ht.
  - pose proof Ht as Hoff.
    apply offline_resolve_target in Hoff as (_ & _ & _ & _ & evs & Htr & Hloc).
    unfold atlassianRequest in H.
    rewrite (attempt_settles respond _ _ _ _ _ _ _ _ Ht) in H by (left; apply Hnever).
    injection H as <- <-. eexists (evs ++ [Net _]). cbn [trace answered].
    rewrite Htr, app_assoc. split; [done|].
    apply Forall_app. split; [|by repeat constructor].
    eapply Forall_impl; [exact Hloc|]. by intros [].
  - unfold atlassianRequest in H. rewrite atlassianRequest_with_eq in H.
    rewrite (bind_throw _ _ _ _ _ Ht) in H. injection H as <- <-.
    apply offline_resolve_target in Ht as (_ & _ & _ & _ & evs & Htr & Hloc).
    exists evs. split; [done|]. eapply Forall_impl; [exact Hloc|]. by intros [].
Qed.

Lemma createIssue_no_timer projectKey issueType summary description opts :
  never_throttles respond ->
  emits no_timer (createIssue respond projectKey issueType summary description opts).
Proof.
  intros Hnever. unfold createIssue.
  apply emits_bind; [apply emits_issue_fields | intros fields].
  apply emits_bind; [by apply atlassianRequest_no_timer | intros result].
  apply emits_bind; [apply emits_get_prop | intros rkey].
  apply emits_bind; [by apply emits_emit | intros _]. apply emits_ret.
Qed.

Lemma pacing_O delayMs : pacing delayMs 0 = [].
Proof. unfold pacing. by destruct (0 <? delayMs)%Z. Qed.

Lemma pacing_add delayMs a b :
  pacing delayMs (a + b) = pacing delayMs a ++ pacing delayMs b.
Proof. unfold pacing. destruct (0 <? delayMs)%Z; [apply replicate_add | done]. Qed.

Lemma pace_sleeps delayMs w :
  exists evs, pace delayMs w = (Ok tt, record w evs) /\
              sleeps evs = pacing delayMs 1.
Proof.
  rewrite pace_run. unfold pacing. destruct (0 <? delayMs)%Z.
  - by exists [Sleep (Some delayMs)].
  - exists []. split; [|done]. unfold record. destruct w. cbn. by rewrite app_nil_r.
Qed.

(** A creation against a backend that never throttles: the wait of
    [pace] is the only timer, and it is set when the node was created. *)
Lemma paced_creation {A} (create : M B JsValue) (k : JsValue -> M B A)
  delayMs w r w1 :
  emits no_timer create ->
  (let* v := create in pace delayMs;; k v) w = (r, w1) ->
  (exists e evs, r = Throw e /\ trace w1 = trace w ++ evs /\ sleeps evs = []) \/
  (exists v w2 evs,
     k v w2 = (r, w1) /\ trace w2 = trace w ++ evs /\
     sleeps evs = pacing delayMs 1).
Proof.
  intros Hcreate H. apply bind_inv in H as [(v & w2 & Hv & H) | (e & Hv & ->)].
  - right. apply Hcreate in Hv as (evs1 & Ht1 & F1).
    destruct (pace_sleeps delayMs w2) as (evs2 & Hp & Hs).
    rewrite (bind_ok _ _ _ _ _ Hp) in H.
    exists v, (record w2 evs2), (evs1 ++ evs2). split; [exact H|].
    cbn [trace record]. rewrite Ht1, app_assoc. split; [done|].
    by rewrite sleeps_app, (sleeps_no_timer _ F1), Hs.
  - left. apply Hcreate in Hv as (evs1 & Ht1 & F1).
    exists e, evs1. by rewrite (sleeps_no_timer _ F1).
Qed.

Lemma create_child_paced projectKey result delayMs created child w r w' :
  never_throttles respond ->
  create_child respond projectKey result delayMs created child w = (r, w') ->
  exists more evs,
    r = Ok (created ++ more) /\ trace w' = trace w ++ evs /\
    sleeps evs = pacing delayMs (length more).
Proof.
  intros Hnever. unfold create_child, try_catch.
  match goal with |- context [match ?m w with _ => _ end] => set (body := m) end.
  destruct (body w) as [[a|e] w1] eqn:E; subst body.
  - intros [= <- <-].
    apply bind_ok_inv in E as (pk & w0 & Hpk & E).
    apply get_prop_ok_inv in Hpk as [_ ->].
    apply (paced_creation _ (fun v => ret (created ++ [v]))) in E
      as [(e & evs & [=] & _) | (v & w2 & evs & Hret & Htr & Hs)];
      [|by apply createIssue_no_timer].
    injection Hret as <- <-. by exists [v], evs.
  - assert (Hquiet : exists evs, trace w1 = trace w ++ evs /\ sleeps evs = []).
    { apply bind_inv in E as [(pk & w0 & Hpk & E) | (e0 & Hpk & _)].
      - apply get_prop_ok_inv in Hpk as [_ ->].
        apply (paced_creation _ (fun v => ret (created ++ [v]))) in E
          as [(e1 & evs & _ & Htr & Hs) | (v & w2 & evs & [=] & _)];
          [eauto | by apply createIssue_no_timer].
      - unfold get_prop in Hpk. destruct (prop result "key"); [done|].
        injection Hpk as _ <-. exists []. by rewrite app_nil_r. }
    destruct Hquiet as (evs & Htr & Hs).
    unfold console_log. erewrite bind_ok by apply emit_run.
    intros [= <- <-]. exists []. eexists. rewrite app_nil_r.
    split; [done|]. cbn [trace record]. rewrite Htr, <- app_assoc.
    split; [reflexivity|]. by rewrite sleeps_app, Hs, pacing_O.
Qed.

Lemma for_of_paced {A} (step : list JsValue -> A -> M B (list JsValue)) delayMs xs :
  (forall acc x w r w', step acc x w = (r, w') ->
     exists more evs,
       r = Ok (acc ++ more) /\ trace w' = trace w ++ evs /\
       sleeps evs = pacing delayMs (length more)) ->
  forall acc w r w', for_of step xs acc w = (r, w') ->
    exists more evs,
      r = Ok (acc ++ more) /\ trace w' = trace w ++ evs /\
      sleeps evs = pacing delayMs (length more).
Proof.
  intros Hstep. induction xs as [|x xs IH]; intros acc w r w' H.
  - injection H as <- <-. exists [], []. by rewrite !app_nil_r, pacing_O.
  - rewrite for_of_cons in H. unfold bind in H.
    destruct (step acc x w) as [r1 w1] eqn:E.
    apply Hstep in E as (more1 & evs1 & -> & Ht1 & Hs1).
    apply IH in H as (more2 & evs2 & -> & Ht2 & Hs2).
    exists (more1 ++ more2), (evs1 ++ evs2).
    rewrite Ht2, Ht1, !app_assoc. split; [done|]. split; [done|].
    by rewrite sleeps_app, length_app, pacing_add, Hs1, Hs2.
Qed.

Lemma create_root_paced projectKey delayMs created issue w r w' :
  never_throttles respond ->
  create_root respond projectKey delayMs created issue w = (r, w') ->
  exists more evs,
    r = Ok (created ++ more) /\ trace w' = trace w ++ evs /\
    sleeps evs = pacing delayMs (length more).
Proof.
  intros Hnever. unfold create_root, try_catch.
  match goal with |- context [match ?m w with _ => _ end] => set (body := m) end.
  destruct (body w) as [r1 w1] eqn:E; subst body.
  apply (paced_creation _
           (fun v => for_of (create_child respond projectKey v delayMs)
                       (children issue) (created ++ [v]))) in E
    as [(e & evs & -> & Htr & Hs) | (v & w2 & evs & Hloop & Htr & Hs)];
    [| |by apply createIssue_no_timer].
  - unfold console_log. erewrite bind_ok by apply emit_run.
    intros [= <- <-]. exists []. eexists. rewrite app_nil_r.
    split; [done|]. cbn [trace record]. rewrite Htr, <- app_assoc.
    split; [reflexivity|]. by rewrite sleeps_app, Hs, pacing_O.
  - apply (for_of_paced _ delayMs) in Hloop
      as (more & evs2 & -> & Htr2 & Hs2);
      [|intros; by eapply create_child_paced].
    intros [= <- <-]. exists (v :: more), (evs ++ evs2).
    rewrite <- app_assoc. split; [done|].
    rewrite Htr2, Htr, app_assoc. split; [done|].
    rewrite sleeps_app, Hs, Hs2.
    change (length (v :: more)) with (1 + length more). by rewrite pacing_add.
Qed.

(** X12: against a backend that never answers 429, [createIssueTree]
    sets one timer of [delayMs] for every issue it created, the last one
    included, and none for a node that failed; with [delayMs] at zero or
    below it sets none.  A run that created [n] issues thus waits
    [n * delayMs] in all. *)
Theorem one_wait_per_created_issue projectKey issues delayMs w created w' :
  never_throttles respond ->
  createIssueTree respond projectKey issues delayMs w = (Ok created, w') ->
  exists evs,
    trace w' = trace w ++ evs /\
    sleeps evs = pacing delayMs (length created).
Proof.
  intros Hnever H. unfold createIssueTree in H.
  apply (for_of_paced _ delayMs) in H as (more & evs & [= ->] & Htr & Hs);
    [|intros; by eapply create_root_paced].
  by exists evs.
Qed.

End ForestSpec.
End ForestSpec.

Module PageSpecs.
Section PageSpecs.
Context {B : Type} (respond : B -> Request -> Reply * B).
Implicit Types w : World B.

(** X13: [createPage] succeeds as soon as the content request does.  The
    label request is sent only when there are labels, to the label
    endpoint of the page just created, and its outcome does not matter:
    whether it is answered, refused or fails, the created page is
    returned. *)
Theorem label_errors_are_swallowed spaceKey title body parentId labels w result w1 rid :
  atlassianRequest respond "POST" (API +:+ "/content")
    (Some (page_payload spaceKey title body (or_null parentId))) no_opts
    (record w [Log ("  Creating page: " +:+ title +:+
                    (if truthy (or_null parentId)
                     then " (under " +:+ to_string (or_null parentId) +:+ ")"
                     else ""))])
  = (Ok result, w1) ->
  prop result "id" = Some rid ->
  let w2 := record w1 [Log ("    Page created: ID=" +:+ to_string rid)] in
  createPage respond spaceKey title body parentId labels w =
  (Ok result,
   match labels with
   | [] => w2
   | _ =>
       snd (atlassianRequest respond "POST"
              (API +:+ "/content/" +:+ to_string rid +:+ "/label")
              (Some (label_payload labels)) no_opts w2)
   end).
Proof.
  intros Hpost Hid w2. unfold createPage. cbv zeta. unfold console_log.
  erewrite bind_ok by apply emit_run.
  rewrite (bind_ok _ _ _ _ _ Hpost).
  erewrite bind_ok by (by apply get_prop_run).
  erewrite bind_ok by apply emit_run. fold w2.
  destruct labels as [|l labels].
  - by erewrite bind_ok by reflexivity.
  - set (ls := l :: labels).
    erewrite bind_ok; [reflexivity|].
    unfold try_catch. erewrite bind_ok by (by apply get_prop_run).
    unfold bind.
    by destruct (atlassianRequest respond "POST" _ _ no_opts w2) as [[v|e] w3].
Qed.




End PageSpecs.
End PageSpecs.

Module GallerySpec.
Section GallerySpec.
Context {B : Type} (respond : B -> Request -> Reply * B).
Implicit Types w : World B.








End GallerySpec.
End GallerySpec.

Import EnvFileSpec LineSpec GuardSpec HeaderSpec AttachmentSpec ForestSpec PageSpecs
  GallerySpec.

Lemma later_assignment_wins_witness :
  parse_env ("A=1" +:+ String "010" "B=2" +:+ String "010" "  A = x=3 ") =
  <[ "A" := "x=3" ]> (parse_env ("A=1" +:+ String "010" "B=2")).
Proof.
  apply (later_assignment_wins ("A=1" +:+ String "010" "B=2")
           "  A = x=3 " "A" "x=3"); reflexivity.
Defined.


Lemma credentials_refused_iff_both_empty_witness :
  resolve_target no_opts (half_configured tt) =
  (Ok ("acme.atlassian.net", "OnRvaw=="), half_configured tt).
Proof.
  apply (credentials_refused_iff_both_empty (half_configured tt)
           token_only); [reflexivity | discriminate].
Defined.

Lemma one_request_repeated_witness :
  untouched
    (snd (resolve_target no_opts
            (boot [throttle None; reply 503 "down" None] creds)))
    (snd (atlassianRequest scripted "GET" "/rest/api/3/myself" None no_opts
            (boot [throttle None; reply 503 "down" None] creds))) /\
  exists k evs,
    1 <= k <= 4 /\
    trace (snd (atlassianRequest scripted "GET" "/rest/api/3/myself" None no_opts
                  (boot [throttle None; reply 503 "down" None] creds))) =
      trace (snd (resolve_target no_opts
                    (boot [throttle None; reply 503 "down" None] creds))) ++ evs /\
    net_calls evs = replicate k whoami /\
    length (sleeps evs) = k - 1.
Proof.
  apply (one_request_repeated scripted "GET" "/rest/api/3/myself" None no_opts
           (boot [throttle None; reply 503 "down" None] creds) acme _
           (fst (atlassianRequest scripted "GET" "/rest/api/3/myself" None no_opts
                   (boot [throttle None; reply 503 "down" None] creds)))).
  - vm_compute. reflexivity.
  - vm_compute. reflexivity.
Defined.


Lemma unreadable_file_sends_nothing_witness :
  exists e w',
    uploadAttachment scripted "k3x" "/wiki/rest/api/content/42/child/attachment"
      "/srv/app/shot.png" "shot.png" no_opts
      (boot [reply 200 "ok" None] creds) = (Throw e, w') /\
    e = Error ("ENOENT: no such file or directory, open '" +:+
               "/srv/app/shot.png" +:+ "'") /\
    remote w' = [reply 200 "ok" None] /\ net_calls (trace w') = [].
Proof.
  apply (unreadable_file_sends_nothing scripted "k3x"
           "/wiki/rest/api/content/42/child/attachment" "/srv/app/shot.png"
           "shot.png" no_opts (boot [reply 200 "ok" None] creds) acme_config
           (snd (loadConfig None (boot [reply 200 "ok" None] creds)))).
  - vm_compute. reflexivity.
  - intros fileData. discriminate.
Defined.

Lemma upload_skips_the_guards_witness :
  let eol := String "013"%char (String "010"%char "") in
  let quote := String "034"%char "" in
  let payload :=
    "------FormBoundaryk3x" +:+ eol +:+
    "Content-Disposition: form-data; name=" +:+ quote +:+ "file" +:+ quote +:+
    "; filename=" +:+ quote +:+ "shot.png" +:+ quote +:+ eol +:+
    "Content-Type: image/png" +:+ eol +:+ eol +:+
    "PNG" +:+ eol +:+
    "------FormBoundaryk3x--" +:+ eol in
  let put :=
    {| rq_hostname := "";
       rq_path := "/wiki/rest/api/content/42/child/attachment";
       rq_method := "PUT";
       rq_headers :=
         [("Authorization", "Basic Og==");
          ("Content-Type", "multipart/form-data; boundary=----FormBoundaryk3x");
          ("X-Atlassian-Token", "nocheck");
          ("Content-Length", "146")];
       rq_body := Some (BRaw payload) |} in
  (exists e w1,
     atlassianRequest scripted "GET" "/rest/api/3/myself" None no_opts
       (unconfigured [reply 200 "ok" None] "/srv/app/shot.png" "PNG") = (Throw e, w1) /\
     is_config_error e /\ net_calls (trace w1) = []) /\
  (exists r w' evs,
     uploadAttachment scripted "k3x" "/wiki/rest/api/content/42/child/attachment"
       "/srv/app/shot.png" "shot.png" no_opts
       (unconfigured [reply 200 "ok" None] "/srv/app/shot.png" "PNG") = (r, w') /\
     trace w' =
       trace (snd (loadConfig None
                     (unconfigured [reply 200 "ok" None] "/srv/app/shot.png" "PNG"))) ++
       FsRead "/srv/app/shot.png" :: Net put :: evs).
Proof.
  apply (upload_skips_the_guards scripted "k3x"
           "/wiki/rest/api/content/42/child/attachment" "/srv/app/shot.png"
           "shot.png" no_opts
           (unconfigured [reply 200 "ok" None] "/srv/app/shot.png" "PNG")
           (loaded_config (unconfigured [reply 200 "ok" None] "/srv/app/shot.png" "PNG")
              "/srv/app/.env")
           (snd (loadConfig None
                   (unconfigured [reply 200 "ok" None] "/srv/app/shot.png" "PNG")))
           "PNG" "GET" "/rest/api/3/myself" None).
  - vm_compute. reflexivity.
  - left. reflexivity.
  - reflexivity.
Defined.

Lemma explicit_options_win_witness :
  boot tt creds = boot tt creds /\
  NoDup ([("project", JObj [("key", JStr "ACME")]);
          ("issuetype", JObj [("name", JStr "Story")]);
          ("summary", JStr "from fields");
          ("description", adf (JStr "text"));
          ("priority", JObj [("name", JStr "High")])].*1) /\
  forall k,
    assoc k [("project", JObj [("key", JStr "ACME")]);
             ("issuetype", JObj [("name", JStr "Story")]);
             ("summary", JStr "from fields");
             ("description", adf (JStr "text"));
             ("priority", JObj [("name", JStr "High")])] =
    first_found (assoc k (reverse (explicit_fields urgent)))
      (assoc k (reverse (default [] (io_fields urgent))))
      (assoc k (base_fields "ACME" "Story" "Login" (JStr "text"))).
Proof.
  apply (explicit_options_win "ACME" "Story" "Login" (JStr "text") urgent
           (boot tt creds)).
  reflexivity.
Defined.

Lemma one_wait_per_created_issue_witness :
  exists evs,
    trace (snd (createIssueTree obliging "ACME"
                  [epic "E" [leaf "a"; leaf "b"]; leaf "c"] 200
                  (boot tt creds))) = [] ++ evs /\
    sleeps evs = pacing 200 4.
Proof.
  apply (one_wait_per_created_issue obliging "ACME"
           [epic "E" [leaf "a"; leaf "b"]; leaf "c"] 200 (boot tt creds)
           [minted 1; minted 1; minted 1; minted 1]).
  - intros b rq. reflexivity.
  - vm_compute. reflexivity.
Defined.

Lemma label_errors_are_swallowed_witness :
  createPage scripted "ENG" "Home" "<p>hi</p>" JUndefined ["draft"]
    (boot [reply 200 "ok" (Some (found_page "42" 1)); reply 500 "no labels" None]
       creds) =
  (Ok (found_page "42" 1),
   snd (atlassianRequest scripted "POST" (API +:+ "/content/" +:+ "42" +:+ "/label")
          (Some (label_payload ["draft"])) no_opts
          (record
             (snd (atlassianRequest scripted "POST" (API +:+ "/content")
                     (Some (page_payload "ENG" "Home" "<p>hi</p>" JNull)) no_opts
                     (record
                        (boot [reply 200 "ok" (Some (found_page "42" 1));
                               reply 500 "no labels" None] creds)
                        [Log ("  Creating page: " +:+ "Home" +:+ "")])))
             [Log ("    Page created: ID=" +:+ "42")]))).
Proof.
  apply (label_errors_are_swallowed scripted "ENG" "Home" "<p>hi</p>" JUndefined
           ["draft"]
           (boot [reply 200 "ok" (Some (found_page "42" 1));
                  reply 500 "no labels" None] creds)
           (found_page "42" 1) _ (JStr "42")).
  - vm_compute. reflexivity.
  - reflexivity.
Defined.




